(** * Verification of the result compiler (compile_results.py) and of the
      exact-result joiner (create_exact_results.py)

    The two scripts are embedded as pure functions:
    - text is [string], a sequence of 8-bit characters; the character
      classes of [re], [str.lower], [str.upper], [str.strip] and
      [str.split] are the ASCII ones, and [<] on text is the order of the
      codes;
    - a regular expression is a value of [Re.pattern], matched by a
      backtracking matcher with the priorities of [re] (leftmost match,
      greedy repetitions);
    - Python floats are the kernel's binary64 numbers ([PrimFloat.float]);
      [float(s)] and [format(x, ".Nf")] are correctly rounded;
    - dicts and sets are stdpp's [gmap] and [gset];
    - an uncaught Python exception is the [Raise] outcome of [result];
    - the directory tree the collector walks is an explicit value: the
      entries of each directory in the order [iterdir] lists them, and the
      text of each log file, or the fact that reading it fails;
    - the CSV files are the lists of their rows, each row the texts of its
      columns: what the [csv] module does to quote them is left out. *)

From Stdlib Require Import ZArith QArith Floats Uint63 Ascii String List Bool.
From Stdlib Require Import Permutation Sorted DecimalString.
From stdpp Require Import base gmap strings list.

Set Warnings "-inexact-float".

Local Open Scope string_scope.
Local Open Scope list_scope.

(* ===================================================================== *)
(** ** Python strings *)
(* ===================================================================== *)

Module PyStr.

Definition nl : ascii := "010"%char.

Definition code (c : ascii) : N := N_of_ascii c.

(** [str.isspace] on ASCII, which is also the class [\s] of [re] on [str]
    patterns: TAB, LF, VT, FF, CR, FS, GS, RS, US and the space. *)
Definition is_space (c : ascii) : bool :=
  let n := code c in
  ((9 <=? n) && (n <=? 13) || (28 <=? n) && (n <=? 32))%N.

Definition is_digit (c : ascii) : bool :=
  let n := code c in ((48 <=? n) && (n <=? 57))%N.

(** The characters of ASCII, on which the classes of this module are those
    of Python. *)
Definition is_ascii (c : ascii) : bool := (code c <? 128)%N.

Fixpoint isascii (s : string) : bool :=
  match s with
  | EmptyString => true
  | String c s' => is_ascii c && isascii s'
  end.

Definition is_upper (c : ascii) : bool :=
  let n := code c in ((65 <=? n) && (n <=? 90))%N.

Definition is_lower (c : ascii) : bool :=
  let n := code c in ((97 <=? n) && (n <=? 122))%N.

(** The class [\w]: letters, digits and the underscore. *)
Definition is_word (c : ascii) : bool :=
  is_digit c || is_upper c || is_lower c || Ascii.eqb c "_"%char.

Definition lower_char (c : ascii) : ascii :=
  if is_upper c then ascii_of_N (code c + 32) else c.

Definition upper_char (c : ascii) : ascii :=
  if is_lower c then ascii_of_N (code c - 32) else c.

Fixpoint map_chars (f : ascii -> ascii) (s : string) : string :=
  match s with
  | EmptyString => EmptyString
  | String c s' => String (f c) (map_chars f s')
  end.

(** [s.lower()] and [s.upper()]. *)
Definition lower : string -> string := map_chars lower_char.
Definition upper : string -> string := map_chars upper_char.

Fixpoint lstrip (s : string) : string :=
  match s with
  | String c s' => if is_space c then lstrip s' else s
  | EmptyString => EmptyString
  end.

Fixpoint rstrip (s : string) : string :=
  match s with
  | EmptyString => EmptyString
  | String c s' =>
      match rstrip s' with
      | EmptyString => if is_space c then EmptyString else String c EmptyString
      | t => String c t
      end
  end.

(** [s.strip()]. *)
Definition strip (s : string) : string := rstrip (lstrip s).

(** [s.split(sep)] for a one-character separator: the result is never
    empty, [split_on sep ""] is [[""]]. *)
Fixpoint split_on (sep : ascii) (s : string) : list string :=
  match s with
  | EmptyString => [EmptyString]
  | String c s' =>
      if Ascii.eqb c sep then EmptyString :: split_on sep s'
      else match split_on sep s' with
           | w :: ws => String c w :: ws
           | [] => [String c EmptyString]
           end
  end.

(** [s.split()]: the maximal runs of characters that are not white space. *)
Fixpoint split_ws_aux (cur : option string) (s : string) : list string :=
  match s with
  | EmptyString =>
      match cur with Some w => [w] | None => [] end
  | String c s' =>
      if is_space c then
        match cur with
        | Some w => w :: split_ws_aux None s'
        | None => split_ws_aux None s'
        end
      else
        match cur with
        | Some w => split_ws_aux (Some (String.append w (String c EmptyString))) s'
        | None => split_ws_aux (Some (String c EmptyString)) s'
        end
  end.

Definition split_ws (s : string) : list string := split_ws_aux None s.

(** [s.startswith(p)]. *)
Definition startswith (p s : string) : bool := String.prefix p s.

(** [s.endswith(p)]. *)
Definition endswith (p s : string) : bool :=
  let n := String.length s in
  let k := String.length p in
  (k <=? n)%nat && String.eqb (String.substring (n - k) k s) p.

(** [Path(s).name] for a POSIX path that does not end in a slash or in a
    dot component: the text after the last slash. *)
Definition path_name (s : string) : string :=
  match rev (split_on "/"%char s) with
  | w :: _ => w
  | [] => s
  end.

(** Code-point order, as [<] compares two [str]. *)
Definition str_lt (a b : string) : bool := String.ltb a b.

End PyStr.

(* ===================================================================== *)
(** ** The fragment of [re] the scripts use *)
(* ===================================================================== *)

Module Re.
Import PyStr.

(** A pattern is a sequence of items. Every repetition in the scripts'
    patterns is over a single character class, and every group is one
    such repetition [(c+)]. The anchors are those of [re.MULTILINE]. *)
Inductive item : Type :=
| Lit (s : string)               (* literal text *)
| Star (cls : ascii -> bool)     (* c*, greedy *)
| Plus (cls : ascii -> bool)     (* c+, greedy *)
| Group (cls : ascii -> bool)    (* (c+), greedy, captured *)
| Bol                            (* ^ *)
| Eol.                           (* $ *)

Definition pattern := list item.

(** The state of a match: the character before the cursor, when there is
    one, and the text from the cursor on. *)
Record cursor : Type := Cursor { prev : option ascii; rest : string }.

(** A successful match: the groups and where it ended. *)
Definition outcome : Type := (list string * cursor)%type.

Definition at_bol (c : cursor) : bool :=
  match prev c with
  | None => true
  | Some p => Ascii.eqb p nl
  end.

Definition at_eol (c : cursor) : bool :=
  match rest c with
  | EmptyString => true
  | String x _ => Ascii.eqb x nl
  end.

Fixpoint lit (l : string) (c : cursor) : option cursor :=
  match l with
  | EmptyString => Some c
  | String x l' =>
      match rest c with
      | String y s' => if Ascii.eqb x y then lit l' (Cursor (Some y) s') else None
      | EmptyString => None
      end
  end.

(** Greedy repetition with backtracking: the longest run first, then one
    character less each time the continuation [k] fails. [acc] is the run
    taken so far. *)
Fixpoint star (cls : ascii -> bool) (k : string -> cursor -> option outcome)
    (acc : string) (p : option ascii) (s : string) : option outcome :=
  match s with
  | String x s' =>
      if cls x then
        match star cls k (String.append acc (String x EmptyString)) (Some x) s' with
        | Some r => Some r
        | None => k acc (Cursor p s)
        end
      else k acc (Cursor p s)
  | EmptyString => k acc (Cursor p s)
  end.

Definition plus (cls : ascii -> bool) (k : string -> cursor -> option outcome)
    (c : cursor) : option outcome :=
  match rest c with
  | String x s' =>
      if cls x then star cls k (String x EmptyString) (Some x) s' else None
  | EmptyString => None
  end.

(** The match of a pattern at the cursor, the way a backtracking matcher
    finds it. *)
Fixpoint match_here (pat : pattern) (c : cursor) : option outcome :=
  match pat with
  | [] => Some ([], c)
  | Lit l :: pat' =>
      match lit l c with
      | Some c' => match_here pat' c'
      | None => None
      end
  | Star cls :: pat' =>
      star cls (fun _ c' => match_here pat' c') EmptyString (prev c) (rest c)
  | Plus cls :: pat' =>
      plus cls (fun _ c' => match_here pat' c') c
  | Group cls :: pat' =>
      plus cls (fun g c' =>
                  match match_here pat' c' with
                  | Some (gs, c'') => Some (g :: gs, c'')
                  | None => None
                  end) c
  | Bol :: pat' => if at_bol c then match_here pat' c else None
  | Eol :: pat' => if at_eol c then match_here pat' c else None
  end.

(** The leftmost match from the cursor on. *)
Fixpoint search_from (pat : pattern) (p : option ascii) (s : string)
    : option outcome :=
  match match_here pat (Cursor p s) with
  | Some r => Some r
  | None =>
      match s with
      | String x s' => search_from pat (Some x) s'
      | EmptyString => None
      end
  end.

(** [re.search(pat, content)]: the groups of the leftmost match. *)
Definition search (pat : pattern) (content : string) : option (list string) :=
  match search_from pat None content with
  | Some (gs, _) => Some gs
  | None => None
  end.

(** [re.findall(pat, content)] for a pattern whose matches are not empty:
    the groups of the successive matches, each search resuming where the
    previous match ended. The fuel bounds the number of matches by the
    length of the text. *)
Fixpoint findall_from (fuel : nat) (pat : pattern) (p : option ascii)
    (s : string) : list (list string) :=
  match fuel with
  | O => []
  | S fuel' =>
      match search_from pat p s with
      | Some (gs, c) => gs :: findall_from fuel' pat (prev c) (rest c)
      | None => []
      end
  end.

Definition findall (pat : pattern) (content : string) : list (list string) :=
  findall_from (S (String.length content)) pat None content.

(** The group with index [i] (from 1) of a match. *)
Definition group (i : nat) (gs : list string) : string :=
  nth (i - 1) gs EmptyString.

End Re.

(* ===================================================================== *)
(** ** Python numbers *)
(* ===================================================================== *)

Module PyNum.
Import PyStr.
Local Open Scope Z_scope.

(** The exact integer or decimal fraction [n] as a binary64 operand. *)
Definition exact (neg : bool) (n : Z) : spec_float :=
  match n with
  | Zpos p => S754_finite neg p 0
  | Zneg p => S754_finite (negb neg) p 0
  | Z0 => S754_zero neg
  end.

(** The binary64 number nearest to [a / b] (ties to even): the value of
    [a / b] on two [int], and of a decimal literal [a / 10^k]. *)
Definition nearest_quotient (neg : bool) (a b : Z) : float :=
  SF2Prim (SFdiv prec emax (exact neg a) (exact false b)).

(** [float(n)] on an [int]. *)
Definition of_int (n : Z) : float :=
  SF2Prim (binary_normalize prec emax n 0 false).

(** [a / b] on two [int], for [b <> 0]. *)
Definition int_truediv (a b : Z) : float := nearest_quotient false a b.

(** [x / n] on a [float] and an [int]. *)
Definition div_int (x : float) (n : Z) : float := PrimFloat.div x (of_int n).

(** [sum(xs)] on a list of [float]: the additions from the left, starting
    from the integer 0.  (From CPython 3.12 on, [sum] compensates the
    rounding errors of the additions and may differ in the last bits.) *)
Definition fsum (xs : list float) : float :=
  fold_left PrimFloat.add xs (of_int 0).

(** The truth value of a [float]: false on [0.0] and [-0.0] only. *)
Definition truthy (x : float) : bool := negb (PrimFloat.eqb x 0%float).

(** *** The white space of [int(s)] and [float(s)] *)

(** What [int] and [float] skip at both ends of an ASCII text: TAB, LF,
    VT, FF, CR and the space.  FS, GS, RS and US, which [str.strip]
    removes, are not skipped: [int("7\x1f")] raises [ValueError]. *)
Definition is_blank (c : ascii) : bool :=
  let n := code c in ((9 <=? n) && (n <=? 13) || (n =? 32))%N.

Fixpoint lstrip_blank (s : string) : string :=
  match s with
  | String c s' => if is_blank c then lstrip_blank s' else s
  | EmptyString => EmptyString
  end.

Fixpoint rstrip_blank (s : string) : string :=
  match s with
  | EmptyString => EmptyString
  | String c s' =>
      match rstrip_blank s' with
      | EmptyString => if is_blank c then EmptyString else String c EmptyString
      | t => String c t
      end
  end.

Definition strip_blank (s : string) : string :=
  rstrip_blank (lstrip_blank s).

(** *** [float(s)] *)

Fixpoint span_digits (s : string) : string * string :=
  match s with
  | String c s' =>
      if is_digit c then
        let '(d, r) := span_digits s' in (String c d, r)
      else (EmptyString, s)
  | EmptyString => (EmptyString, EmptyString)
  end.

Definition digit_val (c : ascii) : Z := Z.of_N (code c) - 48.

Fixpoint digits_val (acc : Z) (s : string) : Z :=
  match s with
  | String c s' => digits_val (10 * acc + digit_val c) s'
  | EmptyString => acc
  end.

(** An unsigned decimal: [digits], [digits.], [digits.digits] or
    [.digits]. *)
Definition unsigned_decimal (neg : bool) (s : string) : option float :=
  let '(ip, r) := span_digits s in
  match r with
  | EmptyString =>
      match ip with
      | EmptyString => None
      | _ => Some (nearest_quotient neg (digits_val 0 ip) 1)
      end
  | String c r' =>
      if Ascii.eqb c "."%char then
        let '(fp, r'') := span_digits r' in
        match r'', String.append ip fp with
        | EmptyString, String _ _ =>
            Some (nearest_quotient neg (digits_val 0 (String.append ip fp))
                    (10 ^ Z.of_nat (String.length fp)))
        | _, _ => None
        end
      else None
  end.

(** [float(s)] on the texts the scripts pass to it, which their patterns
    restrict to digits, the point, the minus sign and white space: [None]
    is the [ValueError] of a text that is not a number.  (Exponents,
    underscores, [inf] and [nan] need characters no pattern lets
    through.)  The white space skipped at both ends is that of
    [is_blank]. *)
Definition py_float (s : string) : option float :=
  match strip_blank s with
  | String c t =>
      if Ascii.eqb c "-"%char then unsigned_decimal true t
      else if Ascii.eqb c "+"%char then unsigned_decimal false t
      else unsigned_decimal false (String c t)
  | EmptyString => None
  end.

(** *** [int(s)] *)

(** Groups of digits separated by single underscores. *)
Fixpoint int_digits (acc : Z) (after_digit : bool) (s : string) : option Z :=
  match s with
  | EmptyString => if after_digit then Some acc else None
  | String c s' =>
      if is_digit c then int_digits (10 * acc + digit_val c) true s'
      else if Ascii.eqb c "_"%char then
        if after_digit then
          match s' with
          | String d _ => if is_digit d then int_digits acc false s' else None
          | EmptyString => None
          end
        else None
      else None
  end.

(** [int(s)] in base 10 on ASCII text: [None] is the [ValueError] of a
    text that is not an integer literal.  The white space skipped at both
    ends is that of [is_blank]; a character above 127 makes the result
    [None], although [int] accepts the digits and the white space of other
    scripts: the statements about a [ValueError] of [int] are about ASCII
    text.  (The limit of 4300 digits recent CPython versions put on the
    text is left out: the only texts the scripts pass to [int] are parts
    of names of directory entries, which are shorter.) *)
Definition py_int (s : string) : option Z :=
  match strip_blank s with
  | String c t =>
      if Ascii.eqb c "-"%char then option_map Z.opp (int_digits 0 false t)
      else if Ascii.eqb c "+"%char then int_digits 0 false t
      else int_digits 0 false (String c t)
  | EmptyString => None
  end.

(** *** [f"{x:.Nf}"] *)

Definition show_nat (n : Z) : string :=
  NilZero.string_of_uint (N.to_uint (Z.to_N n)).

(** The [p] digits of [n < 10^p], zero-padded on the left. *)
Definition show_padded (p : nat) (n : Z) : string :=
  match show_nat (10 ^ Z.of_nat p + n) with
  | String _ t => t
  | EmptyString => EmptyString
  end.

Definition show_sign (neg : bool) : string := if neg then "-" else "".

(** [m * 2^e * 10^p] rounded to the nearest integer, ties to even. *)
Definition scaled_round (p : nat) (m e : Z) : Z :=
  let num := if (0 <=? e)%Z then m * 2 ^ e * 10 ^ Z.of_nat p
             else m * 10 ^ Z.of_nat p in
  let den := if (0 <=? e)%Z then 1 else 2 ^ (- e) in
  let q := num / den in
  let r := num mod den in
  if (den <? 2 * r)%Z then q + 1
  else if (2 * r =? den)%Z then (if Z.odd q then q + 1 else q)
  else q.

Definition show_fixed (p : nat) (neg : bool) (q : Z) : string :=
  let ip := show_nat (q / 10 ^ Z.of_nat p) in
  let fp := match p with
            | O => ""
            | _ => String.append "." (show_padded p (q mod 10 ^ Z.of_nat p))
            end in
  String.append (show_sign neg) (String.append ip fp).

(** [format(x, ".{p}f")]: the exact value of [x] rounded to [p] decimals,
    ties to even. *)
Definition format_fixed (p : nat) (x : float) : string :=
  match Prim2SF x with
  | S754_zero neg => show_fixed p neg 0
  | S754_infinity neg => String.append (show_sign neg) "inf"
  | S754_nan => "nan"
  | S754_finite neg m e => show_fixed p neg (scaled_round p (Zpos m) e)
  end.

End PyNum.

(* ===================================================================== *)
(** ** Exceptions *)
(* ===================================================================== *)

Inductive exn : Type := ValueError.

(** The outcome of a computation that may raise. *)
Inductive result (A : Type) : Type :=
| Ok (a : A)
| Raise (e : exn).

Arguments Ok {A} a.
Arguments Raise {A} e.

Definition rbind {A B : Type} (m : result A) (k : A -> result B) : result B :=
  match m with
  | Ok a => k a
  | Raise e => Raise e
  end.

Notation "x <~ m ;; k" := (rbind m (fun x => k))
  (at level 100, m at next level, right associativity).

(** A call that raises [ValueError] where the partial function is undefined. *)
Definition or_value_error {A : Type} (o : option A) : result A :=
  match o with
  | Some a => Ok a
  | None => Raise ValueError
  end.

(** A comprehension [[f(x) for x in l]] whose body may raise. *)
Fixpoint rmap {A B : Type} (f : A -> result B) (l : list A) : result (list B) :=
  match l with
  | [] => Ok []
  | x :: l' => y <~ f x ;; ys <~ rmap f l' ;; Ok (y :: ys)
  end.

(** [sorted(l)] by a strict order, the way a stable sort places equal
    elements: in the order of the input. *)
Fixpoint insert_by {A : Type} (lt : A -> A -> bool) (x : A) (l : list A) : list A :=
  match l with
  | [] => [x]
  | y :: l' => if lt y x then y :: insert_by lt x l' else x :: l
  end.

Definition py_sorted {A : Type} (lt : A -> A -> bool) (l : list A) : list A :=
  foldr (insert_by lt) [] l.

(* ===================================================================== *)
(** ** compile_results.py *)
(* ===================================================================== *)

Module CompileResults.
Import PyStr PyNum Re.

(** *** Character classes and patterns *)

Definition is_char (x : ascii) (c : ascii) : bool := Ascii.eqb c x.

(** [.] *)
Definition dot (c : ascii) : bool := negb (Ascii.eqb c nl).

(** [[\d.]] *)
Definition digit_or_point (c : ascii) : bool := is_digit c || is_char "." c.

(** [[-\d.,\s]] *)
Definition bound_list_char (c : ascii) : bool :=
  is_char "-" c || is_digit c || is_char "." c || is_char "," c || is_space c.

(** [[-\d.]] *)
Definition bound_char (c : ascii) : bool :=
  is_char "-" c || is_digit c || is_char "." c.

(** [^c args:\s+(.+)$] *)
Definition args_re : pattern :=
  [Bol; Lit "c args:"; Plus is_space; Group dot; Eol].

(** [^Result:\s*(\w+)] *)
Definition result_re : pattern :=
  [Bol; Lit "Result:"; Star is_space; Group is_word].

(** [^Time:\s*([\d.]+)] *)
Definition time_re : pattern :=
  [Bol; Lit "Time:"; Star is_space; Group digit_or_point].

(** [<label>\s*\[([-\d.,\s]+)\]] *)
Definition bounds_re (label : string) : pattern :=
  [Lit label; Star is_space; Lit "["; Group bound_list_char; Lit "]"].

(** [^Property status:\s*(\w+)] *)
Definition property_status_re : pattern :=
  [Bol; Lit "Property status:"; Star is_space; Group is_word].

(** [^Output Bounds:\s*\n(.+)] *)
Definition output_bounds_re : pattern :=
  [Bol; Lit "Output Bounds:"; Star is_space; Lit (String nl EmptyString);
   Group dot].

(** [\[([-\d.]+),\s*([-\d.]+)\]] *)
Definition pair_re : pattern :=
  [Lit "["; Group bound_char; Lit ","; Star is_space; Group bound_char;
   Lit "]"].

(** [\[runlim\]\s*real:\s*([\d.]+)\s*seconds] *)
Definition runlim_real_re : pattern :=
  [Lit "[runlim]"; Star is_space; Lit "real:"; Star is_space;
   Group digit_or_point; Star is_space; Lit "seconds"].

(** [\[runlim\]\s*status:\s*(.+)] *)
Definition runlim_status_re : pattern :=
  [Lit "[runlim]"; Star is_space; Lit "status:"; Star is_space; Group dot].

(** *** Log files *)

(** A file that exists: [open] and [read] either raise, or give the text. *)
Inductive file : Type :=
| Unreadable
| Readable (content : string).

(** The dict a [run.out] parser returns. *)
Record run_data : Type := RunData {
  rd_lower_bounds : option (list float);
  rd_upper_bounds : option (list float);
  rd_status : option string;
  rd_time : option float;
  rd_onnx_file : option string;
  rd_vnnlib_file : option string;
}.

Definition empty_run_data : run_data := RunData None None None None None None.

(** The dict [parse_output_log] returns. *)
Record log_data : Type := LogData {
  ld_wall_time : option float;
  ld_timed_out : bool;
}.

Definition empty_log_data : log_data := LogData None false.

Definition parse_args_line (content : string) : option string * option string :=
  match search args_re content with
  | Some gs =>
      let args := split_ws (strip (group 1 gs)) in
      fold_left
        (fun '(onnx_file, vnnlib_file) arg =>
           if endswith ".onnx" arg then (Some (path_name arg), vnnlib_file)
           else if endswith ".vnnlib" arg then (onnx_file, Some (path_name arg))
           else (onnx_file, vnnlib_file))
        args (None, None)
  | None => (None, None)
  end.

(** The status of [parse_abcrown_run_out]. *)
Definition abcrown_status (content : string) : option string :=
  match search result_re content with
  | Some gs =>
      let status := lower (group 1 gs) in
      if String.eqb status "unsat" then Some "verified" else Some status
  | None => None
  end.

(** [[float(x.strip()) for x in text.split(",")]] under
    [try ... except ValueError: pass]. *)
Definition float_list (text : string) : option (list float) :=
  mapM (fun x => py_float (strip x)) (split_on "," text).

(** The bounds of one side: the alpha-crown line, or else the CROWN line. *)
Definition abcrown_bounds (side content : string) : option (list float) :=
  let m := match search (bounds_re (String.append "initial alpha-crown "
                                      (String.append side " bounds:"))) content with
           | Some gs => Some gs
           | None => search (bounds_re (String.append "initial CROWN "
                                          (String.append side " bounds:"))) content
           end in
  match m with
  | Some gs => float_list (group 1 gs)
  | None => None
  end.

Definition parse_abcrown_run_out (f : file) : result run_data :=
  match f with
  | Unreadable => Ok empty_run_data
  | Readable content =>
      let '(onnx_file, vnnlib_file) := parse_args_line content in
      let status := abcrown_status content in
      time <~ match search time_re content with
              | Some gs => t <~ or_value_error (py_float (group 1 gs)) ;; Ok (Some t)
              | None => Ok None
              end ;;
      Ok (RunData (abcrown_bounds "lower" content)
                  (abcrown_bounds "upper" content)
                  status time onnx_file vnnlib_file)
  end.

(** The status of [parse_luna_run_out]. *)
Definition luna_status (content : string) : option string :=
  let status :=
    match search result_re content with
    | Some gs =>
        let status := lower (group 1 gs) in
        if String.eqb status "unsat" || String.eqb status "sat"
        then Some "verified" else Some "unknown"
    | None => None
    end in
  match status with
  | Some s => Some s
  | None =>
      match search property_status_re content with
      | Some gs =>
          let status := upper (group 1 gs) in
          if String.eqb status "VERIFIED" || String.eqb status "VIOLATED"
          then Some "verified" else Some "unknown"
      | None => None
      end
  end.

(** The two bound lists of [parse_luna_run_out]; [float] is not guarded
    there. *)
Definition luna_bounds (content : string)
    : result (option (list float) * option (list float)) :=
  match search output_bounds_re content with
  | Some gs =>
      let bounds_line := strip (group 1 gs) in
      let pairs := findall pair_re bounds_line in
      match pairs with
      | [] => Ok (None, None)
      | _ :: _ =>
          lo <~ rmap (fun p => or_value_error (py_float (group 1 p))) pairs ;;
          up <~ rmap (fun p => or_value_error (py_float (group 2 p))) pairs ;;
          Ok (Some lo, Some up)
      end
  | None => Ok (None, None)
  end.

Definition parse_luna_run_out (f : file) : result run_data :=
  match f with
  | Unreadable => Ok empty_run_data
  | Readable content =>
      let '(onnx_file, vnnlib_file) := parse_args_line content in
      let status := luna_status content in
      b <~ luna_bounds content ;;
      Ok (RunData (fst b) (snd b) status None onnx_file vnnlib_file)
  end.

Definition parse_output_log (f : file) : result log_data :=
  match f with
  | Unreadable => Ok empty_log_data
  | Readable content =>
      wall_time <~ match search runlim_real_re content with
                   | Some gs =>
                       t <~ or_value_error (py_float (group 1 gs)) ;; Ok (Some t)
                   | None => Ok None
                   end ;;
      let timed_out :=
        match search runlim_status_re content with
        | Some gs =>
            let status := lower (strip (group 1 gs)) in
            String.eqb status "out of time"
        | None => false
        end in
      Ok (LogData wall_time timed_out)
  end.

(** *** Bound width *)

(** [o is not None]. *)
Definition not_none {A : Type} (o : option A) : bool :=
  match o with
  | Some _ => true
  | None => false
  end.

(** The truth value of an optional list: false on [None] and on [[]]. *)
Definition nonempty {A : Type} (o : option (list A)) : bool :=
  match o with
  | Some (_ :: _) => true
  | _ => false
  end.

Definition compute_bound_width (lower_bounds upper_bounds : option (list float))
    : option float :=
  if negb (nonempty lower_bounds) || negb (nonempty upper_bounds) then None
  else
    let lo := default [] lower_bounds in
    let up := default [] upper_bounds in
    if negb (length lo =? length up)%nat then None
    else
      let widths := map (fun '(l, u) => PrimFloat.sub u l) (combine lo up) in
      Some (div_int (fsum widths) (Z.of_nat (length widths))).

(** *** The collector *)

(** One job: the dict [collect_results_for_tool] appends. *)
Record record : Type := Record_ {
  tool : string;
  benchmark : string;
  slurm_id : string;
  onnx_file : option string;
  vnnlib_file : option string;
  status : option string;
  wall_time : option float;
  timed_out : bool;
  has_result : bool;
  bound_width : option float;
  lower_bounds : option (list float);
  upper_bounds : option (list float);
}.

(** The key [(r["benchmark"], r["slurm_id"])]. *)
Definition key (r : record) : string * string := (benchmark r, slurm_id r).

(** An entry of a benchmark directory, with the two log files of a job
    directory when they exist. *)
Record slurm_dir : Type := SlurmDir {
  sd_name : string;
  sd_is_dir : bool;
  sd_run_out : option file;
  sd_output_log : option file;
}.

(** An entry of the tool directory, with its own entries in the order
    [iterdir] lists them. *)
Record benchmark_dir : Type := BenchmarkDir {
  bd_name : string;
  bd_is_dir : bool;
  bd_entries : list slurm_dir;
}.

(** [name.split("-")[1]], defined on a name that starts with [slurm-]. *)
Definition second_component (name : string) : string :=
  nth 1 (split_on "-" name) EmptyString.

(** The sort key of an entry of a benchmark directory. *)
Definition slurm_key (x : slurm_dir) : result Z :=
  if startswith "slurm-" (sd_name x)
  then or_value_error (py_int (second_component (sd_name x)))
  else Ok 0%Z.

(** [sorted(l, key=key)]: the keys of all elements are computed first. *)
Definition sorted_by_key {A : Type} (key : A -> result Z) (l : list A)
    : result (list A) :=
  ks <~ rmap key l ;;
  Ok (map snd (py_sorted (fun a b => (fst a <? fst b)%Z) (combine ks l))).

(** The body of the loop over the entries of a benchmark directory: the
    records it appends (none or one). *)
Definition collect_job (tool_name benchmark_name : string) (d : slurm_dir)
    : result (list record) :=
  if negb (sd_is_dir d) then Ok []
  else if negb (startswith "slurm-" (sd_name d)) then Ok []
  else
    let slurm_id := second_component (sd_name d) in
    match sd_run_out d with
    | None => Ok []
    | Some run_out =>
        log_data <~ match sd_output_log d with
                    | Some output_log => parse_output_log output_log
                    | None => Ok empty_log_data
                    end ;;
        data <~ (if String.eqb tool_name "abcrown"
                 then parse_abcrown_run_out run_out
                 else parse_luna_run_out run_out) ;;
        let bound_width :=
          compute_bound_width (rd_lower_bounds data) (rd_upper_bounds data) in
        let has_bounds :=
          not_none (rd_lower_bounds data) && not_none (rd_upper_bounds data) in
        let has_result := ld_timed_out log_data || has_bounds in
        Ok [ {| tool := tool_name;
                benchmark := benchmark_name;
                slurm_id := slurm_id;
                onnx_file := rd_onnx_file data;
                vnnlib_file := rd_vnnlib_file data;
                status := rd_status data;
                wall_time := ld_wall_time log_data;
                timed_out := ld_timed_out log_data;
                has_result := has_result;
                bound_width := bound_width;
                lower_bounds := rd_lower_bounds data;
                upper_bounds := rd_upper_bounds data |} ]
    end.

(** A loop that extends [results] with what each step appends. *)
Fixpoint collect_each {A : Type} (step : A -> result (list record)) (l : list A)
    : result (list record) :=
  match l with
  | [] => Ok []
  | x :: l' => rs <~ step x ;; rs' <~ collect_each step l' ;; Ok (rs ++ rs')
  end.

(** The body of the loop over the entries of the tool directory. *)
Definition collect_benchmark (tool_name : string) (b : benchmark_dir)
    : result (list record) :=
  if negb (bd_is_dir b) then Ok []
  else if String.eqb (bd_name b) "options" then Ok []
  else
    jobs <~ sorted_by_key slurm_key (bd_entries b) ;;
    collect_each (collect_job tool_name (bd_name b)) jobs.

(** [tool_path] is [None] when the directory does not exist, and else its
    entries in the order [iterdir] lists them. *)
Definition collect_results_for_tool (tool_name : string)
    (tool_path : option (list benchmark_dir)) : result (list record) :=
  match tool_path with
  | None => Ok []
  | Some entries =>
      collect_each (collect_benchmark tool_name)
        (py_sorted (fun a b => str_lt (bd_name a) (bd_name b)) entries)
  end.

(** *** The per-instance table *)

Definition instance_fieldnames : list string :=
  ["tool"; "benchmark"; "slurm_id"; "onnx_file"; "vnnlib_file";
   "status"; "timed_out"; "wall_time"; "bound_width";
   "lower_bounds"; "upper_bounds"].

(** A row of the table: the text of each column. *)
Record instance_row : Type := InstanceRow {
  col_tool : string;
  col_benchmark : string;
  col_slurm_id : string;
  col_onnx_file : string;
  col_vnnlib_file : string;
  col_status : string;
  col_timed_out : string;
  col_wall_time : string;
  col_bound_width : string;
  col_lower_bounds : string;
  col_upper_bounds : string;
}.

(** The cells of a row in the order of [instance_fieldnames]. *)
Definition cells (row : instance_row) : list string :=
  [col_tool row; col_benchmark row; col_slurm_id row; col_onnx_file row;
   col_vnnlib_file row; col_status row; col_timed_out row; col_wall_time row;
   col_bound_width row; col_lower_bounds row; col_upper_bounds row].

(** [o or ""] on an optional text. *)
Definition text_or_empty (o : option string) : string :=
  match o with
  | Some (String c s) => String c s
  | _ => ""
  end.

Section InstanceTable.
(** [str] on a list of floats (the [repr] of each element between
    brackets): a built-in of the language. *)
Variable str_of_floats : list float -> string.

(** The dict [write_instance_csv] builds for one record. *)
Definition instance_row_of (r : record) : instance_row :=
  {| col_tool := tool r;
     col_benchmark := benchmark r;
     col_slurm_id := slurm_id r;
     col_onnx_file := text_or_empty (onnx_file r);
     col_vnnlib_file := text_or_empty (vnnlib_file r);
     col_status := text_or_empty (status r);
     col_timed_out := if timed_out r then "TO" else "";
     col_wall_time :=
       match wall_time r with
       | Some t => if truthy t then format_fixed 4 t else ""
       | None => ""
       end;
     col_bound_width :=
       match bound_width r with
       | Some w => format_fixed 6 w
       | None => "--"
       end;
     col_lower_bounds :=
       if nonempty (lower_bounds r)
       then str_of_floats (default [] (lower_bounds r)) else "--";
     col_upper_bounds :=
       if nonempty (upper_bounds r)
       then str_of_floats (default [] (upper_bounds r)) else "--" |}.

(** The rows [write_instance_csv] writes after the header. *)
Definition write_instance_csv (results : list record) : list instance_row :=
  map instance_row_of results.
End InstanceTable.

(** *** Aggregates *)

Record aggregate : Type := Aggregate {
  agg_benchmark : string;
  total_instances : nat;
  solved_count : nat;
  solved_pct : float;
  timeout_count : nat;
  timeout_pct : float;
  verified_count : nat;
  verified_pct : float;
  avg_bound_width : option float;
  avg_lower_bound : option float;
  avg_upper_bound : option float;
  avg_runtime : option float;
}.

(** [sum(1 for i in l if p(i))]. *)
Definition count (p : record -> bool) (l : list record) : nat :=
  length (List.filter p l).

(** [(n / total * 100) if total > 0 else 0]. *)
Definition pct (n total : nat) : float :=
  if (0 <? total)%nat
  then PrimFloat.mul (int_truediv (Z.of_nat n) (Z.of_nat total)) (of_int 100)
  else of_int 0.

(** [sum(xs) / len(xs) if xs else None]. *)
Definition mean (xs : list float) : option float :=
  match xs with
  | [] => None
  | _ :: _ => Some (div_int (fsum xs) (Z.of_nat (length xs)))
  end.

(** [by_benchmark[r["benchmark"]].append(r)] for each record. *)
Definition group_by_benchmark (results : list record) : gmap string (list record) :=
  fold_left
    (fun by_benchmark r =>
       <[benchmark r := default [] (by_benchmark !! benchmark r) ++ [r]]> by_benchmark)
    results ∅.

Definition is_some_width (i : record) : bool := not_none (bound_width i).

(** The aggregate of the instances of one benchmark. *)
Definition aggregate_of
    (common_bounds_instances common_finished_instances : option (gset (string * string)))
    (name : string) (instances : list record) : aggregate :=
  let total := length instances in
  let solved := count is_some_width instances in
  let timeout := count (fun i => negb (not_none (bound_width i))) instances in
  let verified :=
    count (fun i => bool_decide (status i = Some "verified")) instances in
  let common_bounds :=
    match common_bounds_instances with
    | Some cb => List.filter (fun i => bool_decide (key i ∈ cb)) instances
    | None =>
        List.filter (fun i => not_none (bound_width i) && negb (timed_out i))
          instances
    end in
  let widths := omap bound_width common_bounds in
  let avg_width := mean widths in
  let lower_means :=
    omap (fun i => if nonempty (lower_bounds i)
                   then mean (default [] (lower_bounds i)) else None)
      common_bounds in
  let avg_lower := mean lower_means in
  let upper_means :=
    omap (fun i => if nonempty (upper_bounds i)
                   then mean (default [] (upper_bounds i)) else None)
      common_bounds in
  let avg_upper := mean upper_means in
  let common_finished :=
    match common_finished_instances with
    | Some cf => List.filter (fun i => bool_decide (key i ∈ cf)) instances
    | None => List.filter (fun i => not_none (wall_time i)) instances
    end in
  let times := omap wall_time common_finished in
  let avg_time := mean times in
  {| agg_benchmark := name;
     total_instances := total;
     solved_count := solved;
     solved_pct := pct solved total;
     timeout_count := timeout;
     timeout_pct := pct timeout total;
     verified_count := verified;
     verified_pct := pct verified total;
     avg_bound_width := avg_width;
     avg_lower_bound := avg_lower;
     avg_upper_bound := avg_upper;
     avg_runtime := avg_time |}.

(** One aggregate per benchmark, in the order of the benchmark names. *)
Definition compute_aggregates (results : list record)
    (common_bounds_instances common_finished_instances : option (gset (string * string)))
    : list aggregate :=
  let by_benchmark := group_by_benchmark results in
  map (fun '(name, instances) =>
         aggregate_of common_bounds_instances common_finished_instances
           name instances)
    (py_sorted (fun a b => str_lt (fst a) (fst b)) (map_to_list by_benchmark)).

(** *** The aggregate table *)

Record aggregate_row : Type := AggregateRow {
  acol_benchmark : string;
  acol_total_instances : string;
  acol_solved_count : string;
  acol_solved_pct : string;
  acol_timeout_count : string;
  acol_timeout_pct : string;
  acol_verified_count : string;
  acol_verified_pct : string;
  acol_avg_bound_width : string;
  acol_avg_lower_bound : string;
  acol_avg_upper_bound : string;
  acol_avg_runtime : string;
}.

(** [f"{x:.{p}f}" if x is not None else "--"]. *)
Definition fixed_or_dashes (p : nat) (x : option float) : string :=
  match x with
  | Some v => format_fixed p v
  | None => "--"
  end.

(** The dict [write_aggregate_csv] builds for one aggregate. *)
Definition aggregate_row_of (a : aggregate) : aggregate_row :=
  {| acol_benchmark := agg_benchmark a;
     acol_total_instances := show_nat (Z.of_nat (total_instances a));
     acol_solved_count := show_nat (Z.of_nat (solved_count a));
     acol_solved_pct := format_fixed 2 (solved_pct a);
     acol_timeout_count := show_nat (Z.of_nat (timeout_count a));
     acol_timeout_pct := format_fixed 2 (timeout_pct a);
     acol_verified_count := show_nat (Z.of_nat (verified_count a));
     acol_verified_pct := format_fixed 2 (verified_pct a);
     acol_avg_bound_width := fixed_or_dashes 6 (avg_bound_width a);
     acol_avg_lower_bound := fixed_or_dashes 6 (avg_lower_bound a);
     acol_avg_upper_bound := fixed_or_dashes 6 (avg_upper_bound a);
     acol_avg_runtime := fixed_or_dashes 4 (avg_runtime a) |}.

(** The rows [write_aggregate_csv] writes after the header. *)
Definition write_aggregate_csv (aggregates : list aggregate) : list aggregate_row :=
  map aggregate_row_of aggregates.

(** *** Common instances *)

(** [{(r["benchmark"], r["slurm_id"]) for r in results if p(r)}]. *)
Definition keys_where (p : record -> bool) (results : list record)
    : gset (string * string) :=
  list_to_set (map key (List.filter p results)).

Definition filter_common_instances (abcrown_results luna_results : list record)
    : list record * list record :=
  let abcrown_valid := keys_where has_result abcrown_results in
  let luna_valid := keys_where has_result luna_results in
  let common := abcrown_valid ∩ luna_valid in
  let abcrown_filtered :=
    List.filter (fun r => bool_decide (key r ∈ common)) abcrown_results in
  let luna_filtered :=
    List.filter (fun r => bool_decide (key r ∈ common)) luna_results in
  (abcrown_filtered, luna_filtered).

Definition get_common_bounds_instances (abcrown_results luna_results : list record)
    : gset (string * string) :=
  let abcrown_with_bounds := keys_where is_some_width abcrown_results in
  let luna_with_bounds := keys_where is_some_width luna_results in
  let common := abcrown_with_bounds ∩ luna_with_bounds in
  common.

Definition get_common_finished_instances (abcrown_results luna_results : list record)
    : gset (string * string) :=
  let abcrown_solved := keys_where is_some_width abcrown_results in
  let luna_solved := keys_where is_some_width luna_results in
  let common := abcrown_solved ∩ luna_solved in
  common.

(** *** The whole run *)

(** What [main] writes for one tool: the rows of its instance table and
    of its aggregate table. *)
Record tool_output : Type := ToolOutput {
  out_tool : string;
  out_instances : list instance_row;
  out_aggregates : list aggregate_row;
}.

(** [main] on the two result directories: the tables it writes, for the
    tools whose filtered list is not empty. *)
Definition main (str_of_floats : list float -> string)
    (luna_results_dir abcrown_results_dir : option (list benchmark_dir))
    : result (list tool_output) :=
  abcrown_results <~ collect_results_for_tool "abcrown" abcrown_results_dir ;;
  luna_results <~ collect_results_for_tool "luna" luna_results_dir ;;
  let '(abcrown_filtered, luna_filtered) :=
    filter_common_instances abcrown_results luna_results in
  let common_bounds := get_common_bounds_instances abcrown_filtered luna_filtered in
  let common_finished :=
    get_common_finished_instances abcrown_filtered luna_filtered in
  Ok (flat_map
        (fun '(tool_name, results) =>
           match results with
           | [] => []
           | _ :: _ =>
               [ToolOutput tool_name
                  (write_instance_csv str_of_floats results)
                  (write_aggregate_csv
                     (compute_aggregates results (Some common_bounds)
                        (Some common_finished)))]
           end)
        [("abcrown", abcrown_filtered); ("luna", luna_filtered)]).

End CompileResults.

(* ===================================================================== *)
(** ** create_exact_results.py *)
(* ===================================================================== *)

Module CreateExactResults.
Import PyStr.
Import CompileResults.

(** The value [parse_instances] keeps for a key. *)
Record instance : Type := Instance {
  i_bound_width : string;
  i_wall_time : string;
  i_status : string;
  i_timed_out : string;
}.

(** [parse_instances] on the rows the CSV reader yields: a later row
    replaces an earlier one with the same key. *)
Definition parse_instances (rows : list instance_row)
    : gmap (string * string * string) instance :=
  fold_left
    (fun instances row =>
       let key := (col_benchmark row, col_onnx_file row, col_vnnlib_file row) in
       <[key := {| i_bound_width := col_bound_width row;
                   i_wall_time := col_wall_time row;
                   i_status := col_status row;
                   i_timed_out := col_timed_out row |}]> instances)
    rows ∅.

(** A row of a per-benchmark table. *)
Record joined_row : Type := JoinedRow {
  j_onnx_file : string;
  j_vnnlib_file : string;
  abcrown_bound_width : string;
  luna_bound_width : string;
  abcrown_runtime : string;
  luna_runtime : string;
}.

(** [<] on two pairs of [str]. *)
Definition pair_lt (a b : string * string) : bool :=
  str_lt (fst a) (fst b) || String.eqb (fst a) (fst b) && str_lt (snd a) (snd b).

(** The set of [key[0]] over the keys of the two dicts. *)
Definition benchmarks_of (abcrown_instances luna_instances
    : gmap (string * string * string) instance) : gset string :=
  set_map (fun k : string * string * string => k.1.1) (dom abcrown_instances)
  ∪ set_map (fun k : string * string * string => k.1.1) (dom luna_instances).

(** The set of [(key[1], key[2])] over the keys of a dict whose [key[0]]
    is the benchmark. *)
Definition keys_of_benchmark (benchmark : string)
    (instances : gmap (string * string * string) instance) : gset (string * string) :=
  set_map (fun k : string * string * string => (k.1.2, k.2))
    (filter (fun k : string * string * string => k.1.1 = benchmark) (dom instances)).

Definition instance_keys_of (benchmark : string)
    (abcrown_instances luna_instances : gmap (string * string * string) instance)
    : gset (string * string) :=
  keys_of_benchmark benchmark abcrown_instances
  ∪ keys_of_benchmark benchmark luna_instances.

(** [data.get(field, "")] where [data] is [instances.get(key, {})]. *)
Definition get_field (field : instance -> string)
    (instances : gmap (string * string * string) instance)
    (key : string * string * string) : string :=
  match instances !! key with
  | Some data => field data
  | None => ""
  end.

(** The rows of the table of one benchmark. *)
Definition benchmark_data (benchmark : string)
    (abcrown_instances luna_instances : gmap (string * string * string) instance)
    : list joined_row :=
  map (fun '(onnx_file, vnnlib_file) =>
         let key := (benchmark, onnx_file, vnnlib_file) in
         {| j_onnx_file := onnx_file;
            j_vnnlib_file := vnnlib_file;
            abcrown_bound_width := get_field i_bound_width abcrown_instances key;
            luna_bound_width := get_field i_bound_width luna_instances key;
            abcrown_runtime := get_field i_wall_time abcrown_instances key;
            luna_runtime := get_field i_wall_time luna_instances key |})
    (py_sorted pair_lt
       (elements (instance_keys_of benchmark abcrown_instances luna_instances))).

(** [main] from the two parsed dicts on: the tables it writes, one per
    benchmark, in the order of the benchmark names. *)
Definition main (abcrown_instances luna_instances
    : gmap (string * string * string) instance)
    : list (string * list joined_row) :=
  map (fun benchmark =>
         (benchmark, benchmark_data benchmark abcrown_instances luna_instances))
    (py_sorted str_lt (elements (benchmarks_of abcrown_instances luna_instances))).

End CreateExactResults.

(* ===================================================================== *)
(** ** Specification-side definitions and sample inputs *)
(* ===================================================================== *)

Module Spec.
Import PyStr PyNum CompileResults.

(** The width of the interval with index [i]. *)
Definition width_at (lo up : list float) (i : nat) : float :=
  PrimFloat.sub (nth i up 0%float) (nth i lo 0%float).

(** The mean over all indices of [up[i] - lo[i]]. *)
Definition mean_width (lo up : list float) : float :=
  div_int (fsum (map (width_at lo up) (seq 0 (length lo))))
    (Z.of_nat (length lo)).

(** The set of the keys of a list of records. *)
Definition key_set (rs : list record) : gset (string * string) :=
  list_to_set (map key rs).

(** What every record of the collector satisfies. *)
Record collected (tool_name : string) (r : record) : Prop := {
  col_tool_name : tool r = tool_name;
  col_width :
    bound_width r = compute_bound_width (lower_bounds r) (upper_bounds r);
  col_has_result :
    has_result r
    = timed_out r || not_none (lower_bounds r) && not_none (upper_bounds r);
  col_lower_not_empty : lower_bounds r <> Some [];
  col_upper_not_empty : upper_bounds r <> Some [];
}.

(** The two bound lists of a luna record come from the same pairs. *)
Definition paired (r : record) : Prop :=
  (lower_bounds r = None /\ upper_bounds r = None)
  \/ exists lo up, lower_bounds r = Some lo /\ upper_bounds r = Some up
                   /\ length lo = length up.

(** The records of one benchmark, in the order of the list. *)
Definition of_benchmark (name : string) (results : list record) : list record :=
  List.filter (fun r => String.eqb (benchmark r) name) results.

(** [100 * n / total] as an exact rational. *)
Definition exact_pct (n total : nat) : Q :=
  (inject_Z (Z.of_nat n) / inject_Z (Z.of_nat total) * 100)%Q.

End Spec.

(** The values of binary64 numbers, for the statements about rounding. *)
Module FloatSpec.
Local Open Scope Z_scope.

(** The outcome of a rounding that neither overflows nor is undefined: zero
  when the mantissa is zero, a finite number otherwise. *)
Definition finite_or_zero (sx : bool) (m e : Z) : spec_float :=
match m with
| Zpos p => S754_finite sx p e
| _ => S754_zero sx
end.

(** A binary64 number that is zero or positive, in units of [2^-1200]. *)
Definition sf_units (x : spec_float) : option Z :=
match x with
| S754_zero _ => Some 0
| S754_finite false m e => Some (Zpos m * 2 ^ (e + 1200))
| _ => None
end.

(** The rational a finite binary64 number stands for. *)
Definition sf_value (x : spec_float) : option Q :=
match x with
| S754_zero _ => Some 0%Q
| S754_finite neg m e =>
    let v := if 0 <=? e then inject_Z (Zpos m * 2 ^ e)
             else Zpos m # Z.to_pos (2 ^ (- e)) in
    Some (if neg then (- v)%Q else v)
| _ => None
end.

Definition float_value (x : float) : option Q := sf_value (Prim2SF x).

End FloatSpec.

Module Samples.
Import PyStr PyNum CompileResults.

Definition line (s : string) : string := String.append s (String nl EmptyString).

(** An abcrown log with two lower bounds and two upper bounds. *)
Definition abcrown_log : string :=
  String.append (line "c args: --onnx nets/a.onnx --vnnlib props/p.vnnlib")
 (String.append (line "Result: unsat")
 (String.append (line "initial alpha-crown lower bounds: [0.1, 0.2]")
                (line "initial alpha-crown upper bounds: [0.3, 0.5]"))).

(** An abcrown log with two lower bounds and one upper bound. *)
Definition mismatched_log : string :=
  String.append (line "Result: unknown")
 (String.append (line "initial alpha-crown lower bounds: [0.1, 0.2]")
                (line "initial alpha-crown upper bounds: [0.3]")).

(** A luna log in the legacy format. *)
Definition legacy_log : string :=
  String.append (line "Property status: Violated")
 (String.append (line "Output Bounds:")
                (line "[0.05, 0.35] [0.15, 0.55]")).

Definition job (name : string) (log : string) : slurm_dir :=
  SlurmDir name true (Some (Readable log)) None.

Definition tree_of (jobs : list slurm_dir) : option (list benchmark_dir) :=
  Some [BenchmarkDir "B1" true jobs].

(** A luna log in the current format, in capitals. *)
Definition luna_log : string :=
  String.append (line "Result: SAT")
 (String.append (line "Output Bounds:")
                (line "[0.05, 0.35] [0.15, 0.55]")).

Definition luna_tree : option (list benchmark_dir) :=
  tree_of [job "slurm-1" luna_log].

(** The record the collector makes of [luna_tree]. *)
Definition luna_record : record :=
  {| tool := "luna"; benchmark := "B1"; slurm_id := "1";
     onnx_file := None; vnnlib_file := None; status := Some "verified";
     wall_time := None; timed_out := false; has_result := true;
     bound_width := Some 0.35%float;
     lower_bounds := Some [0.05; 0.15]%float;
     upper_bounds := Some [0.35; 0.55]%float |}.

(** A benchmark directory with a job directory whose id is not a number,
    after one that is in order. *)
Definition bad_tree : option (list benchmark_dir) :=
  tree_of [job "slurm-1" abcrown_log; SlurmDir "slurm-old" true None None].

Definition good_tree : option (list benchmark_dir) :=
  tree_of [job "slurm-1" abcrown_log].

Definition mismatched_tree : option (list benchmark_dir) :=
  tree_of [job "slurm-1" mismatched_log].

(** The record the collector makes of [mismatched_tree]. *)
Definition mismatched_record : record :=
  {| tool := "abcrown"; benchmark := "B1"; slurm_id := "1";
     onnx_file := None; vnnlib_file := None; status := Some "unknown";
     wall_time := None; timed_out := false; has_result := true;
     bound_width := None;
     lower_bounds := Some [0.1; 0.2]%float;
     upper_bounds := Some [0.3]%float |}.

(** The record the collector makes of [good_tree]. *)
Definition good_record : record :=
  {| tool := "abcrown"; benchmark := "B1"; slurm_id := "1";
     onnx_file := Some "a.onnx"; vnnlib_file := Some "p.vnnlib";
     status := Some "verified";
     wall_time := None; timed_out := false; has_result := true;
     bound_width := Some 0.25%float;
     lower_bounds := Some [0.1; 0.2]%float;
     upper_bounds := Some [0.3; 0.5]%float |}.

End Samples.

Module AggregateSamples.
Import PyStr PyNum CompileResults Samples.

(** A job that timed out before it had bounds. *)
Definition timed_out_record (id : string) : record :=
  {| tool := "abcrown"; benchmark := "B1"; slurm_id := id;
     onnx_file := None; vnnlib_file := None; status := Some "timeout";
     wall_time := Some 30%float; timed_out := true; has_result := true;
     bound_width := None; lower_bounds := None; upper_bounds := None |}.

(** One benchmark with one solved job and two that timed out. *)
Definition three_jobs : list record :=
  [good_record; timed_out_record "2"; timed_out_record "3"].

(** The row of [three_jobs]. *)
Definition three_jobs_row : aggregate :=
  {| agg_benchmark := "B1"; total_instances := 3;
     solved_count := 1; solved_pct := 33.333333333333329%float;
     timeout_count := 2; timeout_pct := 66.666666666666657%float;
     verified_count := 1; verified_pct := 33.333333333333329%float;
     avg_bound_width := Some 0.25%float;
     avg_lower_bound := Some 0.15000000000000002%float;
     avg_upper_bound := Some 0.40000000000000002%float;
     avg_runtime := None |}.

(** The sum of the two percentages of [s] solved jobs out of [t] is
    within one unit in the last place of 100. *)
Definition pct_sum_close (t s : nat) : bool :=
  PrimFloat.leb
    (PrimFloat.abs
       (PrimFloat.sub (PrimFloat.add (pct s t) (pct (t - s) t)) 100%float))
    0x1p-46%float.

Definition pct_sum_close_upto (n : nat) : bool :=
  forallb (fun t => forallb (pct_sum_close t) (seq 0 (S t))) (seq 1 n).

End AggregateSamples.

Module TableSamples.
Import PyStr PyNum CompileResults.

(** A job that ran for no measurable time and whose bounds coincide. *)
Definition zero_record : record :=
  {| tool := "luna"; benchmark := "B1"; slurm_id := "7";
     onnx_file := Some "a.onnx"; vnnlib_file := None; status := Some "verified";
     wall_time := Some 0%float; timed_out := false; has_result := true;
     bound_width := Some 0%float;
     lower_bounds := Some [0.5]%float; upper_bounds := Some [0.5]%float |}.

(** A job of which nothing was parsed. *)
Definition blank_record : record :=
  {| tool := "luna"; benchmark := "B1"; slurm_id := "8";
     onnx_file := None; vnnlib_file := None; status := None;
     wall_time := None; timed_out := true; has_result := true;
     bound_width := None; lower_bounds := None; upper_bounds := None |}.

End TableSamples.

Module JoinSpec.
Import PyStr CompileResults CreateExactResults.

(** The key of a row of a per-benchmark table. *)
Definition row_key (row : joined_row) : string * string :=
  (j_onnx_file row, j_vnnlib_file row).

(** A row of an instance table, as the reader of the joiner sees it. *)
Definition csv_row (benchmark onnx vnnlib width time : string) : instance_row :=
  {| col_tool := "t"; col_benchmark := benchmark; col_slurm_id := "1";
     col_onnx_file := onnx; col_vnnlib_file := vnnlib;
     col_status := "verified"; col_timed_out := "";
     col_wall_time := time; col_bound_width := width;
     col_lower_bounds := "--"; col_upper_bounds := "--" |}.

(** Two instance tables: abcrown has two instances of benchmark [B1],
    luna has one of them and one of benchmark [A0]. *)
Definition abcrown_table : gmap (string * string * string) instance :=
  parse_instances
    [csv_row "B1" "n.onnx" "q.vnnlib" "0.250000" "1.5000";
     csv_row "B1" "n.onnx" "p.vnnlib" "0.350000" "2.5000"].

Definition luna_table : gmap (string * string * string) instance :=
  parse_instances
    [csv_row "B1" "n.onnx" "p.vnnlib" "0.150000" "0.5000";
     csv_row "A0" "m.onnx" "p.vnnlib" "--" ""].

(** The tables [main] writes for them. *)
Definition joined_tables : list (string * list joined_row) :=
  [("A0", [JoinedRow "m.onnx" "p.vnnlib" "" "--" "" ""]);
   ("B1", [JoinedRow "n.onnx" "p.vnnlib" "0.350000" "0.150000" "2.5000" "0.5000";
           JoinedRow "n.onnx" "q.vnnlib" "0.250000" "" "1.5000" ""])].

End JoinSpec.

Module ReSpec.
Import PyStr Re.

(** Every character of the text is in the class. *)
Fixpoint all_chars (cls : ascii -> bool) (s : string) : bool :=
match s with
| EmptyString => true
| String c s' => cls c && all_chars cls s'
end.

(** The classes of the groups of a pattern, in the order of the groups. *)
Fixpoint group_classes (pat : pattern) : list (ascii -> bool) :=
match pat with
| [] => []
| Group cls :: pat' => cls :: group_classes pat'
| _ :: pat' => group_classes pat'
end.

(** A group of a match: a text that is not empty, with all its characters
  in the class of the group. *)
Definition captured (cls : ascii -> bool) (g : string) : Prop :=
g <> EmptyString /\ all_chars cls g = true.

End ReSpec.

Module CollectorSpec.
Import PyStr PyNum CompileResults.

(** The job directory a record comes from: a directory [slurm-<id>...] with
  a [run.out], in a benchmark directory of the tool directory. *)
Record origin (entries : list benchmark_dir) (r : record)
  (b : benchmark_dir) (d : slurm_dir) : Prop := {
org_benchmark_in : In b entries;
org_benchmark_is_dir : bd_is_dir b = true;
org_benchmark_name : bd_name b <> "options";
org_job_in : In d (bd_entries b);
org_job_is_dir : sd_is_dir d = true;
org_job_name : startswith "slurm-" (sd_name d) = true;
org_run_out : sd_run_out d <> None;
org_benchmark : benchmark r = bd_name b;
org_slurm_id : slurm_id r = second_component (sd_name d);
}.

(** The ids of two records are numbers in ascending order. *)
Definition id_le (r1 r2 : record) : Prop :=
exists n1 n2, py_int (slurm_id r1) = Some n1 /\ py_int (slurm_id r2) = Some n2
              /\ (n1 <= n2)%Z.

(** The record with another id. *)
Definition with_id (id : string) (r : record) : record :=
{| tool := tool r; benchmark := benchmark r; slurm_id := id;
   onnx_file := onnx_file r; vnnlib_file := vnnlib_file r; status := status r;
   wall_time := wall_time r; timed_out := timed_out r;
   has_result := has_result r; bound_width := bound_width r;
   lower_bounds := lower_bounds r; upper_bounds := upper_bounds r |}.

(** A benchmark directory that lists job 10 before job 2. *)
Definition unordered_dir : benchmark_dir :=
BenchmarkDir "B1" true
  [Samples.job "slurm-10" Samples.mismatched_log;
   Samples.job "slurm-2" Samples.abcrown_log].

(** The order of two job directories paired with their sort keys. *)
Definition key_le (a b : Z * slurm_dir) : Prop := (fst b <? fst a)%Z = false.

End CollectorSpec.

Module FilterSamples.
Import PyStr PyNum CompileResults Samples AggregateSamples.

(** A record of job 1 without any result. *)
Definition empty_record : record :=
{| tool := "abcrown"; benchmark := "B1"; slurm_id := "1";
   onnx_file := None; vnnlib_file := None; status := None;
   wall_time := None; timed_out := false; has_result := false;
   bound_width := None; lower_bounds := None; upper_bounds := None |}.

End FilterSamples.

Module RowSpec.
Import PyStr PyNum CompileResults.

(** The total length of the lists of a dict. *)
Definition total_size (m : gmap string (list record)) : nat :=
list_sum (map (fun p : string * list record => length (snd p)) (map_to_list m)).

(** The order of two items of a dict by their keys. *)
Definition item_lt (a b : string * list record) : bool := str_lt (fst a) (fst b).

End RowSpec.

Module TableSpec.
Import PyStr PyNum CompileResults CreateExactResults.

(** The key [parse_instances] files a row under. *)
Definition row_key3 (row : instance_row) : string * string * string :=
(col_benchmark row, col_onnx_file row, col_vnnlib_file row).

(** The value [parse_instances] keeps of a row. *)
Definition instance_of (row : instance_row) : instance :=
{| i_bound_width := col_bound_width row;
   i_wall_time := col_wall_time row;
   i_status := col_status row;
   i_timed_out := col_timed_out row |}.

(** The rows with a given key, in the order of the table. *)
Definition rows_with_key (k : string * string * string) (rows : list instance_row)
  : list instance_row :=
List.filter (fun row => bool_decide (row_key3 row = k)) rows.

(** The (benchmark, slurm_id) pairs of the rows of an instance table. *)
Definition row_keys (rows : list instance_row) : gset (string * string) :=
list_to_set (map (fun row => (col_benchmark row, col_slurm_id row)) rows).

(** What [main] writes for the two sample trees. *)
Definition both_outputs : list tool_output :=
Eval vm_compute in
  match CompileResults.main (fun _ => "[..]") Samples.luna_tree Samples.good_tree with
  | Ok outs => outs
  | Raise _ => []
  end.

End TableSpec.

Module ArgsSpec.
Import PyStr ReSpec.

Definition not_slash (c : ascii) : bool := negb (Ascii.eqb c "/"%char).

(** A base name with the extension [ext]. *)
Definition base_name (ext n : string) : Prop :=
endswith ext n = true /\ all_chars not_slash n = true.

(** The last element of a list, or [d] for the empty list, the way
  [path_name] takes it. *)
Definition last_or {A : Type} (d : A) (l : list A) : A :=
match rev l with
| w :: _ => w
| [] => d
end.

(** A log whose arguments are paths. *)
Definition args_log : string :=
String.append "c args: --onnx /data/nets/a.onnx --vnnlib ../props/p.vnnlib"
  (String nl EmptyString).

End ArgsSpec.

Module RaiseSamples.
Import PyStr.

(** An abcrown log whose time has two points. *)
Definition bad_time_log : string :=
String.append "Result: unsat" (String nl "Time: 1.2.3").

(** A luna log whose first pair has a lower bound [float] rejects. *)
Definition bad_pair_log : string :=
String.append "Output Bounds:" (String nl "[1-2, 3] [4, 5]").

(** A runlim log whose wall time has two points. *)
Definition bad_real_log : string := "[runlim] real: 1.2.3 seconds".

End RaiseSamples.

(* ===================================================================== *)
(** ** General facts *)
(* ===================================================================== *)

Lemma rbind_ok {A B : Type} (m : result A) (k : A -> result B) (b : B) :
  rbind m k = Ok b -> exists a, m = Ok a /\ k a = Ok b.
Proof. destruct m as [a|e]; simpl; [eauto | discriminate]. Qed.

Section ResultFacts.
Context {A B : Type}.

Lemma rmap_length (f : A -> result B) (l : list A) (k : list B) :
  rmap f l = Ok k -> length k = length l.
Proof.
  revert k. induction l as [|x l IH]; intros k; simpl.
  - intros [= <-]. reflexivity.
  - intros H. apply rbind_ok in H as (y & _ & H).
    apply rbind_ok in H as (ys & Hys & [= <-]).
    simpl. f_equal. exact (IH _ Hys).
Qed.

Lemma rmap_raise (f : A -> result B) (l : list A) (x : A) :
  In x l -> f x = Raise ValueError -> rmap f l = Raise ValueError.
Proof.
  induction l as [|y l IH]; simpl; [tauto|].
  intros [-> | Hin] Hx.
  - rewrite Hx. reflexivity.
  - destruct (f y) as [b|[]]; simpl; [|reflexivity].
    rewrite (IH Hin Hx). reflexivity.
Qed.
End ResultFacts.

Lemma exn_is_value_error (e : exn) : e = ValueError.
Proof. destruct e. reflexivity. Qed.

Section SortFacts.
Context {A : Type} (lt : A -> A -> bool).

Lemma insert_by_perm (x : A) (l : list A) :
  Permutation (insert_by lt x l) (x :: l).
Proof.
  induction l as [|y l IH]; simpl; [reflexivity|].
  destruct (lt y x); [|reflexivity].
  rewrite IH. apply perm_swap.
Qed.

Lemma py_sorted_perm (l : list A) : Permutation (py_sorted lt l) l.
Proof.
  induction l as [|x l IH]; simpl; [reflexivity|].
  rewrite insert_by_perm. constructor. exact IH.
Qed.

Lemma py_sorted_In (l : list A) (x : A) : In x (py_sorted lt l) <-> In x l.
Proof.
  split; apply Permutation_in; [|symmetry]; apply py_sorted_perm.
Qed.
End SortFacts.

(** A stable sort by a strict order that is asymmetric and total gives a
    strictly ascending list when the elements are distinct. *)
Section SortedFacts.
Context {A : Type} (lt : A -> A -> bool).
Hypothesis lt_asym : forall a b, lt a b = true -> lt b a = false.
Hypothesis lt_total : forall a b, a <> b -> lt b a = false -> lt a b = true.

Lemma insert_by_sorted (x : A) (l : list A) :
  Sorted (fun a b => lt b a = false) l ->
  Sorted (fun a b => lt b a = false) (insert_by lt x l).
Proof.
  induction l as [|y l IH]; intros Hs; simpl.
  - repeat constructor.
  - destruct (lt y x) eqn:E.
    + apply Sorted_inv in Hs as [Hs Hhd]. constructor; [exact (IH Hs)|].
      destruct l as [|z l]; simpl.
      * constructor. exact (lt_asym _ _ E).
      * destruct (lt z x); constructor.
        -- inversion Hhd; assumption.
        -- exact (lt_asym _ _ E).
    + constructor; [assumption|]. constructor. exact E.
Qed.

Lemma py_sorted_sorted (l : list A) :
  Sorted (fun a b => lt b a = false) (py_sorted lt l).
Proof.
  induction l as [|x l IH]; simpl; [constructor|].
  apply insert_by_sorted. exact IH.
Qed.

Lemma sorted_strict (l : list A) :
  List.NoDup l -> Sorted (fun a b => lt b a = false) l ->
  Sorted (fun a b => lt a b = true) l.
Proof.
  induction l as [|x l IH]; intros Hnd Hs; [constructor|].
  apply List.NoDup_cons_iff in Hnd as [Hx Hnd].
  apply Sorted_inv in Hs as [Hs Hhd].
  constructor; [exact (IH Hnd Hs)|].
  destruct l as [|y l]; constructor.
  apply lt_total.
  - intros ->. apply Hx. left. reflexivity.
  - inversion Hhd; assumption.
Qed.

Lemma py_sorted_strict (l : list A) :
  List.NoDup l ->
  Sorted (fun a b => lt a b = true) (py_sorted lt l)
  /\ List.NoDup (py_sorted lt l).
Proof.
  intros Hnd.
  assert (List.NoDup (py_sorted lt l)) as Hnd'.
  { eapply Permutation_NoDup; [symmetry; apply py_sorted_perm|exact Hnd]. }
  split; [|exact Hnd'].
  apply sorted_strict; [exact Hnd'|apply py_sorted_sorted].
Qed.
End SortedFacts.

Section StringOrder.
Import PyStr.

Lemma str_lt_irrefl (a : string) : str_lt a a = false.
Proof.
  unfold str_lt, String.ltb. pose proof (String.compare_antisym a a) as H.
  destruct (String.compare a a); simpl in H; congruence.
Qed.

Lemma str_lt_asym (a b : string) : str_lt a b = true -> str_lt b a = false.
Proof.
  unfold str_lt, String.ltb. rewrite (String.compare_antisym a b).
  destruct (String.compare b a); simpl; congruence.
Qed.

Lemma str_lt_total (a b : string) : a <> b -> str_lt b a = false -> str_lt a b = true.
Proof.
  unfold str_lt, String.ltb. rewrite (String.compare_antisym a b).
  destruct (String.compare b a) eqn:E; simpl; try congruence.
  intros Hne _. apply String.compare_eq_iff in E. congruence.
Qed.
End StringOrder.

(* ===================================================================== *)
(** ** The collector: what every record satisfies *)
(* ===================================================================== *)

Module CollectorFacts.
Import PyStr PyNum Re CompileResults Spec.

Lemma split_on_not_nil (sep : ascii) (s : string) : split_on sep s <> [].
Proof.
  induction s as [|c s IH]; simpl; [discriminate|].
  destruct (Ascii.eqb c sep); [discriminate|].
  destruct (split_on sep s); discriminate.
Qed.

Lemma float_list_not_empty (text : string) : float_list text <> Some [].
Proof.
  unfold float_list. intros H. apply length_mapM in H.
  destruct (split_on "," text) eqn:E; [|discriminate].
  exact (split_on_not_nil _ _ E).
Qed.

Lemma abcrown_bounds_not_empty (side content : string) :
  abcrown_bounds side content <> Some [].
Proof.
  unfold abcrown_bounds.
  match goal with |- context [match ?m with Some gs => float_list _ | None => None end] =>
    destruct m as [gs|] end; [apply float_list_not_empty | discriminate].
Qed.

(** The bound lists of luna: none, or two lists of one length, not empty. *)
Lemma luna_bounds_paired (content : string) lo up :
  luna_bounds content = Ok (lo, up) ->
  (lo = None /\ up = None)
  \/ exists l u, lo = Some l /\ up = Some u /\ length l = length u /\ l <> [].
Proof.
  unfold luna_bounds.
  destruct (search output_bounds_re content) as [gs|]; [|intros [= <- <-]; auto].
  destruct (findall pair_re (strip (group 1 gs))) as [|p ps] eqn:E;
    [intros [= <- <-]; auto|].
  intros H. apply rbind_ok in H as (l & Hl & H).
  apply rbind_ok in H as (u & Hu & [= <- <-]).
  apply rmap_length in Hl, Hu. right. exists l, u.
  repeat split; [congruence|]. intros ->. discriminate.
Qed.

Lemma parse_abcrown_not_empty (f : file) (d : run_data) :
  parse_abcrown_run_out f = Ok d ->
  rd_lower_bounds d <> Some [] /\ rd_upper_bounds d <> Some [].
Proof.
  destruct f as [|content]; simpl.
  - intros [= <-]. split; discriminate.
  - destruct (parse_args_line content) as [o v].
    intros H. apply rbind_ok in H as (t & _ & [= <-]). simpl.
    split; apply abcrown_bounds_not_empty.
Qed.

Lemma parse_luna_paired (f : file) (d : run_data) :
  parse_luna_run_out f = Ok d ->
  (rd_lower_bounds d = None /\ rd_upper_bounds d = None)
  \/ exists l u, rd_lower_bounds d = Some l /\ rd_upper_bounds d = Some u
                 /\ length l = length u /\ l <> [].
Proof.
  destruct f as [|content]; simpl.
  - intros [= <-]. left. split; reflexivity.
  - destruct (parse_args_line content) as [o v].
    intros H. apply rbind_ok in H as ([lo up] & Hb & [= <-]). simpl.
    exact (luna_bounds_paired _ _ _ Hb).
Qed.

Lemma parse_luna_not_empty (f : file) (d : run_data) :
  parse_luna_run_out f = Ok d ->
  rd_lower_bounds d <> Some [] /\ rd_upper_bounds d <> Some [].
Proof.
  intros H. destruct (parse_luna_paired _ _ H) as [[-> ->]|(l & u & -> & -> & Hlen & Hne)].
  - split; discriminate.
  - split; intros [= E]; subst; [congruence|].
    destruct l; [congruence|discriminate].
Qed.

(** A record [collect_job] appends, with the parsed data it is made of. *)
Lemma collect_job_inv (tool_name benchmark_name : string) (d : slurm_dir)
    (rs : list record) (r : record) :
  collect_job tool_name benchmark_name d = Ok rs -> In r rs ->
  exists run_out data,
    sd_run_out d = Some run_out
    /\ (if String.eqb tool_name "abcrown" then parse_abcrown_run_out run_out
        else parse_luna_run_out run_out) = Ok data
    /\ tool r = tool_name
    /\ benchmark r = benchmark_name
    /\ slurm_id r = second_component (sd_name d)
    /\ lower_bounds r = rd_lower_bounds data
    /\ upper_bounds r = rd_upper_bounds data
    /\ status r = rd_status data
    /\ bound_width r = compute_bound_width (lower_bounds r) (upper_bounds r)
    /\ has_result r
       = timed_out r || not_none (lower_bounds r) && not_none (upper_bounds r).
Proof.
  unfold collect_job.
  destruct (negb (sd_is_dir d)); [intros [= <-] []|].
  destruct (negb (startswith "slurm-" (sd_name d))); [intros [= <-] []|].
  destruct (sd_run_out d) as [run_out|]; [|intros [= <-] []].
  intros H Hin. apply rbind_ok in H as (log & _ & H).
  apply rbind_ok in H as (data & Hdata & [= <-]).
  destruct Hin as [<-|[]]. exists run_out, data. simpl. tauto.
Qed.

Lemma collect_each_In {A : Type} (step : A -> result (list record)) (l : list A)
    (rs : list record) (r : record) :
  collect_each step l = Ok rs -> In r rs ->
  exists x rs', In x l /\ step x = Ok rs' /\ In r rs'.
Proof.
  revert rs. induction l as [|x l IH]; intros rs; simpl.
  - intros [= <-] [].
  - intros H Hin. apply rbind_ok in H as (rs1 & H1 & H).
    apply rbind_ok in H as (rs2 & H2 & [= <-]).
    apply in_app_or in Hin as [Hin|Hin].
    + exists x, rs1. auto.
    + destruct (IH _ H2 Hin) as (y & rs' & ? & ? & ?). exists y, rs'. auto.
Qed.

Lemma collect_each_raise {A : Type} (step : A -> result (list record)) (l : list A)
    (x : A) :
  In x l -> step x = Raise ValueError -> collect_each step l = Raise ValueError.
Proof.
  induction l as [|y l IH]; simpl; [tauto|].
  intros [-> | Hin] Hx.
  - rewrite Hx. reflexivity.
  - destruct (step y) as [rs|[]]; simpl; [|reflexivity].
    rewrite (IH Hin Hx). reflexivity.
Qed.

(** Every record of the collector comes from one job directory. *)
Lemma collect_results_In (tool_name : string) (tool_path : option (list benchmark_dir))
    (rs : list record) (r : record) :
  collect_results_for_tool tool_name tool_path = Ok rs -> In r rs ->
  exists b d rs', collect_job tool_name (bd_name b) d = Ok rs' /\ In r rs'.
Proof.
  destruct tool_path as [entries|]; simpl; [|intros [= <-] []].
  intros H Hin.
  destruct (collect_each_In _ _ _ _ H Hin) as (b & rs1 & _ & Hb & Hin1).
  unfold collect_benchmark in Hb.
  destruct (negb (bd_is_dir b)); [injection Hb as <-; destruct Hin1|].
  destruct (String.eqb (bd_name b) "options"); [injection Hb as <-; destruct Hin1|].
  apply rbind_ok in Hb as (jobs & _ & Hb).
  destruct (collect_each_In _ _ _ _ Hb Hin1) as (d & rs2 & _ & Hd & Hin2).
  exists b, d, rs2. auto.
Qed.

Lemma collect_results_collected (tool_name : string)
    (tool_path : option (list benchmark_dir)) (rs : list record) (r : record) :
  collect_results_for_tool tool_name tool_path = Ok rs -> In r rs ->
  collected tool_name r.
Proof.
  intros H Hin.
  destruct (collect_results_In _ _ _ _ H Hin) as (b & d & rs' & Hjob & Hin').
  destruct (collect_job_inv _ _ _ _ _ Hjob Hin')
    as (run_out & data & _ & Hparse & Ht & _ & _ & Hlo & Hup & _ & Hw & Hr).
  assert (rd_lower_bounds data <> Some [] /\ rd_upper_bounds data <> Some [])
    as [Hl Hu].
  { destruct (String.eqb tool_name "abcrown");
      [exact (parse_abcrown_not_empty _ _ Hparse)
      | exact (parse_luna_not_empty _ _ Hparse)]. }
  split; [assumption|assumption|assumption|congruence|congruence].
Qed.

Lemma collect_results_paired (tool_name : string)
    (tool_path : option (list benchmark_dir)) (rs : list record) (r : record) :
  tool_name <> "abcrown" ->
  collect_results_for_tool tool_name tool_path = Ok rs -> In r rs ->
  paired r.
Proof.
  intros Hne H Hin.
  destruct (collect_results_In _ _ _ _ H Hin) as (b & d & rs' & Hjob & Hin').
  destruct (collect_job_inv _ _ _ _ _ Hjob Hin')
    as (run_out & data & _ & Hparse & _ & _ & _ & Hlo & Hup & _).
  destruct (String.eqb_spec tool_name "abcrown") as [|_]; [contradiction|].
  unfold paired. rewrite Hlo, Hup.
  destruct (parse_luna_paired _ _ Hparse) as [?|(l & u & ? & ? & ? & _)];
    [left; assumption|right; eauto].
Qed.

(** *** The bound width of two present lists *)

Lemma widths_by_index (lo up : list float) :
  length lo = length up ->
  map (fun '(l, u) => PrimFloat.sub u l) (combine lo up)
  = map (width_at lo up) (seq 0 (length lo)).
Proof.
  revert up. induction lo as [|l lo IH]; intros [|u up] Hlen;
    try discriminate; [reflexivity|].
  injection Hlen as Hlen. cbn [combine map length seq].
  f_equal. rewrite (IH _ Hlen), <- seq_shift, map_map. reflexivity.
Qed.

Lemma compute_bound_width_some (lo up : list float) :
  lo <> [] -> length lo = length up ->
  compute_bound_width (Some lo) (Some up) = Some (mean_width lo up).
Proof.
  intros Hne Hlen. unfold compute_bound_width, mean_width.
  destruct lo as [|l lo]; [contradiction|].
  destruct up as [|u up]; [discriminate|].
  cbn [nonempty negb orb default from_option id].
  destruct (Nat.eqb_spec (length (l :: lo)) (length (u :: up))) as [_|E];
    [|contradiction].
  cbn [negb]. rewrite widths_by_index by assumption.
  rewrite length_map, length_seq. reflexivity.
Qed.

Lemma compute_bound_width_is_some (lo up : option (list float)) :
  is_Some (compute_bound_width lo up) ->
  exists l u, lo = Some l /\ up = Some u /\ length l = length u /\ l <> [].
Proof.
  unfold compute_bound_width.
  destruct lo as [[|l lo]|], up as [[|u up]|]; cbn [nonempty negb orb default from_option id];
    try (intros [? ?]; discriminate).
  destruct (Nat.eqb_spec (length (l :: lo)) (length (u :: up))) as [E|E];
    cbn [negb]; [|intros [? ?]; discriminate].
  intros _. exists (l :: lo), (u :: up). repeat split; [assumption|discriminate].
Qed.

End CollectorFacts.

(* ===================================================================== *)
(** ** Job records: bound width and has_result *)
(* ===================================================================== *)

Module RecordClaims.
Import PyStr PyNum CompileResults Spec Samples CollectorFacts.

(** C1. For every job record of the collector, [bound_width] is what
    [compute_bound_width] gives on the two optional lists; it is defined
    if and only if [lower_bounds] and [upper_bounds] are both present and
    of equal length, and it is then the mean over all indices [i] of
    [upper_bounds[i] - lower_bounds[i]]. *)
Theorem bound_width_defined_iff (tool_name : string)
    (tool_path : option (list benchmark_dir)) (rs : list record) (r : record) :
  collect_results_for_tool tool_name tool_path = Ok rs -> In r rs ->
  bound_width r = compute_bound_width (lower_bounds r) (upper_bounds r)
  /\ (is_Some (bound_width r) <->
      exists lo up, lower_bounds r = Some lo /\ upper_bounds r = Some up
                    /\ length lo = length up)
  /\ (forall lo up, lower_bounds r = Some lo -> upper_bounds r = Some up ->
                    length lo = length up ->
                    bound_width r = Some (mean_width lo up)).
Proof.
  intros H Hin. destruct (collect_results_collected _ _ _ _ H Hin) as [_ Hw _ Hl Hu].
  assert (forall lo up, lower_bounds r = Some lo -> upper_bounds r = Some up ->
                        length lo = length up ->
                        bound_width r = Some (mean_width lo up)) as Hmean.
  { intros lo up Hlo Hup Hlen. rewrite Hw, Hlo, Hup.
    apply compute_bound_width_some; [|assumption].
    intros ->. exact (Hl Hlo). }
  split; [assumption|]. split; [|assumption]. split.
  - rewrite Hw. intros Hs.
    destruct (compute_bound_width_is_some _ _ Hs) as (l & u & ? & ? & ? & _).
    exists l, u. auto.
  - intros (lo & up & Hlo & Hup & Hlen). rewrite (Hmean _ _ Hlo Hup Hlen). eauto.
Qed.

Lemma bound_width_defined_iff_witness :
  bound_width good_record
  = compute_bound_width (lower_bounds good_record) (upper_bounds good_record)
  /\ (is_Some (bound_width good_record) <->
      exists lo up, lower_bounds good_record = Some lo
                    /\ upper_bounds good_record = Some up
                    /\ length lo = length up)
  /\ (forall lo up, lower_bounds good_record = Some lo ->
                    upper_bounds good_record = Some up ->
                    length lo = length up ->
                    bound_width good_record = Some (mean_width lo up)).
Proof.
  apply (bound_width_defined_iff "abcrown" good_tree [good_record] good_record).
  - vm_compute. reflexivity.
  - left. reflexivity.
Defined.

(** C2, as stated, fails: the abcrown job whose log lists two lower bounds
    and one upper bound gets a record with [has_result] true, although it
    did not time out and has no [bound_width]. *)
Lemma has_result_without_width :
  collect_results_for_tool "abcrown" mismatched_tree = Ok [mismatched_record]
  /\ has_result mismatched_record = true
  /\ timed_out mismatched_record = false
  /\ bound_width mismatched_record = None.
Proof. vm_compute. repeat split; reflexivity. Qed.

(** C2, amended. For every job record of the collector, [has_result] is
    true if and only if [timed_out] is true or [lower_bounds] and
    [upper_bounds] are both present, whatever their lengths. A defined
    [bound_width] therefore implies [has_result]; and for a tool other
    than abcrown, whose two lists always have one length, [has_result] is
    true if and only if [timed_out] is true or [bound_width] is defined. *)
Theorem has_result_iff_bounds_present (tool_name : string)
    (tool_path : option (list benchmark_dir)) (rs : list record) (r : record) :
  collect_results_for_tool tool_name tool_path = Ok rs -> In r rs ->
  (has_result r = true <->
   timed_out r = true \/ (is_Some (lower_bounds r) /\ is_Some (upper_bounds r)))
  /\ (is_Some (bound_width r) -> has_result r = true)
  /\ (tool_name <> "abcrown" ->
      (has_result r = true <-> timed_out r = true \/ is_Some (bound_width r))).
Proof.
  intros H Hin.
  destruct (collect_results_collected _ _ _ _ H Hin) as [_ Hw Hr Hl Hu].
  assert (is_Some (bound_width r) ->
          is_Some (lower_bounds r) /\ is_Some (upper_bounds r)) as Hpresent.
  { rewrite Hw. intros Hs.
    destruct (compute_bound_width_is_some _ _ Hs) as (l & u & -> & -> & _).
    split; eauto. }
  assert (has_result r = true <->
          timed_out r = true \/ (is_Some (lower_bounds r) /\ is_Some (upper_bounds r)))
    as Hiff.
  { rewrite Hr.
    destruct (timed_out r), (lower_bounds r), (upper_bounds r); simpl;
      split; intros; try discriminate; auto;
      repeat match goal with
             | K : _ \/ _ |- _ => destruct K
             | K : _ /\ _ |- _ => destruct K
             | K : is_Some None |- _ => destruct K; discriminate
             end; try discriminate; eauto. }
  split; [exact Hiff|]. split.
  - intros Hs. apply Hiff. right. exact (Hpresent Hs).
  - intros Hne. rewrite Hiff. split; (intros [Ht|Hb]; [left; exact Ht|right]).
    + destruct Hb as [[lo Hlo] [up Hup]].
      destruct (collect_results_paired _ _ _ _ Hne H Hin)
        as [[Hn _]|(lo' & up' & Hlo' & Hup' & Hlen)]; [congruence|].
      rewrite Hw, Hlo', Hup', compute_bound_width_some; eauto.
      intros ->. exact (Hl Hlo').
    + exact (Hpresent Hb).
Qed.

Lemma has_result_iff_bounds_present_witness :
  (has_result luna_record = true <->
   timed_out luna_record = true
   \/ (is_Some (lower_bounds luna_record) /\ is_Some (upper_bounds luna_record)))
  /\ (is_Some (bound_width luna_record) -> has_result luna_record = true)
  /\ ("luna" <> "abcrown" ->
      (has_result luna_record = true <->
       timed_out luna_record = true \/ is_Some (bound_width luna_record))).
Proof.
  apply (has_result_iff_bounds_present "luna" luna_tree [luna_record] luna_record).
  - vm_compute. reflexivity.
  - left. reflexivity.
Defined.

End RecordClaims.

(* ===================================================================== *)
(** ** Common instances *)
(* ===================================================================== *)

Module CommonFacts.
Import CompileResults Spec.

Lemma elem_of_keys_where (p : record -> bool) (rs : list record) (k : string * string) :
  k ∈ keys_where p rs <-> exists r, In r rs /\ p r = true /\ key r = k.
Proof.
  unfold keys_where. rewrite elem_of_list_to_set, list_elem_of_In, in_map_iff.
  split.
  - intros (r & Hk & Hin). apply filter_In in Hin as [Hin Hp]. eauto.
  - intros (r & Hin & Hp & Hk). exists r. split; [assumption|].
    apply filter_In. auto.
Qed.

Lemma elem_of_key_set (rs : list record) (k : string * string) :
  k ∈ key_set rs <-> exists r, In r rs /\ key r = k.
Proof.
  unfold key_set. rewrite elem_of_list_to_set, list_elem_of_In, in_map_iff.
  split; intros (r & ? & ?); eauto.
Qed.

Lemma keys_where_subseteq (p : record -> bool) (rs : list record) :
  keys_where p rs ⊆ key_set rs.
Proof.
  intros k. rewrite elem_of_keys_where, elem_of_key_set.
  intros (r & ? & _ & ?). eauto.
Qed.

(** Restricting a list to a set of keys that all occur in it leaves
    exactly that set of keys. *)
Lemma key_set_restrict (rs : list record) (common : gset (string * string)) :
  common ⊆ key_set rs ->
  key_set (List.filter (fun r => bool_decide (key r ∈ common)) rs) = common.
Proof.
  intros Hsub. apply set_eq. intros k. rewrite elem_of_key_set. split.
  - intros (r & Hin & <-). apply filter_In in Hin as [_ Hin].
    exact (proj1 (bool_decide_eq_true _) Hin).
  - intros Hk. destruct (proj1 (elem_of_key_set rs k) (Hsub _ Hk)) as (r & Hin & <-).
    exists r. split; [|reflexivity].
    apply filter_In. split; [assumption|]. apply bool_decide_eq_true. assumption.
Qed.

(** The records [filter_common_instances] keeps, without the sets of the
    code. *)
Lemma filter_common_members (abcrown_results luna_results : list record) :
  (forall r : record,
     In r (fst (filter_common_instances abcrown_results luna_results)) <->
     In r abcrown_results
     /\ (exists ra, In ra abcrown_results /\ has_result ra = true
                    /\ (benchmark ra, slurm_id ra) = (benchmark r, slurm_id r))
     /\ (exists rl, In rl luna_results /\ has_result rl = true
                    /\ (benchmark rl, slurm_id rl) = (benchmark r, slurm_id r)))
  /\ (forall r : record,
        In r (snd (filter_common_instances abcrown_results luna_results)) <->
        In r luna_results
        /\ (exists ra, In ra abcrown_results /\ has_result ra = true
                       /\ (benchmark ra, slurm_id ra) = (benchmark r, slurm_id r))
        /\ (exists rl, In rl luna_results /\ has_result rl = true
                       /\ (benchmark rl, slurm_id rl) = (benchmark r, slurm_id r))).
Proof.
  unfold filter_common_instances. cbn [fst snd].
  split; intros r; rewrite filter_In, bool_decide_eq_true, elem_of_intersection,
    !elem_of_keys_where; unfold key; reflexivity.
Qed.

Lemma filter_length_le {A : Type} (p : A -> bool) (l : list A) :
  length (List.filter p l) <= length l.
Proof.
  induction l as [|x l IH]; simpl; [lia|]. destruct (p x); simpl; lia.
Qed.

End CommonFacts.

Module CommonClaims.
Import CompileResults Spec CommonFacts.

(** C3. For every pair of record lists, each filtered list of
    [filter_common_instances] has at most as many records as the list it
    was filtered from; a record is in a filtered list if and only if it is
    in the list it was filtered from and each tool has a record with its
    (benchmark, slurm_id) pair and [has_result] true; hence the filtered
    lists have the same (benchmark, slurm_id) pairs: the pairs that a
    record with [has_result] true has in the abcrown list and a record
    with [has_result] true has in the luna list. *)
Theorem filter_common_instances_keys (abcrown_results luna_results : list record) :
  length (fst (filter_common_instances abcrown_results luna_results))
    <= length abcrown_results
  /\ length (snd (filter_common_instances abcrown_results luna_results))
       <= length luna_results
  /\ (forall r : record,
        In r (fst (filter_common_instances abcrown_results luna_results)) <->
        In r abcrown_results
        /\ (exists ra, In ra abcrown_results /\ has_result ra = true
                       /\ (benchmark ra, slurm_id ra) = (benchmark r, slurm_id r))
        /\ (exists rl, In rl luna_results /\ has_result rl = true
                       /\ (benchmark rl, slurm_id rl) = (benchmark r, slurm_id r)))
  /\ (forall r : record,
        In r (snd (filter_common_instances abcrown_results luna_results)) <->
        In r luna_results
        /\ (exists ra, In ra abcrown_results /\ has_result ra = true
                       /\ (benchmark ra, slurm_id ra) = (benchmark r, slurm_id r))
        /\ (exists rl, In rl luna_results /\ has_result rl = true
                       /\ (benchmark rl, slurm_id rl) = (benchmark r, slurm_id r)))
  /\ (forall b s : string,
        (exists r, In r (fst (filter_common_instances abcrown_results luna_results))
                   /\ (benchmark r, slurm_id r) = (b, s)) <->
        (exists ra, In ra abcrown_results /\ has_result ra = true
                    /\ (benchmark ra, slurm_id ra) = (b, s))
        /\ (exists rl, In rl luna_results /\ has_result rl = true
                       /\ (benchmark rl, slurm_id rl) = (b, s)))
  /\ (forall b s : string,
        (exists r, In r (snd (filter_common_instances abcrown_results luna_results))
                   /\ (benchmark r, slurm_id r) = (b, s)) <->
        (exists ra, In ra abcrown_results /\ has_result ra = true
                    /\ (benchmark ra, slurm_id ra) = (b, s))
        /\ (exists rl, In rl luna_results /\ has_result rl = true
                       /\ (benchmark rl, slurm_id rl) = (b, s))).
Proof.
  pose proof (filter_common_members abcrown_results luna_results) as [Ha Hl].
  split; [apply filter_length_le|]. split; [apply filter_length_le|].
  split; [exact Ha|]. split; [exact Hl|].
  split; intros b s; split.
  - intros (r & Hin & Hk). apply Ha in Hin as (_ & Hra & Hrl).
    rewrite Hk in Hra, Hrl. split; assumption.
  - intros [(ra & Hin & Hres & Hk) Hrl]. exists ra. split; [|exact Hk].
    apply Ha. rewrite Hk. split; [exact Hin|]. split; [eauto|exact Hrl].
  - intros (r & Hin & Hk). apply Hl in Hin as (_ & Hra & Hrl).
    rewrite Hk in Hra, Hrl. split; assumption.
  - intros [Hra (rl & Hin & Hres & Hk)]. exists rl. split; [|exact Hk].
    apply Hl. rewrite Hk. split; [exact Hin|]. split; [exact Hra|eauto].
Qed.

(** C4. For every pair of record lists, [get_common_bounds_instances] and
    [get_common_finished_instances] return the same set of keys: a key is
    in it if and only if each tool has a record with that key and a
    defined [bound_width]. *)
Theorem common_finished_is_common_bounds (abcrown_results luna_results : list record) :
  get_common_bounds_instances abcrown_results luna_results
  = get_common_finished_instances abcrown_results luna_results
  /\ forall k : string * string,
       k ∈ get_common_bounds_instances abcrown_results luna_results <->
       (exists r, In r abcrown_results /\ is_Some (bound_width r) /\ key r = k)
       /\ (exists r, In r luna_results /\ is_Some (bound_width r) /\ key r = k).
Proof.
  split; [reflexivity|]. intros k.
  unfold get_common_bounds_instances.
  rewrite elem_of_intersection, !elem_of_keys_where.
  assert (forall r, is_some_width r = true <-> is_Some (bound_width r)) as Hs.
  { intros r. unfold is_some_width. destruct (bound_width r); simpl; split;
      intros; eauto; try discriminate. destruct H as [? [=]]. }
  split; intros [(a & ? & ? & ?) (l & ? & ? & ?)]; split;
    (eexists; split; [eassumption|split; [apply Hs; assumption|assumption]]).
Qed.

End CommonClaims.
(* ===================================================================== *)
(** ** Rounding of the percentages *)
(* ===================================================================== *)

(** The error of the three binary64 operations of a percentage
    ([n / total], [* 100]) and of the sum of two percentages, from the
    specification of the operations ([SFdiv], [SFmul], [SFadd]): each
    rounding of a number below [2^K] moves it by less than [2^(K-51)]. *)
Module RoundingFacts.
Import PyNum CompileResults Spec FloatSpec.
Local Open Scope Z_scope.

Lemma digits2_pos_size (p : positive) : digits2_pos p = Pos.size p.
Proof. induction p as [p IH|p IH|]; simpl; [rewrite IH..|]; reflexivity. Qed.

Lemma Zdigits2_log2 (p : positive) : Zdigits2 (Zpos p) = Z.log2 (Zpos p) + 1.
Proof.
unfold Zdigits2. rewrite digits2_pos_size.
destruct p as [p|p|]; simpl; try reflexivity; lia.
Qed.

Lemma Zdigits2_bounds (m : Z) :
0 < m -> 2 ^ (Zdigits2 m - 1) <= m < 2 ^ Zdigits2 m.
Proof.
intros Hm. destruct m as [|p|p]; try lia.
rewrite Zdigits2_log2.
replace (Z.log2 (Z.pos p) + 1 - 1) with (Z.log2 (Z.pos p)) by lia.
pose proof (Z.log2_spec (Z.pos p) Hm) as H.
replace (Z.succ (Z.log2 (Z.pos p))) with (Z.log2 (Z.pos p) + 1) in H by lia.
exact H.
Qed.

Lemma Zdigits2_pos (m : Z) : 0 < m -> 0 < Zdigits2 m.
Proof. destruct m; simpl; lia. Qed.

Lemma Zdigits2_unique (m k : Z) :
0 < m -> 2 ^ (k - 1) <= m < 2 ^ k -> Zdigits2 m = k.
Proof.
intros Hm H. destruct m as [|p|p]; try lia.
rewrite Zdigits2_log2.
assert (0 < k) as Hk.
{ destruct (Z.ltb_spec 0 k); [assumption|].
  destruct (Z.eq_dec k 0) as [->|]; [simpl in H; lia|].
  rewrite (Z.pow_neg_r 2 k) in H by lia. lia. }
rewrite (Z.log2_unique (Z.pos p) (k - 1)); [lia|lia|].
replace (Z.succ (k - 1)) with k by lia. exact H.
Qed.

(** Fewer than [2^k]: at most [k] digits. *)
Lemma Zdigits2_le (m k : Z) : 0 <= k -> 0 <= m < 2 ^ k -> Zdigits2 m <= k.
Proof.
intros Hk [H0 Hm]. destruct (Z.eq_dec m 0) as [->|]; [simpl; lia|].
pose proof (Zdigits2_bounds m ltac:(lia)) as [Hlo _].
destruct (Z.leb_spec (Zdigits2 m) k); [assumption|].
assert (2 ^ k <= 2 ^ (Zdigits2 m - 1)) by (apply Z.pow_le_mono_r; lia).
lia.
Qed.

(** At least [2^(k-1)]: at least [k] digits. *)
Lemma Zdigits2_ge (m k : Z) : 0 < m -> 2 ^ (k - 1) <= m -> k <= Zdigits2 m.
Proof.
intros Hm Hlo. pose proof (Zdigits2_bounds m Hm) as [_ Hhi].
pose proof (Zdigits2_pos m Hm).
destruct (Z.leb_spec k (Zdigits2 m)); [assumption|].
assert (2 ^ Zdigits2 m <= 2 ^ (k - 1)) by (apply Z.pow_le_mono_r; lia).
lia.
Qed.

Lemma Zdigits2_mono (a b : Z) : 0 < a <= b -> Zdigits2 a <= Zdigits2 b.
Proof.
intros [Ha Hab]. apply Zdigits2_ge; [lia|].
pose proof (Zdigits2_bounds a Ha). lia.
Qed.

Lemma pow2_pos (k : Z) : 0 <= k -> 0 < 2 ^ k.
Proof. intros. apply Z.pow_pos_nonneg; lia. Qed.

Lemma Zdigits2_div_pow2 (m n : Z) :
0 < m -> 0 <= n < Zdigits2 m -> Zdigits2 (m / 2 ^ n) = Zdigits2 m - n.
Proof.
intros Hm Hn. pose proof (Zdigits2_bounds m Hm) as [Hlo Hhi].
pose proof (pow2_pos n ltac:(lia)) as Hp.
assert (2 ^ (Zdigits2 m - 1) = 2 ^ (Zdigits2 m - n - 1) * 2 ^ n) as E1.
{ rewrite <- Z.pow_add_r by lia. f_equal. lia. }
assert (2 ^ Zdigits2 m = 2 ^ (Zdigits2 m - n) * 2 ^ n) as E2.
{ rewrite <- Z.pow_add_r by lia. f_equal. lia. }
assert (2 ^ (Zdigits2 m - n - 1) <= m / 2 ^ n) as Hq1.
{ apply Z.div_le_lower_bound; [assumption|]. lia. }
assert (m / 2 ^ n < 2 ^ (Zdigits2 m - n)) as Hq2.
{ apply Z.div_lt_upper_bound; [assumption|]. lia. }
apply Zdigits2_unique.
- pose proof (pow2_pos (Zdigits2 m - n - 1) ltac:(lia)). lia.
- split; assumption.
Qed.

(** Shifting right. *)
Lemma shr_1_m (mrs : shr_record) :
0 <= shr_m mrs -> shr_m (shr_1 mrs) = shr_m mrs / 2.
Proof.
destruct mrs as [m r s]. cbn [shr_m]. intros Hm.
rewrite <- Z.div2_div.
destruct m as [|[p|p|]|p]; cbn [shr_1 shr_m]; try reflexivity. lia.
Qed.

Lemma shr_1_nonneg (mrs : shr_record) : 0 <= shr_m mrs -> 0 <= shr_m (shr_1 mrs).
Proof.
intros H. rewrite shr_1_m by assumption. apply Z.div_pos; lia.
Qed.

Lemma iter_pos_shr_m (p : positive) (mrs : shr_record) :
0 <= shr_m mrs ->
shr_m (SpecFloat.iter_pos shr_1 p mrs) = shr_m mrs / 2 ^ Zpos p.
Proof.
revert mrs. induction p as [p IH|p IH|]; intros mrs Hm; cbn [SpecFloat.iter_pos].
- assert (0 <= shr_m (shr_1 mrs)) as H1 by (apply shr_1_nonneg; assumption).
  assert (0 <= shr_m (SpecFloat.iter_pos shr_1 p (shr_1 mrs))) as H2.
  { rewrite IH by assumption. apply Z.div_pos; [assumption|apply pow2_pos; lia]. }
  rewrite IH by assumption. rewrite IH by assumption. rewrite shr_1_m by assumption.
  rewrite !Z.div_div by (try apply pow2_pos; lia).
  f_equal. change (2 * (2 ^ Z.pos p * 2 ^ Z.pos p) = 2 ^ Z.pos p~1).
  rewrite <- Z.pow_add_r by lia.
  rewrite <- (Z.pow_succ_r 2 (Z.pos p + Z.pos p)) by lia. f_equal. lia.
- assert (0 <= shr_m (SpecFloat.iter_pos shr_1 p mrs)) as H2.
  { rewrite IH by assumption. apply Z.div_pos; [assumption|apply pow2_pos; lia]. }
  rewrite IH by assumption. rewrite IH by assumption.
  rewrite !Z.div_div by (try apply pow2_pos; lia).
  f_equal. rewrite <- Z.pow_add_r by lia. f_equal. lia.
- rewrite shr_1_m by assumption. reflexivity.
Qed.

Lemma fexp_unfold (k : Z) : fexp prec emax k = Z.max (k - 53) (-1074).
Proof. reflexivity. Qed.

Lemma shr_fexp_spec (m e : Z) (l : location) :
0 <= m ->
shr_m (fst (shr_fexp prec emax m e l))
= m / 2 ^ Z.max 0 (fexp prec emax (Zdigits2 m + e) - e)
/\ snd (shr_fexp prec emax m e l)
   = e + Z.max 0 (fexp prec emax (Zdigits2 m + e) - e).
Proof.
intros Hm. unfold shr_fexp, shr.
assert (shr_m (shr_record_of_loc m l) = m) as Hl by (destruct l as [|[]]; reflexivity).
destruct (fexp prec emax (Zdigits2 m + e) - e) as [|p|p] eqn:E; cbn [fst snd].
- rewrite Hl. change (Z.max 0 0) with 0. rewrite Z.pow_0_r, Z.div_1_r. lia.
- rewrite iter_pos_shr_m by lia. rewrite Hl. rewrite Z.max_r by lia.
  split; reflexivity.
- rewrite Hl. rewrite Z.max_l by lia. rewrite Z.pow_0_r, Z.div_1_r. lia.
Qed.

Lemma round_nearest_even_bounds (m : Z) (l : location) :
m <= round_nearest_even m l <= m + 1.
Proof.
destruct l as [|[]]; cbn [round_nearest_even]; try lia.
destruct (Z.even m); lia.
Qed.

(** Floor division by a power of two. *)
Lemma div_pow2_bounds (m n : Z) :
0 <= n -> m / 2 ^ n * 2 ^ n <= m < (m / 2 ^ n + 1) * 2 ^ n.
Proof.
intros Hn. pose proof (pow2_pos n Hn) as Hp.
pose proof (Z.div_mod m (2 ^ n) ltac:(lia)) as E.
pose proof (Z.mod_pos_bound m (2 ^ n) Hp). lia.
Qed.

Lemma pow2_split (a b : Z) : 0 <= a -> 0 <= b -> 2 ^ (a + b) = 2 ^ a * 2 ^ b.
Proof. intros. apply Z.pow_add_r; assumption. Qed.

Lemma pow2_le (a b : Z) : 0 <= a <= b -> 2 ^ a <= 2 ^ b.
Proof. intros. apply Z.pow_le_mono_r; lia. Qed.

Lemma pow2_lt (a b : Z) : 0 <= a < b -> 2 ^ a < 2 ^ b.
Proof. intros. apply Z.pow_lt_mono_r; lia. Qed.

(** The rounding of [mx * 2^ex], below [2^K], to binary64: the result is
  zero or a valid finite number [m3 * 2^e3], at most [3 * 2^(K-53)] below
  and at most [2^(K-53)] above. *)
Lemma binary_round_aux_spec (sx : bool) (mx ex : Z) (lx : location) (K : Z) :
0 <= mx -> ex <= fexp prec emax (Zdigits2 mx + ex) ->
-1021 <= K <= 1023 -> mx < 2 ^ (K - ex) ->
exists m3 e3,
  binary_round_aux prec emax sx mx ex lx = finite_or_zero sx m3 e3
  /\ valid_binary (finite_or_zero sx m3 e3) = true
  /\ 0 <= m3 /\ ex <= e3 <= K - 52 /\ -1074 <= e3
  /\ mx - 3 * 2 ^ (K - 53 - ex) <= m3 * 2 ^ (e3 - ex) <= mx + 2 ^ (K - 53 - ex)
  /\ m3 * 2 ^ (e3 - ex) <= 2 ^ (K - ex).
Proof.
intros Hmx Hex HK Hlt.
assert (0 <= K - ex) as HKex.
{ destruct (Z.leb_spec 0 (K - ex)); [assumption|].
  rewrite Z.pow_neg_r in Hlt by assumption. lia. }
pose proof (Zdigits2_le mx (K - ex) HKex (conj Hmx Hlt)) as Hd.
rewrite fexp_unfold in Hex.
unfold binary_round_aux.
destruct (shr_fexp prec emax mx ex lx) as [mrs1 e1] eqn:E1.
pose proof (shr_fexp_spec mx ex lx Hmx) as [Hm1 He1].
rewrite E1 in Hm1, He1. cbn [fst snd] in Hm1, He1.
rewrite fexp_unfold in Hm1, He1.
set (d := Zdigits2 mx) in *.
set (n1 := Z.max 0 (Z.max (d + ex - 53) (-1074) - ex)) in *.
set (m1 := shr_m mrs1) in *.
assert (0 <= n1) as Hn1 by lia.
pose proof (div_pow2_bounds mx n1 Hn1) as Hdiv1. rewrite <- Hm1 in Hdiv1.
pose proof (pow2_pos n1 Hn1) as Hp1.
assert (0 <= m1) as Hm1pos.
{ rewrite Hm1. apply Z.div_pos; lia. }
pose proof (round_nearest_even_bounds m1 (loc_of_shr_record mrs1)) as Hm2.
set (m2 := round_nearest_even m1 (loc_of_shr_record mrs1)) in *.
assert (0 <= m2) as Hm2pos by lia.
destruct (shr_fexp prec emax m2 e1 loc_Exact) as [mrs2 e3] eqn:E2.
pose proof (shr_fexp_spec m2 e1 loc_Exact Hm2pos) as [Hm3 He3].
rewrite E2 in Hm3, He3. cbn [fst snd] in Hm3, He3.
rewrite fexp_unfold in Hm3, He3.
set (d2 := Zdigits2 m2) in *.
set (n2 := Z.max 0 (Z.max (d2 + e1 - 53) (-1074) - e1)) in *.
set (m3 := shr_m mrs2) in *.
assert (0 <= n2) as Hn2 by lia.
pose proof (div_pow2_bounds m2 n2 Hn2) as Hdiv2. rewrite <- Hm3 in Hdiv2.
pose proof (pow2_pos n2 Hn2) as Hp2.
assert (0 <= m3) as Hm3pos.
{ rewrite Hm3. apply Z.div_pos; lia. }
(* the size of the first rounding *)
assert (e1 <= K - 53) as He1K by lia.
assert (2 ^ (K - ex) = 2 ^ (K - e1) * 2 ^ n1) as EK.
{ rewrite <- pow2_split by lia. f_equal. lia. }
assert (m1 < 2 ^ (K - e1)) as Hm1K.
{ rewrite Hm1. apply Z.div_lt_upper_bound; [assumption|]. lia. }
assert (d2 <= K - e1 + 1) as Hd2.
{ apply Zdigits2_le; [lia|]. split; [assumption|].
  rewrite pow2_split by lia. change (2 ^ 1) with 2. lia. }
assert (e3 <= K - 52) as He3K by lia.
(* the digits of the results *)
assert (m3 = 0 \/ 0 < m3 /\ Z.max (Zdigits2 m3 + e3 - 53) (-1074) = e3) as Hcanon.
{ destruct (Z.ltb_spec n1 d) as [Hlt1|Hge1].
  - (* the first shift keeps digits *)
    assert (0 < mx) as Hmxpos.
    { destruct (Z.eq_dec mx 0) as [E0|]; [|lia].
      subst d. rewrite E0 in Hlt1. simpl in Hlt1. lia. }
    assert (Zdigits2 m1 = d - n1) as Hd1.
    { rewrite Hm1. apply Zdigits2_div_pow2; [assumption|]. fold d. lia. }
    assert (0 < m1) as Hm1pos'.
    { destruct (Z.eq_dec m1 0) as [E0|]; [|lia].
      rewrite E0 in Hd1. simpl in Hd1. lia. }
    pose proof (Zdigits2_bounds m1 Hm1pos') as Hb1.
    assert (Zdigits2 m1 <= d2) as Hlo2 by (apply Zdigits2_mono; lia).
    assert (d2 <= Zdigits2 m1 + 1) as Hhi2.
    { apply Zdigits2_le; [lia|]. split; [lia|].
      rewrite pow2_split by lia. change (2 ^ 1) with 2. lia. }
    right. destruct (Z.eq_dec n2 0) as [E0|Hn2'].
    + assert (m3 = m2) as Em by (rewrite Hm3, E0, Z.pow_0_r, Z.div_1_r; reflexivity).
      rewrite Em. fold d2. lia.
    + assert (n2 = 1 /\ d2 = Zdigits2 m1 + 1) as [En2 Ed2] by lia.
      assert (Zdigits2 m3 = d2 - n2) as Hd3.
      { rewrite Hm3. apply Zdigits2_div_pow2; [lia|]. fold d2. lia. }
      assert (0 < m3).
      { destruct (Z.eq_dec m3 0) as [E0|]; [|lia].
        rewrite E0 in Hd3. simpl in Hd3. lia. }
      lia.
  - (* the first shift leaves nothing *)
    assert (m1 = 0) as Em1.
    { rewrite Hm1. apply Z.div_small. split; [assumption|].
      destruct (Z.eq_dec mx 0) as [->|]; [lia|].
      pose proof (Zdigits2_bounds mx ltac:(lia)) as [_ Hhi]. fold d in Hhi.
      pose proof (Zdigits2_pos mx ltac:(lia)). fold d in H.
      assert (2 ^ d <= 2 ^ n1) by (apply pow2_le; lia). lia. }
    assert (0 <= d) as Hd0.
    { subst d. destruct mx; simpl; lia. }
    destruct (Z.eq_dec m2 0) as [E0|Hm2'].
    + left. rewrite Hm3, E0. apply Z.div_0_l. lia.
    + right. assert (m2 = 1) as E1' by lia.
      assert (d2 = 1) as Ed2 by (subst d2; rewrite E1'; reflexivity).
      assert (n2 = 0) as En2 by lia.
      assert (m3 = 1) as Em3.
      { rewrite Hm3, En2, E1'. reflexivity. }
      rewrite Em3. change (Zdigits2 1) with 1. lia. }
exists m3, e3.
assert (2 ^ (e3 - ex) = 2 ^ n2 * 2 ^ n1) as Ee.
{ rewrite <- pow2_split by lia. f_equal. lia. }
assert (2 ^ n1 <= 2 ^ (K - 53 - ex)) as Hb1 by (apply pow2_le; lia).
assert (2 ^ n2 * 2 ^ n1 <= 2 * 2 ^ (K - 53 - ex)) as Hb2.
{ rewrite <- Ee. change 2 with (2 ^ 1) at 2. rewrite <- pow2_split by lia.
  apply pow2_le. lia. }
split; [|split; [|split; [|split; [|split; [|split]]]]].
- destruct Hcanon as [->|[Hpos _]]; [reflexivity|].
  destruct m3 as [|p|p]; try lia. cbn [finite_or_zero].
  replace (e3 <=? emax - prec) with true; [reflexivity|].
  symmetry. apply Z.leb_le. change (emax - prec) with 971. lia.
- destruct Hcanon as [->|[Hpos Hc]]; [reflexivity|].
  destruct m3 as [|p|p]; try lia. cbn [finite_or_zero]. unfold valid_binary, SpecFloat.valid_binary.
  unfold bounded, canonical_mantissa. rewrite fexp_unfold.
  change (Z.pos (digits2_pos p)) with (Zdigits2 (Z.pos p)).
  apply andb_true_intro. split; [apply Z.eqb_eq; exact Hc|].
  apply Z.leb_le. change (emax - prec) with 971. lia.
- assumption.
- lia.
- lia.
- rewrite Ee. split.
  + assert (m2 * 2 ^ n1 < (m3 + 1) * 2 ^ n2 * 2 ^ n1) by nia. nia.
  + assert (m3 * 2 ^ n2 * 2 ^ n1 <= m2 * 2 ^ n1) by nia. nia.
- rewrite Ee, EK.
  assert (m3 * 2 ^ n2 * 2 ^ n1 <= m2 * 2 ^ n1) by nia.
  assert (m2 * 2 ^ n1 <= 2 ^ (K - e1) * 2 ^ n1) by nia. lia.
Qed.

Lemma finite_or_zero_units (m e : Z) :
0 <= m -> sf_units (finite_or_zero false m e) = Some (m * 2 ^ (e + 1200)).
Proof. destruct m; cbn; try reflexivity. lia. Qed.

(** [binary_round_aux_spec] in units of [2^-1200]. *)
Lemma round_units (mx ex : Z) (lx : location) (K : Z) :
0 <= mx -> ex <= fexp prec emax (Zdigits2 mx + ex) ->
-1021 <= K <= 1023 -> mx < 2 ^ (K - ex) -> -1200 <= ex ->
exists V,
  valid_binary (binary_round_aux prec emax false mx ex lx) = true
  /\ sf_units (binary_round_aux prec emax false mx ex lx) = Some V
  /\ mx * 2 ^ (ex + 1200) - 3 * 2 ^ (K + 1147) <= V
     <= mx * 2 ^ (ex + 1200) + 2 ^ (K + 1147)
  /\ 0 <= V <= 2 ^ (K + 1200).
Proof.
intros Hmx Hex HK Hlt Hlow.
destruct (binary_round_aux_spec false mx ex lx K Hmx Hex HK Hlt)
  as (m3 & e3 & -> & Hv & Hm3 & He3 & _ & Herr & Hmag).
assert (0 <= K - ex) as HKex.
{ destruct (Z.leb_spec 0 (K - ex)); [assumption|].
  rewrite Z.pow_neg_r in Hlt by assumption. lia. }
assert (ex <= K - 53) as HexK.
{ pose proof (Zdigits2_le mx (K - ex) HKex (conj Hmx Hlt)).
  rewrite fexp_unfold in Hex. lia. }
exists (m3 * 2 ^ (e3 + 1200)).
split; [exact Hv|]. split; [apply finite_or_zero_units; exact Hm3|].
pose proof (pow2_pos (ex + 1200) ltac:(lia)) as HP.
assert (2 ^ (e3 + 1200) = 2 ^ (e3 - ex) * 2 ^ (ex + 1200)) as E3.
{ rewrite <- pow2_split by lia. f_equal. lia. }
assert (2 ^ (K + 1147) = 2 ^ (K - 53 - ex) * 2 ^ (ex + 1200)) as EK.
{ rewrite <- pow2_split by lia. f_equal. lia. }
assert (2 ^ (K + 1200) = 2 ^ (K - ex) * 2 ^ (ex + 1200)) as EK'.
{ rewrite <- pow2_split by lia. f_equal. lia. }
rewrite E3, EK, EK'.
set (P := 2 ^ (ex + 1200)) in *. set (W := m3 * 2 ^ (e3 - ex)) in *.
set (B := 2 ^ (K - 53 - ex)) in *. set (T := 2 ^ (K - ex)) in *.
replace (m3 * (2 ^ (e3 - ex) * P)) with (W * P) by (unfold W; ring).
assert (0 <= W).
{ unfold W. apply Z.mul_nonneg_nonneg; [assumption|].
  apply Z.lt_le_incl, pow2_pos. lia. }
clearbody P W B T. clear -Herr Hmag HP H.
split; [split|split]; nia.
Qed.

Lemma pos_iter_xO (m d : positive) : Zpos (Pos.iter xO m d) = Zpos m * 2 ^ Zpos d.
Proof.
induction d as [|d IH] using Pos.peano_ind.
- cbn [Pos.iter]. rewrite Pos2Z.inj_xO. change (2 ^ 1) with 2. lia.
- rewrite Pos.iter_succ, Pos2Z.inj_xO, IH, Pos2Z.inj_succ, Z.pow_succ_r by lia. ring.
Qed.

Lemma shl_align_spec (m : positive) (e e' : Z) :
snd (shl_align m e e') = Z.min e e'
/\ Zpos (fst (shl_align m e e')) = Zpos m * 2 ^ (e - Z.min e e').
Proof.
unfold shl_align. destruct (e' - e) as [|d|d] eqn:E; cbn [fst snd].
- rewrite Z.min_l by lia. rewrite Z.sub_diag, Z.pow_0_r. lia.
- rewrite Z.min_l by lia. rewrite Z.sub_diag, Z.pow_0_r. lia.
- rewrite Z.min_r by lia. rewrite pos_iter_xO. split; [reflexivity|].
  f_equal. f_equal. lia.
Qed.

Lemma Zdigits2_mul_pow2 (m k : Z) :
0 < m -> 0 <= k -> Zdigits2 (m * 2 ^ k) = Zdigits2 m + k.
Proof.
intros Hm Hk. pose proof (Zdigits2_bounds m Hm) as [Hlo Hhi].
pose proof (Zdigits2_pos m Hm) as Hd. pose proof (pow2_pos k Hk) as Hp.
apply Zdigits2_unique; [nia|].
replace (Zdigits2 m + k - 1) with (Zdigits2 m - 1 + k) by lia.
rewrite !pow2_split by lia. split; nia.
Qed.

(** A finite binary64 number has its canonical exponent. *)
Lemma valid_finite (s : bool) (m : positive) (e : Z) :
valid_binary (S754_finite s m e) = true ->
Z.max (Zdigits2 (Zpos m) + e - 53) (-1074) = e /\ e <= 971.
Proof.
unfold valid_binary, SpecFloat.valid_binary, bounded, canonical_mantissa.
rewrite fexp_unfold. intros H. apply andb_prop in H as [Hc Hb].
apply Z.eqb_eq in Hc. apply Z.leb_le in Hb. change (emax - prec) with 971 in Hb.
split; assumption.
Qed.

(** The quotient and the exponent [SFdiv] rounds, for two positive
  integers [s <= t]. *)
Lemma div_core_spec (ps pt : positive) :
Zpos ps <= Zpos pt ->
exists q e' l,
  SFdiv_core_binary prec emax (Zpos ps) 0 (Zpos pt) 0 = (q, e', l)
  /\ e' = Z.min (Z.max (Zdigits2 (Zpos ps) - Zdigits2 (Zpos pt) - 53) (-1074)) 0
  /\ q = Zpos ps * 2 ^ (- e') / Zpos pt.
Proof.
intros Hle. unfold SFdiv_core_binary.
rewrite !Z.add_0_r, fexp_unfold. change (0 - 0) with 0.
pose proof (Zdigits2_mono (Zpos ps) (Zpos pt) ltac:(lia)) as Hd.
set (e' := Z.min (Z.max (Zdigits2 (Zpos ps) - Zdigits2 (Zpos pt) - 53) (-1074)) 0) in *.
assert (e' <= -53) as He' by lia.
destruct (0 - e') as [|p|p] eqn:Es; try lia.
assert (Z.shiftl (Z.pos ps) (Z.pos p) = Z.pos ps * 2 ^ (- e')) as Em.
{ rewrite Z.shiftl_mul_pow2 by lia. f_equal. f_equal. lia. }
rewrite Em.
destruct (Z.div_eucl (Z.pos ps * 2 ^ (- e')) (Z.pos pt)) as [q r] eqn:Eq.
exists q, e', (new_location (Z.pos pt) r).
split; [reflexivity|]. split; [reflexivity|].
unfold Z.div. rewrite Eq. reflexivity.
Qed.

(** [s / t] on two [int], for [0 <= s <= t] and [0 < t]: within [2^-50] of
  the exact quotient. *)
Lemma int_truediv_units (s t : Z) :
0 <= s <= t -> 0 < t ->
exists V,
  sf_units (Prim2SF (int_truediv s t)) = Some V
  /\ 0 <= V <= 2 ^ 1201
  /\ s * 2 ^ 1200 - t * 2 ^ 1150 <= V * t <= s * 2 ^ 1200 + t * 2 ^ 1150.
Proof.
intros Hs Ht. unfold int_truediv, nearest_quotient.
destruct t as [|pt|pt]; try lia. destruct s as [|ps|ps]; try lia.
- cbn [exact SFdiv xorb]. rewrite Prim2SF_SF2Prim by reflexivity.
  exists 0. split; [reflexivity|]. split; [split; [lia|]|].
  + apply Z.lt_le_incl, pow2_pos. lia.
  + pose proof (pow2_pos 1150 ltac:(lia)). nia.
- cbn [exact SFdiv xorb].
  destruct (div_core_spec ps pt ltac:(lia)) as (q & e' & l & -> & He' & Hq).
  pose proof (Zdigits2_mono (Zpos ps) (Zpos pt) ltac:(lia)) as Hd.
  pose proof (Zdigits2_bounds (Zpos ps) ltac:(lia)) as [Hs1 Hs2].
  pose proof (Zdigits2_bounds (Zpos pt) ltac:(lia)) as [Ht1 Ht2].
  pose proof (Zdigits2_pos (Zpos ps) ltac:(lia)) as Hds.
  set (d1 := Zdigits2 (Zpos ps)) in *. set (d2 := Zdigits2 (Zpos pt)) in *.
  assert (-1074 <= e' <= -53) as He'b by lia.
  pose proof (pow2_pos (- e') ltac:(lia)) as Hp.
  assert (0 <= q) as Hq0.
  { rewrite Hq. apply Z.div_pos; lia. }
  assert (q * Zpos pt <= Zpos ps * 2 ^ (- e') < (q + 1) * Zpos pt) as Hqb.
  { pose proof (Z.div_mod (Zpos ps * 2 ^ (- e')) (Zpos pt) ltac:(lia)) as E.
    pose proof (Z.mod_pos_bound (Zpos ps * 2 ^ (- e')) (Zpos pt) ltac:(lia)).
    rewrite <- Hq in E. lia. }
  assert (q <= 2 ^ (- e')) as Hq1.
  { rewrite Hq. apply Z.div_le_upper_bound; [lia|]. nia. }
  assert (e' <= fexp prec emax (Zdigits2 q + e')) as Hcanon.
  { rewrite fexp_unfold.
    destruct (Z.leb_spec (d1 - d2 - e') 0) as [Hk|Hk]; [lia|].
    assert (d1 - d2 - e' <= Zdigits2 q); [|lia].
    assert (2 ^ (d1 - d2 - e' - 1) <= q) as Hlow.
    { rewrite Hq. apply Z.div_le_lower_bound; [lia|].
      transitivity (2 ^ (d1 - 1) * 2 ^ (- e')); [|nia].
      transitivity (2 ^ d2 * 2 ^ (d1 - d2 - e' - 1)); [nia|].
      rewrite <- !pow2_split by lia.
      replace (d2 + (d1 - d2 - e' - 1)) with (d1 - 1 + - e') by lia. lia. }
    apply Zdigits2_ge; [|exact Hlow].
    pose proof (pow2_pos (d1 - d2 - e' - 1) ltac:(lia)). lia. }
  assert (q < 2 ^ (1 - e')) as Hmag.
  { replace (1 - e') with (1 + - e') by lia. rewrite pow2_split by lia.
    change (2 ^ 1) with 2. lia. }
  destruct (round_units q e' l 1 Hq0 Hcanon ltac:(lia) Hmag ltac:(lia))
    as (V & Hv & HV & Herr & HVb).
  rewrite Prim2SF_SF2Prim by exact Hv.
  exists V. split; [exact HV|]. split; [exact HVb|].
  change (1 + 1147) with 1148 in Herr.
  assert (2 ^ 1200 = 2 ^ (- e') * 2 ^ (e' + 1200)) as E1.
  { rewrite <- pow2_split by lia. f_equal. lia. }
  assert (2 ^ (e' + 1200) <= 2 ^ 1147) as E2 by (apply pow2_le; lia).
  assert (2 ^ 1150 = 4 * 2 ^ 1148) as E3.
  { change 4 with (2 ^ 2). rewrite <- pow2_split by lia. reflexivity. }
  assert (2 ^ 1148 = 2 * 2 ^ 1147) as E4.
  { change 2 with (2 ^ 1) at 2. rewrite <- pow2_split by lia. reflexivity. }
  pose proof (pow2_pos (e' + 1200) ltac:(lia)) as HP.
  pose proof (pow2_pos 1147 ltac:(lia)) as HP'.
  rewrite E1, E3, E4. rewrite E4 in Herr.
  set (P := 2 ^ (e' + 1200)) in *. set (R := 2 ^ (- e')) in *.
  set (C := 2 ^ 1147) in *. set (T := Z.pos pt) in *. set (S := Z.pos ps) in *.
  clearbody P R C T S. clear -Herr Hqb E2 HP HP' Hq0 Ht.
  assert (q * T * P <= S * R * P) by nia.
  assert (S * R * P < (q + 1) * T * P) by nia.
  assert (V * T <= (q * P + 2 * C) * T) by nia.
  assert ((q * P - 3 * (2 * C)) * T <= V * T) by nia.
  assert (T * P <= T * C) by nia.
  split; nia.
Qed.

Lemma of_int_100 : Prim2SF (of_int 100) = S754_finite false 7036874417766400 (-46).
Proof. vm_compute. reflexivity. Qed.

Lemma sf_units_finite (x : spec_float) (V : Z) :
valid_binary x = true -> sf_units x = Some V -> 0 < V ->
exists m e, x = S754_finite false m e /\ V = Zpos m * 2 ^ (e + 1200)
            /\ Z.max (Zdigits2 (Zpos m) + e - 53) (-1074) = e.
Proof.
intros Hv HV Hpos. destruct x as [s|s| |[] m e]; cbn in HV; try discriminate.
- injection HV as <-. lia.
- injection HV as <-. exists m, e. split; [reflexivity|]. split; [reflexivity|].
  exact (proj1 (valid_finite _ _ _ Hv)).
Qed.

Lemma sf_units_zero (x : spec_float) :
valid_binary x = true -> sf_units x = Some 0 -> exists s, x = S754_zero s.
Proof.
destruct x as [s|s| |[] m e]; cbn [sf_units]; try discriminate; [eauto|].
intros Hv [= H]. apply valid_finite in Hv as [Hc _].
pose proof (pow2_pos (e + 1200) ltac:(lia)). nia.
Qed.

(** [x * 100] on a [float] between 0 and 2: within [3 * 2^-45] of the
  exact product. *)
Lemma mul_100_units (x : float) (V : Z) :
sf_units (Prim2SF x) = Some V -> 0 <= V <= 2 ^ 1201 ->
exists W,
  sf_units (Prim2SF (PrimFloat.mul x (of_int 100))) = Some W
  /\ 100 * V - 3 * 2 ^ 1155 <= W <= 100 * V + 2 ^ 1155
  /\ 0 <= W <= 2 ^ 1208.
Proof.
intros HV Hb. rewrite FloatAxioms.mul_spec, of_int_100. unfold SF64mul.
pose proof (pow2_pos 1155 ltac:(lia)) as H55.
pose proof (pow2_pos 1208 ltac:(lia)) as H08.
destruct (Z.eq_dec V 0) as [->|Hnz].
- destruct (sf_units_zero _ (Prim2SF_valid x) HV) as (s & E0); rewrite E0. cbn [SFmul].
  exists 0. split; [reflexivity|]. lia.
- destruct (sf_units_finite _ V (Prim2SF_valid x) HV ltac:(lia))
    as (m & e & -> & EV & Hc).
  cbn [SFmul xorb].
  assert (-1074 <= e) as He by lia.
  pose proof (Zdigits2_bounds (Zpos m) ltac:(lia)) as [Hm1 Hm2].
  pose proof (Zdigits2_pos (Zpos m) ltac:(lia)) as Hdm.
  set (dm := Zdigits2 (Zpos m)) in *.
  assert (Zpos m * 2 ^ (e + 1200) <= 2 * 2 ^ 1200) as Hb'.
  { rewrite <- EV. change 2 with (2 ^ 1) at 1. rewrite <- pow2_split by lia.
    exact (proj2 Hb). }
  assert (e <= 1) as He1.
  { destruct (Z.leb_spec e 1); [assumption|].
    assert (2 ^ (2 + 1200) <= 2 ^ (e + 1200)) as Hle by (apply pow2_le; lia).
    rewrite (pow2_split 2) in Hle by lia. change (2 ^ 2) with 4 in Hle.
    pose proof (pow2_pos 1200 ltac:(lia)). nia. }
  assert (Zpos m <= 2 ^ (1 - e)) as Hm.
  { assert (2 * 2 ^ 1200 = 2 ^ (1 - e) * 2 ^ (e + 1200)) as E.
    { change 2 with (2 ^ 1) at 1. rewrite <- !pow2_split by lia. f_equal. lia. }
    rewrite E in Hb'. pose proof (pow2_pos (e + 1200) ltac:(lia)). nia. }
  rewrite Pos2Z.inj_mul.
  change (Z.pos 7036874417766400) with (100 * 2 ^ 46).
  assert (e + -46 <= fexp prec emax (Zdigits2 (Zpos m * (100 * 2 ^ 46)) + (e + -46)))
    as Hcanon.
  { rewrite fexp_unfold.
    assert (dm + 52 <= Zdigits2 (Zpos m * (100 * 2 ^ 46))); [|lia].
    apply Zdigits2_ge; [lia|].
    replace (dm + 52 - 1) with (dm - 1 + 52) by lia. rewrite pow2_split by lia.
    assert (2 ^ 52 <= 100 * 2 ^ 46) by (vm_compute; discriminate).
    pose proof (pow2_pos (dm - 1) ltac:(lia)). nia. }
  assert (Zpos m * (100 * 2 ^ 46) < 2 ^ (8 - (e + -46))) as Hmag.
  { replace (8 - (e + -46)) with (1 - e + 53) by lia. rewrite pow2_split by lia.
    assert (100 * 2 ^ 46 < 2 ^ 53) by (vm_compute; reflexivity).
    pose proof (pow2_pos (1 - e) ltac:(lia)). nia. }
  destruct (round_units (Zpos m * (100 * 2 ^ 46)) (e + -46) loc_Exact 8
              ltac:(lia) Hcanon ltac:(lia) Hmag ltac:(lia))
    as (W & _ & HW & Herr & HWb).
  exists W. split; [exact HW|]. split; [|exact HWb].
  change (8 + 1147) with 1155 in Herr.
  assert (Zpos m * (100 * 2 ^ 46) * 2 ^ (e + -46 + 1200) = 100 * V) as E.
  { rewrite EV. replace (e + 1200) with (46 + (e + -46 + 1200)) by lia.
    rewrite (pow2_split 46) by lia. ring. }
  rewrite E in Herr. exact Herr.
Qed.

(** [x + y] on two [float] between 0 and 256: within [3 * 2^-43] of the
  exact sum. *)
Lemma add_units (x y : float) (V1 V2 : Z) :
sf_units (Prim2SF x) = Some V1 -> sf_units (Prim2SF y) = Some V2 ->
0 <= V1 <= 2 ^ 1208 -> 0 <= V2 <= 2 ^ 1208 ->
exists W,
  sf_units (Prim2SF (PrimFloat.add x y)) = Some W
  /\ V1 + V2 - 3 * 2 ^ 1157 <= W <= V1 + V2 + 2 ^ 1157.
Proof.
intros H1 H2 Hb1 Hb2. rewrite FloatAxioms.add_spec. unfold SF64add.
pose proof (pow2_pos 1157 ltac:(lia)) as H57.
destruct (Z.eq_dec V1 0) as [->|Hnz1].
{ destruct (sf_units_zero _ (Prim2SF_valid x) H1) as (s1 & E1). rewrite E1.
  destruct (Z.eq_dec V2 0) as [->|Hnz2].
  - destruct (sf_units_zero _ (Prim2SF_valid y) H2) as (s2 & E2). rewrite E2.
    exists 0. split; [|lia]. destruct s1, s2; reflexivity.
  - destruct (sf_units_finite _ V2 (Prim2SF_valid y) H2 ltac:(lia))
      as (m & e & E2 & EV & _).
    rewrite E2. cbn [SFadd]. exists V2. split; [|lia].
    rewrite <- E2. exact H2. }
destruct (sf_units_finite _ V1 (Prim2SF_valid x) H1 ltac:(lia))
  as (m1 & e1 & E1 & EV1 & Hc1).
destruct (Z.eq_dec V2 0) as [->|Hnz2].
{ destruct (sf_units_zero _ (Prim2SF_valid y) H2) as (s2 & E2). rewrite E1, E2. cbn [SFadd].
  exists V1. split; [|lia]. rewrite <- E1. exact H1. }
destruct (sf_units_finite _ V2 (Prim2SF_valid y) H2 ltac:(lia))
  as (m2 & e2 & E2 & EV2 & Hc2).
rewrite E1, E2. cbn [SFadd cond_Zopp].
pose proof (shl_align_spec m1 e1 (Z.min e1 e2)) as [_ Ea1].
pose proof (shl_align_spec m2 e2 (Z.min e1 e2)) as [_ Ea2].
rewrite (Z.min_r e1 (Z.min e1 e2)) in Ea1 by lia.
rewrite (Z.min_r e2 (Z.min e1 e2)) in Ea2 by lia.
set (ez := Z.min e1 e2) in *.
set (a1 := fst (shl_align m1 e1 ez)) in *.
set (a2 := fst (shl_align m2 e2 ez)) in *.
change (Z.pos a1 + Z.pos a2) with (Z.pos (a1 + a2)).
cbn [binary_normalize]. unfold binary_round.
pose proof (shl_align_spec (a1 + a2) ez
              (fexp prec emax (Z.pos (digits2_pos (a1 + a2)) + ez))) as [Es Em].
destruct (shl_align (a1 + a2) ez (fexp prec emax (Z.pos (digits2_pos (a1 + a2)) + ez)))
  as [mz ez'].
cbn [fst snd] in Es, Em.
change (Z.pos (digits2_pos (a1 + a2))) with (Zdigits2 (Zpos (a1 + a2))) in Es, Em.
rewrite fexp_unfold in Es, Em.
assert (-1074 <= e1 /\ -1074 <= e2) as [He1 He2] by lia.
assert (-1074 <= ez') as Hez' by lia.
assert (ez' <= ez) as Hez by lia.
(* the exact sum *)
assert (Zpos (a1 + a2) * 2 ^ (ez + 1200) = V1 + V2) as Esum.
{ rewrite Pos2Z.inj_add, Ea1, Ea2, EV1, EV2.
  replace (e1 + 1200) with (e1 - ez + (ez + 1200)) by lia.
  replace (e2 + 1200) with (e2 - ez + (ez + 1200)) by lia.
  rewrite (pow2_split (e1 - ez)), (pow2_split (e2 - ez)) by lia. ring. }
assert (Zpos mz * 2 ^ (ez' + 1200) = V1 + V2) as Esum'.
{ rewrite <- Esum, Em, Es.
  replace (ez + 1200) with (ez - ez' + (ez' + 1200)) by lia.
  rewrite (pow2_split (ez - ez')) by lia. rewrite Es. ring. }
assert (ez' <= fexp prec emax (Zdigits2 (Zpos mz) + ez')) as Hcanon.
{ rewrite fexp_unfold, Em, <- Es.
  rewrite Zdigits2_mul_pow2 by lia. lia. }
assert (Zpos mz < 2 ^ (10 - ez')) as Hmag.
{ assert (V1 + V2 < 2 ^ 1210) as Hlt.
  { change 1210 with (2 + 1208). rewrite pow2_split by lia.
    change (2 ^ 2) with 4. pose proof (pow2_pos 1208 ltac:(lia)). lia. }
  rewrite <- Esum' in Hlt.
  assert (ez' < 10) as Hez10.
  { destruct (Z.ltb_spec ez' 10) as [|Hge]; [assumption|].
    assert (2 ^ 1210 <= 2 ^ (ez' + 1200)) as Hle by (apply pow2_le; lia).
    assert (1 * 2 ^ (ez' + 1200) <= Zpos mz * 2 ^ (ez' + 1200)) as Hle'.
    { apply Z.mul_le_mono_nonneg_r; [|lia]. apply Z.lt_le_incl, pow2_pos. lia. }
    lia. }
  assert (2 ^ 1210 = 2 ^ (10 - ez') * 2 ^ (ez' + 1200)) as E.
  { rewrite <- pow2_split by lia. f_equal. lia. }
  apply (Z.mul_lt_mono_pos_r (2 ^ (ez' + 1200))); [apply pow2_pos; lia|].
  rewrite <- E. exact Hlt. }
destruct (round_units (Zpos mz) ez' loc_Exact 10 ltac:(lia) Hcanon ltac:(lia)
            Hmag ltac:(lia)) as (W & _ & HW & Herr & _).
exists W. split; [exact HW|].
change (10 + 1147) with 1157 in Herr. rewrite Esum' in Herr. exact Herr.
Qed.

(** From units of [2^-1200] to the rational value. *)
Lemma units_bounds (x : float) (V : Z) (lo hi : Q) :
sf_units (Prim2SF x) = Some V ->
Qnum lo * 2 ^ 1200 <= V * QDen lo -> V * QDen hi <= Qnum hi * 2 ^ 1200 ->
exists v, float_value x = Some v /\ (lo <= v <= hi)%Q.
Proof.
intros HV Hlo Hhi. unfold float_value.
pose proof (Prim2SF_valid x) as Hv.
pose proof (pow2_pos 1200 ltac:(lia)) as HD.
destruct (Prim2SF x) as [s|s| |[] m e]; cbn [sf_units] in HV; try discriminate.
- injection HV as <-. exists 0%Q. split; [reflexivity|].
  unfold Qle. cbn [Qnum Qden]. nia.
- injection HV as <-. apply valid_finite in Hv as [Hc _].
  assert (-1074 <= e) as He by lia. cbn [sf_value].
  eexists. split; [reflexivity|].
  destruct (Z.leb_spec 0 e) as [He0|He0]; unfold Qle; cbn [Qnum Qden inject_Z].
  + rewrite (pow2_split e 1200) in Hlo, Hhi by lia.
    set (D := 2 ^ 1200) in *. set (X := Zpos m * 2 ^ e) in *.
    replace (Zpos m * (2 ^ e * D)) with (X * D) in Hlo, Hhi by (unfold X; ring).
    rewrite !Z.mul_1_r. clearbody D X. split; nia.
  + pose proof (pow2_pos (- e) ltac:(lia)) as Hp.
    rewrite Z2Pos.id by exact Hp.
    assert (2 ^ 1200 = 2 ^ (- e) * 2 ^ (e + 1200)) as ED.
    { rewrite <- pow2_split by lia. f_equal. lia. }
    rewrite ED in Hlo, Hhi.
    pose proof (pow2_pos (e + 1200) ltac:(lia)) as HP.
    set (P := 2 ^ (e + 1200)) in *. set (R := 2 ^ (- e)) in *.
    clearbody P R. split; nia.
Qed.

Lemma pct_units (s t : nat) :
(s <= t)%nat -> (0 < t)%nat ->
exists W,
  sf_units (Prim2SF (pct s t)) = Some W
  /\ 0 <= W <= 2 ^ 1208
  /\ 100 * Z.of_nat s * 2 ^ 1200 - Z.of_nat t * 2 ^ 1158 <= W * Z.of_nat t
     <= 100 * Z.of_nat s * 2 ^ 1200 + Z.of_nat t * 2 ^ 1158.
Proof.
intros Hs Ht. unfold pct.
replace (0 <? t)%nat with true by (symmetry; apply Nat.ltb_lt; exact Ht).
destruct (int_truediv_units (Z.of_nat s) (Z.of_nat t) ltac:(lia) ltac:(lia))
  as (V & HV & HVb & HVe).
destruct (mul_100_units _ V HV HVb) as (W & HW & HWe & HWb).
exists W. split; [exact HW|]. split; [exact HWb|].
assert (2 ^ 1155 = 32 * 2 ^ 1150) as E1.
{ change 32 with (2 ^ 5). rewrite <- pow2_split by lia. reflexivity. }
assert (2 ^ 1158 = 256 * 2 ^ 1150) as E2.
{ change 256 with (2 ^ 8). rewrite <- pow2_split by lia. reflexivity. }
pose proof (pow2_pos 1150 ltac:(lia)) as HC.
rewrite E1 in HWe. rewrite E2.
set (C := 2 ^ 1150) in *. set (D := 2 ^ 1200) in *.
set (T := Z.of_nat t) in *. set (S := Z.of_nat s) in *.
assert (0 < T) as HT by lia.
clearbody C D T S. clear -HVe HWe HT HC.
assert ((100 * V - 3 * (32 * C)) * T <= W * T) by nia.
assert (W * T <= (100 * V + 32 * C) * T) by nia.
split; nia.
Qed.

(** The sum of the two percentages of a partition, in units of
  [2^-1200]. *)
Lemma pct_sum_units (s u t : nat) :
(s + u = t)%nat -> (0 < t)%nat ->
exists W,
  sf_units (Prim2SF (PrimFloat.add (pct s t) (pct u t))) = Some W
  /\ 100 * 2 ^ 1200 - 2 ^ 1160 <= W <= 100 * 2 ^ 1200 + 2 ^ 1160.
Proof.
intros Hsum Ht.
destruct (pct_units s t ltac:(lia) Ht) as (Ws & HWs & HWsb & HWse).
destruct (pct_units u t ltac:(lia) Ht) as (Wu & HWu & HWub & HWue).
destruct (add_units _ _ Ws Wu HWs HWu HWsb HWub) as (W & HW & HWe).
exists W. split; [exact HW|].
assert (2 ^ 1157 = 128 * 2 ^ 1150) as E1.
{ change 128 with (2 ^ 7). rewrite <- pow2_split by lia. reflexivity. }
assert (2 ^ 1158 = 256 * 2 ^ 1150) as E2.
{ change 256 with (2 ^ 8). rewrite <- pow2_split by lia. reflexivity. }
assert (2 ^ 1160 = 1024 * 2 ^ 1150) as E3.
{ change 1024 with (2 ^ 10). rewrite <- pow2_split by lia. reflexivity. }
pose proof (pow2_pos 1150 ltac:(lia)) as HC.
rewrite E1 in HWe. rewrite E2 in HWse, HWue. rewrite E3.
assert (Z.of_nat s + Z.of_nat u = Z.of_nat t) as Hsum' by lia.
set (C := 2 ^ 1150) in *. set (D := 2 ^ 1200) in *.
set (T := Z.of_nat t) in *. set (S := Z.of_nat s) in *. set (U := Z.of_nat u) in *.
assert (0 < T) as HT by lia.
clearbody C D T S U. clear -HWe HWse HWue HT HC Hsum'.
assert ((Ws + Wu - 3 * (128 * C)) * T <= W * T) by nia.
assert (W * T <= (Ws + Wu + 128 * C) * T) by nia.
assert (100 * (S + U) * D = 100 * D * T) by (rewrite Hsum'; ring).
assert ((100 * D - 1024 * C) * T <= W * T) by nia.
assert (W * T <= (100 * D + 1024 * C) * T) by nia.
split; nia.
Qed.

(** The percentages of a partition: each within [2^-42] of its exact
  value, their binary64 sum within [2^-40] of 100. *)
Lemma pct_sum_value (s u t : nat) :
(s + u = t)%nat -> (0 < t)%nat ->
exists vs vu v : Q,
  float_value (pct s t) = Some vs
  /\ float_value (pct u t) = Some vu
  /\ float_value (PrimFloat.add (pct s t) (pct u t)) = Some v
  /\ (exact_pct s t - (1 # 2 ^ 42) <= vs <= exact_pct s t + (1 # 2 ^ 42))%Q
  /\ (exact_pct u t - (1 # 2 ^ 42) <= vu <= exact_pct u t + (1 # 2 ^ 42))%Q
  /\ (100 - (1 # 2 ^ 40) <= v <= 100 + (1 # 2 ^ 40))%Q.
Proof.
intros Hsum Ht.
assert (forall n, (n <= t)%nat ->
          exists vn, float_value (pct n t) = Some vn
            /\ (exact_pct n t - (1 # 2 ^ 42) <= vn <= exact_pct n t + (1 # 2 ^ 42))%Q)
  as Hone.
{ intros n Hn.
  destruct (pct_units n t Hn Ht) as (W & HW & _ & HWe).
  assert (2 ^ 1200 = 2 ^ 42 * 2 ^ 1158) as ED.
  { rewrite <- pow2_split by lia. reflexivity. }
  pose proof (pow2_pos 42 ltac:(lia)) as HQ.
  apply (units_bounds _ W _ _ HW); unfold exact_pct;
    (destruct (Z.of_nat t) as [|pt|pt] eqn:Et; [lia| |lia]);
    cbn [Qnum Qden Qminus Qplus Qopp Qmult Qdiv Qinv inject_Z];
    rewrite ?Pos2Z.inj_mul, ?Pos2Z.inj_pow, ED in *;
    set (D := 2 ^ 1158) in *; set (R := 2 ^ 42) in *;
    set (N := Z.of_nat n) in *; set (T := Z.pos pt) in *;
    clearbody D R N T; clear -HWe HQ; nia. }
destruct (Hone s ltac:(lia)) as (vs & Hvs & Hbs).
destruct (Hone u ltac:(lia)) as (vu & Hvu & Hbu).
destruct (pct_sum_units s u t Hsum Ht) as (W & HW & HWe).
assert (exists v, float_value (PrimFloat.add (pct s t) (pct u t)) = Some v
                  /\ (100 - (1 # 2 ^ 40) <= v <= 100 + (1 # 2 ^ 40))%Q)
  as (v & Hv & Hb).
{ assert (2 ^ 1200 = 2 ^ 40 * 2 ^ 1160) as ED.
  { rewrite <- pow2_split by lia. reflexivity. }
  pose proof (pow2_pos 1160 ltac:(lia)) as HQ.
  apply (units_bounds _ W _ _ HW);
    cbn [Qnum Qden Qminus Qplus Qopp Qmult Qdiv Qinv inject_Z];
    rewrite ?Pos2Z.inj_mul, ?Pos2Z.inj_pow, ED in *;
    set (D := 2 ^ 1160) in *; change (2 ^ 40) with 1099511627776 in *;
    clearbody D; clear -HWe HQ; lia. }
exists vs, vu, v. repeat split; tauto.
Qed.

End RoundingFacts.


(* ===================================================================== *)
(** ** Aggregates *)
(* ===================================================================== *)

Module AggregateFacts.
Import PyStr PyNum CompileResults Spec.

Lemma group_step_lookup (results : list record)
    (m : gmap string (list record)) (name : string) :
  fold_left
    (fun by_benchmark r =>
       <[benchmark r := default [] (by_benchmark !! benchmark r) ++ [r]]> by_benchmark)
    results m !! name
  = match of_benchmark name results with
    | [] => m !! name
    | rs => Some (default [] (m !! name) ++ rs)
    end.
Proof.
  revert m. induction results as [|r results IH]; intros m; [reflexivity|].
  cbn [fold_left]. rewrite IH. unfold of_benchmark. cbn [List.filter].
  destruct (String.eqb_spec (benchmark r) name) as [->|Hne].
  - rewrite lookup_insert_eq. cbn [default from_option id].
    destruct (List.filter _ results); [reflexivity|].
    rewrite <- app_assoc. reflexivity.
  - rewrite lookup_insert_ne by assumption. reflexivity.
Qed.

(** The dict of [compute_aggregates] maps a benchmark to its records. *)
Lemma group_by_benchmark_lookup (results : list record) (name : string)
    (instances : list record) :
  group_by_benchmark results !! name = Some instances ->
  instances = of_benchmark name results /\ instances <> [].
Proof.
  unfold group_by_benchmark. rewrite group_step_lookup, lookup_empty.
  destruct (of_benchmark name results) eqn:E; [discriminate|].
  intros [= <-]. split; [reflexivity|discriminate].
Qed.

Lemma count_partition (p : record -> bool) (l : list record) :
  count p l + count (fun i => negb (p i)) l = length l.
Proof.
  unfold count. induction l as [|x l IH]; simpl; [reflexivity|].
  destruct (p x); simpl; lia.
Qed.

(** Every row of [compute_aggregates] is the aggregate of the records of
    one benchmark that has records. *)
Lemma compute_aggregates_In (results : list record)
    (cb cf : option (gset (string * string))) (row : aggregate) :
  In row (compute_aggregates results cb cf) ->
  exists name,
    row = aggregate_of cb cf name (of_benchmark name results)
    /\ of_benchmark name results <> [].
Proof.
  unfold compute_aggregates. rewrite in_map_iff.
  intros ([name instances] & <- & Hin).
  apply py_sorted_In, list_elem_of_In, elem_of_map_to_list in Hin.
  destruct (group_by_benchmark_lookup _ _ _ Hin) as [-> Hne].
  exists name. split; [reflexivity|assumption].
Qed.

Lemma exact_pct_sum (s u t : nat) :
  s + u = t -> 0 < t -> (exact_pct s t + exact_pct u t == 100)%Q.
Proof.
  intros <- Ht. unfold exact_pct.
  rewrite Nat2Z.inj_add, inject_Z_plus.
  assert (~ (inject_Z (Z.of_nat s) + inject_Z (Z.of_nat u) == 0)%Q) as Hnz.
  { rewrite <- inject_Z_plus, <- Nat2Z.inj_add.
    change 0%Q with (inject_Z 0). rewrite inject_Z_injective. lia. }
  field. exact Hnz.
Qed.

End AggregateFacts.

Module AggregateClaims.
Import PyStr PyNum CompileResults Spec FloatSpec Samples AggregateSamples.
Import AggregateFacts RoundingFacts.

(** C5. Every row of [compute_aggregates] has [total_instances > 0]; its
    solved and timeout counts partition the records of its benchmark by
    whether [bound_width] is defined, so they add up to
    [total_instances]; [solved_pct] and [timeout_pct] are finite binary64
    numbers within [2^-42] of the exact percentages
    [100 * count / total], and their binary64 sum is a finite number
    within [2^-40] of 100: the sum is 100.0 within rounding, however many
    records the benchmark has. *)
Theorem solved_timeout_pct_sum (results : list record)
    (common_bounds_instances common_finished_instances : option (gset (string * string)))
    (row : aggregate) :
  In row (compute_aggregates results common_bounds_instances
            common_finished_instances) ->
  0 < total_instances row
  /\ total_instances row = length (of_benchmark (agg_benchmark row) results)
  /\ solved_count row
     = count (fun i => not_none (bound_width i))
         (of_benchmark (agg_benchmark row) results)
  /\ timeout_count row
     = count (fun i => negb (not_none (bound_width i)))
         (of_benchmark (agg_benchmark row) results)
  /\ solved_count row + timeout_count row = total_instances row
  /\ exists vs vt v : Q,
       float_value (solved_pct row) = Some vs
       /\ float_value (timeout_pct row) = Some vt
       /\ float_value (PrimFloat.add (solved_pct row) (timeout_pct row)) = Some v
       /\ (exact_pct (solved_count row) (total_instances row) - (1 # 2 ^ 42) <= vs
           <= exact_pct (solved_count row) (total_instances row) + (1 # 2 ^ 42))%Q
       /\ (exact_pct (timeout_count row) (total_instances row) - (1 # 2 ^ 42) <= vt
           <= exact_pct (timeout_count row) (total_instances row) + (1 # 2 ^ 42))%Q
       /\ (100 - (1 # 2 ^ 40) <= v <= 100 + (1 # 2 ^ 40))%Q.
Proof.
  intros Hin.
  destruct (compute_aggregates_In _ _ _ _ Hin) as (name & -> & Hne).
  cbn [aggregate_of agg_benchmark total_instances solved_count timeout_count
         solved_pct timeout_pct].
  assert (0 < length (of_benchmark name results)) as Hpos.
  { destruct (of_benchmark name results); [contradiction|simpl; lia]. }
  pose proof (count_partition is_some_width (of_benchmark name results)) as Hsum.
  split; [exact Hpos|]. split; [reflexivity|]. split; [reflexivity|].
  split; [reflexivity|]. split; [exact Hsum|].
  exact (pct_sum_value _ _ _ Hsum Hpos).
Qed.

Lemma solved_timeout_pct_sum_witness :
  0 < total_instances three_jobs_row
  /\ total_instances three_jobs_row
     = length (of_benchmark (agg_benchmark three_jobs_row) three_jobs)
  /\ solved_count three_jobs_row
     = count (fun i => not_none (bound_width i))
         (of_benchmark (agg_benchmark three_jobs_row) three_jobs)
  /\ timeout_count three_jobs_row
     = count (fun i => negb (not_none (bound_width i)))
         (of_benchmark (agg_benchmark three_jobs_row) three_jobs)
  /\ solved_count three_jobs_row + timeout_count three_jobs_row
     = total_instances three_jobs_row
  /\ exists vs vt v : Q,
       float_value (solved_pct three_jobs_row) = Some vs
       /\ float_value (timeout_pct three_jobs_row) = Some vt
       /\ float_value (PrimFloat.add (solved_pct three_jobs_row)
                         (timeout_pct three_jobs_row)) = Some v
       /\ (exact_pct (solved_count three_jobs_row) (total_instances three_jobs_row)
           - (1 # 2 ^ 42) <= vs
           <= exact_pct (solved_count three_jobs_row) (total_instances three_jobs_row)
              + (1 # 2 ^ 42))%Q
       /\ (exact_pct (timeout_count three_jobs_row) (total_instances three_jobs_row)
           - (1 # 2 ^ 42) <= vt
           <= exact_pct (timeout_count three_jobs_row) (total_instances three_jobs_row)
              + (1 # 2 ^ 42))%Q
       /\ (100 - (1 # 2 ^ 40) <= v <= 100 + (1 # 2 ^ 40))%Q.
Proof.
  apply (solved_timeout_pct_sum three_jobs
           (Some (get_common_bounds_instances three_jobs three_jobs))
           (Some (get_common_finished_instances three_jobs three_jobs))
           three_jobs_row).
  vm_compute. left. reflexivity.
Defined.

(** The sum need not be 100.0 itself: for one benchmark with one solved
    job out of three, the two percentages are 33.33333333333333 and
    66.66666666666666, and their binary64 sum is 99.99999999999999, the
    binary64 number just below 100.0. *)
Example pct_sum_just_below_100 :
  compute_aggregates three_jobs
    (Some (get_common_bounds_instances three_jobs three_jobs))
    (Some (get_common_finished_instances three_jobs three_jobs))
  = [three_jobs_row]
  /\ PrimFloat.add (solved_pct three_jobs_row) (timeout_pct three_jobs_row)
     = 99.999999999999986%float
  /\ PrimFloat.eqb
       (PrimFloat.add (solved_pct three_jobs_row) (timeout_pct three_jobs_row))
       100%float = false
  /\ float_value
       (PrimFloat.add (solved_pct three_jobs_row) (timeout_pct three_jobs_row))
     = Some (100 * 2 ^ 46 - 1 # 2 ^ 46).
Proof. vm_compute. repeat split; reflexivity. Qed.

(** Up to 100 jobs in a benchmark, the binary64 sum of the two
    percentages is within one unit in the last place of 100. *)
Lemma pct_sum_within_rounding (t s : nat) :
  0 < t <= 100 -> s <= t -> pct_sum_close t s = true.
Proof.
  intros Ht Hs.
  assert (pct_sum_close_upto 100 = true) as H by (vm_compute; reflexivity).
  unfold pct_sum_close_upto in H. rewrite forallb_forall in H.
  specialize (H t). rewrite forallb_forall in H.
  apply H; apply in_seq; lia.
Qed.

End AggregateClaims.

(* ===================================================================== *)
(** ** The per-instance table *)
(* ===================================================================== *)

Module TableClaims.
Import PyStr PyNum CompileResults TableSamples.

(** C6, as stated, fails on [wall_time]: a record without wall time gets
    the empty string in that column, not the placeholder. *)
Lemma missing_wall_time_is_empty :
  wall_time blank_record = None
  /\ (forall str_of_floats,
        col_wall_time (instance_row_of str_of_floats blank_record) = "")
  /\ "" <> "--".
Proof. repeat split. discriminate. Qed.

(** C6, amended. In the row [write_instance_csv] writes for a record, a
    missing [bound_width], [lower_bounds] or [upper_bounds] renders as
    the placeholder ["--"]; a missing [wall_time] and a missing
    [onnx_file], [vnnlib_file] or [status] render as the empty string. *)
Theorem missing_values_rendering (str_of_floats : list float -> string)
    (results : list record) (r : record) :
  In r results ->
  In (instance_row_of str_of_floats r) (write_instance_csv str_of_floats results)
  /\ (bound_width r = None ->
      col_bound_width (instance_row_of str_of_floats r) = "--")
  /\ (lower_bounds r = None ->
      col_lower_bounds (instance_row_of str_of_floats r) = "--")
  /\ (upper_bounds r = None ->
      col_upper_bounds (instance_row_of str_of_floats r) = "--")
  /\ (wall_time r = None ->
      col_wall_time (instance_row_of str_of_floats r) = "")
  /\ (onnx_file r = None ->
      col_onnx_file (instance_row_of str_of_floats r) = "")
  /\ (vnnlib_file r = None ->
      col_vnnlib_file (instance_row_of str_of_floats r) = "")
  /\ (status r = None ->
      col_status (instance_row_of str_of_floats r) = "").
Proof.
  intros Hin. split; [apply in_map; exact Hin|].
  unfold instance_row_of; cbn.
  repeat split; intros ->; reflexivity.
Qed.

Lemma missing_values_rendering_witness :
  In (instance_row_of (fun _ => "[]") blank_record)
     (write_instance_csv (fun _ => "[]") [blank_record])
  /\ col_bound_width (instance_row_of (fun _ => "[]") blank_record) = "--"
  /\ col_lower_bounds (instance_row_of (fun _ => "[]") blank_record) = "--"
  /\ col_upper_bounds (instance_row_of (fun _ => "[]") blank_record) = "--"
  /\ col_wall_time (instance_row_of (fun _ => "[]") blank_record) = ""
  /\ col_onnx_file (instance_row_of (fun _ => "[]") blank_record) = ""
  /\ col_vnnlib_file (instance_row_of (fun _ => "[]") blank_record) = ""
  /\ col_status (instance_row_of (fun _ => "[]") blank_record) = "".
Proof.
  destruct (missing_values_rendering (fun _ => "[]") [blank_record] blank_record
              (or_introl eq_refl))
    as (H0 & H1 & H2 & H3 & H4 & H5 & H6 & H7).
  exact (conj H0 (conj (H1 eq_refl) (conj (H2 eq_refl) (conj (H3 eq_refl)
          (conj (H4 eq_refl) (conj (H5 eq_refl) (conj (H6 eq_refl) (H7 eq_refl)))))))).
Defined.

(** C9. For every record whose [wall_time] is defined and equal to 0.0,
    the [wall_time] column is the empty string, as for a record without
    wall time: the writer tests the truth value of the number. The
    [bound_width] column tests presence: 0.0 renders as ["0.000000"]. *)
Theorem zero_wall_time_renders_empty (str_of_floats : list float -> string)
    (r : record) (t : float) :
  wall_time r = Some t -> PrimFloat.eqb t 0%float = true ->
  col_wall_time (instance_row_of str_of_floats r) = ""
  /\ (forall r', wall_time r' = None ->
                 col_wall_time (instance_row_of str_of_floats r)
                 = col_wall_time (instance_row_of str_of_floats r'))
  /\ (bound_width r = Some 0%float ->
      col_bound_width (instance_row_of str_of_floats r) = "0.000000").
Proof.
  intros Ht Hz.
  assert (col_wall_time (instance_row_of str_of_floats r) = "") as E.
  { cbn. rewrite Ht. unfold truthy. rewrite Hz. reflexivity. }
  split; [exact E|]. split.
  - intros r' Hr'. rewrite E. cbn. rewrite Hr'. reflexivity.
  - intros Hw. cbn. rewrite Hw. vm_compute. reflexivity.
Qed.

Lemma zero_wall_time_renders_empty_witness :
  col_wall_time (instance_row_of (fun _ => "[0.5]") zero_record) = ""
  /\ (forall r', wall_time r' = None ->
                 col_wall_time (instance_row_of (fun _ => "[0.5]") zero_record)
                 = col_wall_time (instance_row_of (fun _ => "[0.5]") r'))
  /\ (bound_width zero_record = Some 0%float ->
      col_bound_width (instance_row_of (fun _ => "[0.5]") zero_record) = "0.000000").
Proof.
  apply (zero_wall_time_renders_empty (fun _ => "[0.5]") zero_record 0%float);
    reflexivity.
Defined.

(** A wall time that is not zero renders with four decimals. *)
Example wall_time_rendering :
  format_fixed 4 11.46%float = "11.4600" /\ format_fixed 4 0%float = "0.0000".
Proof. vm_compute. split; reflexivity. Qed.

End TableClaims.

(* ===================================================================== *)
(** ** Status normalization *)
(* ===================================================================== *)

Module StatusClaims.
Import PyStr PyNum Re CompileResults Samples.

(** C7. Status normalization is tool-specific. The token is group 1 of
    the [Result:] line, compared after lowercasing. For abcrown, [unsat]
    yields ["verified"] and any other token yields the lowercased token.
    For luna, [unsat] or [sat] yields ["verified"] and any other token
    yields ["unknown"]; without a [Result:] line, the token of the
    [Property status:] line, compared after uppercasing, yields
    ["verified"] when it is [VERIFIED] or [VIOLATED] and ["unknown"]
    otherwise. These are the statuses of the two [run.out] parsers. *)
Theorem status_normalization (content : string) :
  (forall gs, search result_re content = Some gs ->
     (lower (group 1 gs) = "unsat" -> abcrown_status content = Some "verified")
     /\ (lower (group 1 gs) <> "unsat" ->
         abcrown_status content = Some (lower (group 1 gs)))
     /\ (lower (group 1 gs) = "unsat" \/ lower (group 1 gs) = "sat" ->
         luna_status content = Some "verified")
     /\ (lower (group 1 gs) <> "unsat" -> lower (group 1 gs) <> "sat" ->
         luna_status content = Some "unknown"))
  /\ (search result_re content = None ->
      abcrown_status content = None
      /\ (forall gs, search property_status_re content = Some gs ->
            (upper (group 1 gs) = "VERIFIED" \/ upper (group 1 gs) = "VIOLATED" ->
             luna_status content = Some "verified")
            /\ (upper (group 1 gs) <> "VERIFIED" ->
                upper (group 1 gs) <> "VIOLATED" ->
                luna_status content = Some "unknown"))
      /\ (search property_status_re content = None -> luna_status content = None))
  /\ (forall d, parse_abcrown_run_out (Readable content) = Ok d ->
                rd_status d = abcrown_status content)
  /\ (forall d, parse_luna_run_out (Readable content) = Ok d ->
                rd_status d = luna_status content).
Proof.
  split; [|split; [|split]].
  - intros gs Hgs. unfold abcrown_status, luna_status. rewrite Hgs.
    repeat split.
    + intros ->. reflexivity.
    + intros Hne. destruct (String.eqb_spec (lower (group 1 gs)) "unsat");
        [contradiction|reflexivity].
    + intros [-> | ->]; reflexivity.
    + intros H1 H2.
      destruct (String.eqb_spec (lower (group 1 gs)) "unsat"); [contradiction|].
      destruct (String.eqb_spec (lower (group 1 gs)) "sat"); [contradiction|].
      reflexivity.
  - intros Hnone. unfold abcrown_status, luna_status. rewrite Hnone.
    split; [reflexivity|]. split.
    + intros gs Hgs. rewrite Hgs. split.
      * intros [-> | ->]; reflexivity.
      * intros H1 H2.
        destruct (String.eqb_spec (upper (group 1 gs)) "VERIFIED"); [contradiction|].
        destruct (String.eqb_spec (upper (group 1 gs)) "VIOLATED"); [contradiction|].
        reflexivity.
    + intros ->. reflexivity.
  - intros d. cbn [parse_abcrown_run_out].
    destruct (parse_args_line content) as [o v].
    intros H. destruct (search time_re content) as [gs|]; cbn in H.
    + destruct (py_float (group 1 gs)); cbn in H; [|discriminate].
      injection H as <-. reflexivity.
    + injection H as <-. reflexivity.
  - intros d. cbn [parse_luna_run_out].
    destruct (parse_args_line content) as [o v].
    intros H. destruct (luna_bounds content) as [b|e]; cbn in H; [|discriminate].
    injection H as <-. reflexivity.
Qed.

(** The theorem at four logs: [unsat] and [unknown] for abcrown, [SAT]
    for luna, and [Violated] in the legacy format. *)
Lemma status_normalization_witness :
  abcrown_status abcrown_log = Some "verified"
  /\ abcrown_status mismatched_log = Some "unknown"
  /\ luna_status luna_log = Some "verified"
  /\ luna_status legacy_log = Some "verified".
Proof.
  destruct (status_normalization abcrown_log) as (Ha & _).
  destruct (status_normalization mismatched_log) as (Hm & _).
  destruct (status_normalization luna_log) as (Hl & _).
  destruct (status_normalization legacy_log) as (_ & Hg & _).
  split; [|split; [|split]].
  - refine (proj1 (Ha ["unsat"] _) _); vm_compute; reflexivity.
  - refine (proj1 (proj2 (Hm ["unknown"] _)) _); [vm_compute; reflexivity|].
    vm_compute. discriminate.
  - refine (proj1 (proj2 (proj2 (Hl ["SAT"] _))) _); [vm_compute; reflexivity|].
    right. vm_compute. reflexivity.
  - refine (proj1 (proj1 (proj2 (Hg _)) ["Violated"] _) _);
      [vm_compute; reflexivity|vm_compute; reflexivity|].
    right. vm_compute. reflexivity.
Defined.

End StatusClaims.

(* ===================================================================== *)
(** ** Job directories whose id is not a number *)
(* ===================================================================== *)

Module SortClaims.
Import PyStr PyNum Re CompileResults Samples CollectorFacts.

Lemma collect_benchmark_raise (tool_name : string) (b : benchmark_dir) (d : slurm_dir) :
  bd_is_dir b = true -> bd_name b <> "options" ->
  In d (bd_entries b) ->
  startswith "slurm-" (sd_name d) = true ->
  py_int (second_component (sd_name d)) = None ->
  collect_benchmark tool_name b = Raise ValueError.
Proof.
  intros Hdir Hname Hin Hpre Hint. unfold collect_benchmark.
  rewrite Hdir. cbn [negb].
  destruct (String.eqb_spec (bd_name b) "options"); [contradiction|].
  unfold sorted_by_key.
  rewrite (rmap_raise slurm_key (bd_entries b) d Hin); [reflexivity|].
  unfold slurm_key. rewrite Hpre, Hint. reflexivity.
Qed.

(** C10. If a benchmark directory (a directory of the tool directory
    other than [options]) has an entry whose name is ASCII text, starts
    with [slurm-] and whose second hyphen-separated component [int]
    rejects, then [collect_results_for_tool] raises [ValueError] (from the
    sort key of the job directories) and the whole run raises with it,
    whichever tool the directory belongs to; the entry is not skipped.
    (On a name with characters above 127 nothing is stated: [int] accepts
    digits and white space of other scripts.) *)
Theorem bad_slurm_id_aborts (tool_name : string) (entries : list benchmark_dir)
    (b : benchmark_dir) (d : slurm_dir) :
  In b entries -> bd_is_dir b = true -> bd_name b <> "options" ->
  In d (bd_entries b) ->
  isascii (sd_name d) = true ->
  startswith "slurm-" (sd_name d) = true ->
  py_int (second_component (sd_name d)) = None ->
  collect_results_for_tool tool_name (Some entries) = Raise ValueError
  /\ (forall str_of_floats other,
        main str_of_floats other (Some entries) = Raise ValueError
        /\ main str_of_floats (Some entries) other = Raise ValueError).
Proof.
  intros Hb Hdir Hname Hd _ Hpre Hint.
  assert (forall tool, collect_results_for_tool tool (Some entries) = Raise ValueError)
    as Hraise.
  { intros tool. cbn [collect_results_for_tool].
    apply collect_each_raise with (x := b).
    - apply py_sorted_In. exact Hb.
    - exact (collect_benchmark_raise tool b d Hdir Hname Hd Hpre Hint). }
  split; [apply Hraise|].
  intros str_of_floats other. unfold main. split.
  - rewrite Hraise. reflexivity.
  - destruct (collect_results_for_tool "abcrown" other) as [rs|[]]; cbn [rbind];
      [|reflexivity].
    rewrite Hraise. reflexivity.
Qed.

Lemma bad_slurm_id_aborts_witness :
  collect_results_for_tool "abcrown" bad_tree = Raise ValueError
  /\ (forall str_of_floats other,
        main str_of_floats other bad_tree = Raise ValueError
        /\ main str_of_floats bad_tree other = Raise ValueError).
Proof.
  apply (bad_slurm_id_aborts "abcrown"
           [BenchmarkDir "B1" true
              [job "slurm-1" abcrown_log; SlurmDir "slurm-old" true None None]]
           (BenchmarkDir "B1" true
              [job "slurm-1" abcrown_log; SlurmDir "slurm-old" true None None])
           (SlurmDir "slurm-old" true None None)).
  - left. reflexivity.
  - reflexivity.
  - cbn. discriminate.
  - right. left. reflexivity.
  - reflexivity.
  - reflexivity.
  - reflexivity.
Defined.

(** The white space [int] skips: the space, TAB and VT at either end, but
    not the unit separator (code 31), which [str.strip] would remove. *)
Example int_white_space :
  py_int " 7 " = Some 7%Z
  /\ py_int (String "009" "7") = Some 7%Z
  /\ py_int (String "011" "7") = Some 7%Z
  /\ py_int (String "7" (String "031" "")) = None
  /\ py_int (String "028" "7") = None
  /\ strip (String "7" (String "031" "")) = "7".
Proof. vm_compute. repeat split. Qed.

(** A job directory named [slurm-7] followed by the unit separator aborts
    the collection: [int] rejects its id. *)
Example unit_separator_id_aborts :
  collect_results_for_tool "abcrown"
    (Some [BenchmarkDir "B1" true
             [job "slurm-1" abcrown_log;
              job (String.append "slurm-7" (String "031" "")) abcrown_log]])
  = Raise ValueError.
Proof. vm_compute. reflexivity. Qed.

(** A job directory whose id is a number is collected. *)
Example good_slurm_id_collected :
  collect_results_for_tool "abcrown" good_tree = Ok [good_record].
Proof. vm_compute. reflexivity. Qed.

End SortClaims.

(* ===================================================================== *)
(** ** The exact-result joiner *)
(* ===================================================================== *)

Module JoinFacts.
Import PyStr CompileResults CreateExactResults JoinSpec.

Lemma pair_lt_asym (a b : string * string) : pair_lt a b = true -> pair_lt b a = false.
Proof.
  destruct a as [a1 a2], b as [b1 b2]. unfold pair_lt. cbn [fst snd].
  destruct (str_lt a1 b1) eqn:E1; cbn [orb].
  - intros _. rewrite (str_lt_asym _ _ E1). cbn [orb].
    destruct (String.eqb_spec b1 a1) as [->|]; [|reflexivity].
    rewrite str_lt_irrefl in E1. discriminate.
  - destruct (String.eqb_spec a1 b1) as [->|]; cbn [andb]; [|discriminate].
    intros E2. rewrite str_lt_irrefl, String.eqb_refl, (str_lt_asym _ _ E2).
    reflexivity.
Qed.

Lemma pair_lt_total (a b : string * string) :
  a <> b -> pair_lt b a = false -> pair_lt a b = true.
Proof.
  destruct a as [a1 a2], b as [b1 b2]. unfold pair_lt. cbn [fst snd].
  intros Hne H. apply orb_false_iff in H as [H1 H2].
  destruct (String.eqb_spec a1 b1) as [->|Hne1].
  - rewrite String.eqb_refl in H2. cbn [andb] in H2.
    rewrite (str_lt_total a2 b2); [apply orb_true_r| |assumption].
    intros ->. apply Hne. reflexivity.
  - rewrite (str_lt_total a1 b1) by assumption. reflexivity.
Qed.

Lemma elem_of_benchmarks_of (a l : gmap (string * string * string) instance)
    (b : string) :
  b ∈ benchmarks_of a l <->
  exists o v, is_Some (a !! (b, o, v)) \/ is_Some (l !! (b, o, v)).
Proof.
  unfold benchmarks_of. rewrite elem_of_union, !elem_of_map. split.
  - intros [([[b' o] v] & -> & Hk)|([[b' o] v] & -> & Hk)];
      apply elem_of_dom in Hk; exists o, v; cbn; auto.
  - intros (o & v & [Hk|Hk]); apply elem_of_dom in Hk; [left|right];
      exists (b, o, v); auto.
Qed.

Lemma elem_of_keys_of_benchmark (b : string)
    (m : gmap (string * string * string) instance) (o v : string) :
  (o, v) ∈ keys_of_benchmark b m <-> is_Some (m !! (b, o, v)).
Proof.
  unfold keys_of_benchmark. rewrite elem_of_map. split.
  - intros ([[b' o'] v'] & [= -> ->] & Hk).
    apply elem_of_filter in Hk as [Hb Hk]. cbn in Hb. subst b'.
    apply elem_of_dom. exact Hk.
  - intros Hk. exists (b, o, v). split; [reflexivity|].
    apply elem_of_filter. split; [reflexivity|]. apply elem_of_dom. exact Hk.
Qed.

Lemma elem_of_instance_keys_of (b : string)
    (a l : gmap (string * string * string) instance) (o v : string) :
  (o, v) ∈ instance_keys_of b a l <->
  is_Some (a !! (b, o, v)) \/ is_Some (l !! (b, o, v)).
Proof.
  unfold instance_keys_of.
  rewrite elem_of_union, !elem_of_keys_of_benchmark. reflexivity.
Qed.

(** The keys of the rows of a table are the sorted keys of the benchmark. *)
Lemma benchmark_data_keys (b : string)
    (a l : gmap (string * string * string) instance) :
  map row_key (benchmark_data b a l)
  = py_sorted pair_lt (elements (instance_keys_of b a l)).
Proof.
  unfold benchmark_data. rewrite map_map.
  rewrite <- (map_id (py_sorted pair_lt (elements (instance_keys_of b a l)))) at 2.
  apply map_ext. intros [o v]. reflexivity.
Qed.

Lemma main_benchmarks (a l : gmap (string * string * string) instance) :
  map fst (main a l) = py_sorted str_lt (elements (benchmarks_of a l)).
Proof.
  unfold main. rewrite map_map.
  rewrite <- (map_id (py_sorted str_lt (elements (benchmarks_of a l)))) at 2.
  apply map_ext. reflexivity.
Qed.

Lemma get_field_lookup (field : instance -> string)
    (m : gmap (string * string * string) instance) (k : string * string * string) :
  (m !! k = None -> get_field field m k = "")
  /\ (forall d, m !! k = Some d -> get_field field m k = field d).
Proof.
  unfold get_field. split; [intros ->|intros d ->]; reflexivity.
Qed.

End JoinFacts.

Module JoinClaims.
Import PyStr CompileResults CreateExactResults JoinSpec JoinFacts.

(** C8. For every pair of parsed instance mappings, the joiner writes one
    table for each benchmark present in either mapping, in the order of
    the benchmark names; the table of a benchmark has, for each
    (onnx_file, vnnlib_file) key of that benchmark in either mapping,
    exactly one row, in the order of the keys; and a row carries the
    [bound_width] and [wall_time] texts of each tool, with the empty
    string in the columns of a tool whose mapping lacks the key. *)
Theorem joiner_rows (abcrown_instances luna_instances
    : gmap (string * string * string) instance) :
  Sorted (fun x y => str_lt x y = true) (map fst (main abcrown_instances luna_instances))
  /\ List.NoDup (map fst (main abcrown_instances luna_instances))
  /\ (forall b, In b (map fst (main abcrown_instances luna_instances)) <->
                exists o v, is_Some (abcrown_instances !! (b, o, v))
                            \/ is_Some (luna_instances !! (b, o, v)))
  /\ (forall b rows, In (b, rows) (main abcrown_instances luna_instances) ->
        Sorted (fun x y => pair_lt x y = true) (map row_key rows)
        /\ List.NoDup (map row_key rows)
        /\ (forall o v, In (o, v) (map row_key rows) <->
                        is_Some (abcrown_instances !! (b, o, v))
                        \/ is_Some (luna_instances !! (b, o, v)))
        /\ (forall row, In row rows ->
              let key := (b, j_onnx_file row, j_vnnlib_file row) in
              (abcrown_instances !! key = None ->
               abcrown_bound_width row = "" /\ abcrown_runtime row = "")
              /\ (forall d, abcrown_instances !! key = Some d ->
                    abcrown_bound_width row = i_bound_width d
                    /\ abcrown_runtime row = i_wall_time d)
              /\ (luna_instances !! key = None ->
                  luna_bound_width row = "" /\ luna_runtime row = "")
              /\ (forall d, luna_instances !! key = Some d ->
                    luna_bound_width row = i_bound_width d
                    /\ luna_runtime row = i_wall_time d))).
Proof.
  set (a := abcrown_instances). set (l := luna_instances).
  destruct (py_sorted_strict str_lt str_lt_asym str_lt_total
              (elements (benchmarks_of a l)) (proj1 (NoDup_ListNoDup _) (NoDup_elements _))) as [Hs Hnd].
  rewrite main_benchmarks.
  split; [exact Hs|]. split; [exact Hnd|]. split.
  - intros b. rewrite py_sorted_In, <- list_elem_of_In, elem_of_elements.
    apply elem_of_benchmarks_of.
  - intros b rows Hin. unfold main in Hin. apply in_map_iff in Hin as (b' & [= -> <-] & _).
    destruct (py_sorted_strict pair_lt pair_lt_asym pair_lt_total
                (elements (instance_keys_of b a l)) (proj1 (NoDup_ListNoDup _) (NoDup_elements _))) as [Hs' Hnd'].
    rewrite benchmark_data_keys.
    split; [exact Hs'|]. split; [exact Hnd'|]. split.
    + intros o v. rewrite py_sorted_In, <- list_elem_of_In, elem_of_elements.
      apply elem_of_instance_keys_of.
    + intros row Hrow. unfold benchmark_data in Hrow.
      apply in_map_iff in Hrow as ([o v] & <- & _). cbn.
      destruct (get_field_lookup i_bound_width a (b, o, v)) as [Ha1 Ha2].
      destruct (get_field_lookup i_wall_time a (b, o, v)) as [Ha3 Ha4].
      destruct (get_field_lookup i_bound_width l (b, o, v)) as [Hl1 Hl2].
      destruct (get_field_lookup i_wall_time l (b, o, v)) as [Hl3 Hl4].
      repeat split; auto.
Qed.

(** The theorem at two small tables, with the tables [main] writes. *)
Lemma joiner_rows_witness :
  main abcrown_table luna_table = joined_tables
  /\ Sorted (fun x y => str_lt x y = true) (map fst (main abcrown_table luna_table))
  /\ List.NoDup (map fst (main abcrown_table luna_table)).
Proof.
  split; [vm_compute; reflexivity|].
  destruct (joiner_rows abcrown_table luna_table) as (Hs & Hnd & _).
  exact (conj Hs Hnd).
Defined.

End JoinClaims.

(* ===================================================================== *)
(** ** The scenarios of the specification *)
(* ===================================================================== *)

Module Scenarios.
Import PyStr PyNum CompileResults Spec Samples AggregateSamples.

(** Both tools report [unsat] and bounds for job 1 of benchmark [B1]: both
  statuses are ["verified"], the widths are 0.25 and 0.35, and the job is
  a common instance with bounds. *)
Example both_tools_verified :
collect_results_for_tool "abcrown" good_tree = Ok [good_record]
/\ collect_results_for_tool "luna" luna_tree = Ok [luna_record]
/\ elements (get_common_bounds_instances [good_record] [luna_record])
   = [("B1", "1")].
Proof. vm_compute. repeat split; reflexivity. Qed.

(** A job only abcrown has is in neither filtered list. *)
Example job_of_one_tool_is_dropped :
filter_common_instances [good_record; timed_out_record "2"] [luna_record]
= ([good_record], [luna_record]).
Proof. vm_compute. reflexivity. Qed.

(** A job on which abcrown timed out and luna has bounds stays in both
  filtered lists, and is no common instance with bounds. *)
Example timed_out_job_is_kept :
filter_common_instances [timed_out_record "1"] [luna_record]
= ([timed_out_record "1"], [luna_record])
/\ elements (get_common_bounds_instances [timed_out_record "1"] [luna_record]) = [].
Proof. vm_compute. split; reflexivity. Qed.

End Scenarios.

(* ===================================================================== *)
(** ** The log parsers: when they raise *)
(* ===================================================================== *)

Module ParserFacts.
Import PyStr PyNum Re CompileResults.

Lemma rmap_raise_inv {A B : Type} (f : A -> result B) (l : list A) (e : exn) :
rmap f l = Raise e -> exists x, In x l /\ f x = Raise ValueError.
Proof.
induction l as [|y l IH]; simpl; [discriminate|].
destruct (f y) as [b|[]] eqn:E; simpl.
- destruct (rmap f l) as [ys|[]]; simpl; [discriminate|].
  intros _. destruct e. destruct (IH eq_refl) as (x & Hin & Hx). exists x. auto.
- intros _. exists y. auto.
Qed.

Lemma or_value_error_raise {A : Type} (o : option A) (e : exn) :
or_value_error o = Raise e <-> o = None.
Proof.
destruct o; simpl; split; intros H; try discriminate; try reflexivity.
destruct e. reflexivity.
Qed.

End ParserFacts.

Module ParserProps.
Import PyStr PyNum Re CompileResults Samples RaiseSamples ParserFacts.

(** X1. [parse_abcrown_run_out] raises exactly when the log has a [Time:]
  line whose number [float] rejects (the only conversion it does not
  guard); a bound list [float] rejects never makes it raise. *)
Theorem parse_abcrown_raises_iff (f : file) :
parse_abcrown_run_out f = Raise ValueError
<-> exists content gs,
      f = Readable content
      /\ search time_re content = Some gs
      /\ py_float (group 1 gs) = None.
Proof.
destruct f as [|content]; cbn [parse_abcrown_run_out].
- split; [discriminate|]. intros (c & gs & [=] & _).
- destruct (parse_args_line content) as [o v].
  destruct (search time_re content) as [gs|] eqn:Es; cbn [rbind].
  + destruct (py_float (group 1 gs)) eqn:E; cbn; split; intros H;
      try discriminate; try reflexivity.
    * destruct H as (c & gs' & Hc & Hs & H). congruence.
    * exists content, gs. auto.
  + split; [discriminate|]. intros (c & gs' & Hc & Hs & _). congruence.
Qed.

Lemma parse_abcrown_raises_iff_witness :
parse_abcrown_run_out (Readable bad_time_log) = Raise ValueError.
Proof.
apply (proj2 (parse_abcrown_raises_iff (Readable bad_time_log))).
exists bad_time_log, ["1.2.3"]. vm_compute. auto.
Defined.

(** X2. [parse_luna_run_out] raises exactly when the line after
  [Output Bounds:] has a bracket pair one of whose two texts [float]
  rejects. *)
Theorem parse_luna_raises_iff (f : file) :
parse_luna_run_out f = Raise ValueError
<-> exists content gs p,
      f = Readable content
      /\ search output_bounds_re content = Some gs
      /\ In p (findall pair_re (strip (group 1 gs)))
      /\ (py_float (group 1 p) = None \/ py_float (group 2 p) = None).
Proof.
destruct f as [|content]; cbn [parse_luna_run_out].
- split; [discriminate|]. intros (c & gs & p & [=] & _).
- destruct (parse_args_line content) as [o v].
  unfold luna_bounds.
  destruct (search output_bounds_re content) as [gs|] eqn:Es;
    [|split; [discriminate|intros (c & gs & p & Hc & Hs & _); congruence]].
  set (pairs := findall pair_re (strip (group 1 gs))).
  assert ((exists p, In p pairs
                     /\ (py_float (group 1 p) = None \/ py_float (group 2 p) = None))
          <-> exists content' gs' p,
                Readable content = Readable content'
                /\ search output_bounds_re content' = Some gs'
                /\ In p (findall pair_re (strip (group 1 gs')))
                /\ (py_float (group 1 p) = None \/ py_float (group 2 p) = None))
    as <-.
  { split.
    - intros (p & Hin & H). exists content, gs, p. auto.
    - intros (c & gs' & p & Hc & Hs & Hin & H). exists p.
      assert (gs' = gs) as -> by congruence. auto. }
  destruct pairs as [|q qs] eqn:E.
  { split; [discriminate|]. intros (p & [] & _). }
  rewrite <- E. clear E.
  destruct (rmap (fun p => or_value_error (py_float (group 1 p))) pairs)
    as [lo|e] eqn:Elo; cbn [rbind].
  + destruct (rmap (fun p => or_value_error (py_float (group 2 p))) pairs)
      as [up|e] eqn:Eup; cbn [rbind].
    * split; [discriminate|]. intros (p & Hin & [H|H]).
      -- rewrite (rmap_raise _ pairs p Hin) in Elo; [discriminate|].
         rewrite H. reflexivity.
      -- rewrite (rmap_raise _ pairs p Hin) in Eup; [discriminate|].
         rewrite H. reflexivity.
    * destruct e. split; [|reflexivity]. intros _.
      destruct (rmap_raise_inv _ _ _ Eup) as (p & Hin & H).
      exists p. split; [exact Hin|]. right.
      exact (proj1 (or_value_error_raise _ _) H).
  + destruct e. split; [|reflexivity]. intros _.
    destruct (rmap_raise_inv _ _ _ Elo) as (p & Hin & H).
    exists p. split; [exact Hin|]. left.
    exact (proj1 (or_value_error_raise _ _) H).
Qed.

Lemma parse_luna_raises_iff_witness :
parse_luna_run_out (Readable bad_pair_log) = Raise ValueError.
Proof.
apply (proj2 (parse_luna_raises_iff (Readable bad_pair_log))).
exists bad_pair_log, ["[1-2, 3] [4, 5]"], ["1-2"; "3"]. vm_compute. auto.
Defined.

(** X3. [parse_output_log] raises exactly when the log has a runlim
  [real:] line whose number [float] rejects; and it reports a timeout
  only for a log with a runlim [status:] line whose text, stripped and
  lowercased, is [out of time]. *)
Theorem parse_output_log_raises_iff (f : file) :
(parse_output_log f = Raise ValueError
 <-> exists content gs,
       f = Readable content
       /\ search runlim_real_re content = Some gs
       /\ py_float (group 1 gs) = None)
/\ (forall d, parse_output_log f = Ok d ->
      (ld_timed_out d = true
       <-> exists content gs,
             f = Readable content
             /\ search runlim_status_re content = Some gs
             /\ lower (strip (group 1 gs)) = "out of time")).
Proof.
destruct f as [|content]; cbn [parse_output_log].
- split.
  + split; [discriminate|]. intros (c & gs & [=] & _).
  + intros d [= <-]. cbn. split; [discriminate|]. intros (c & gs & [=] & _).
- split.
  + destruct (search runlim_real_re content) as [gs|] eqn:Es.
    * destruct (py_float (group 1 gs)) eqn:E; cbn; split; intros H;
        try discriminate; try reflexivity.
      -- destruct H as (c & gs' & Hc & Hs & H). congruence.
      -- exists content, gs. auto.
    * cbn. split; [discriminate|]. intros (c & gs' & Hc & Hs & _). congruence.
  + intros d H. apply rbind_ok in H as (w & _ & [= <-]). cbn [ld_timed_out].
    destruct (search runlim_status_re content) as [gs|] eqn:Es.
    * split.
      -- intros H. exists content, gs. repeat split; [exact Es|].
         exact (proj1 (String.eqb_eq _ _) H).
      -- intros (c & gs' & Hc & Hs & H).
         assert (gs' = gs) as -> by congruence. rewrite H. reflexivity.
    * split; [discriminate|]. intros (c & gs' & Hc & Hs & _). congruence.
Qed.

Lemma parse_output_log_raises_iff_witness :
parse_output_log (Readable bad_real_log) = Raise ValueError.
Proof.
apply (proj2 (proj1 (parse_output_log_raises_iff (Readable bad_real_log)))).
exists bad_real_log, ["1.2.3"]. vm_compute. auto.
Defined.

End ParserProps.

(* ===================================================================== *)
(** ** What a match captures *)
(* ===================================================================== *)

Module ReFacts.
Import PyStr Re ReSpec.

Lemma all_chars_app (cls : ascii -> bool) (a b : string) :
all_chars cls (String.append a b) = all_chars cls a && all_chars cls b.
Proof.
induction a as [|c a IH]; [reflexivity|].
change (cls c && all_chars cls (String.append a b)
        = cls c && all_chars cls a && all_chars cls b).
rewrite IH, andb_assoc. reflexivity.
Qed.

Lemma append_empty (a : string) : String.append a EmptyString = a.
Proof.
induction a as [|c a IH]; [reflexivity|].
change (String c (String.append a EmptyString) = String c a).
rewrite IH. reflexivity.
Qed.

Lemma append_snoc (a : string) (x : ascii) (b : string) :
String.append (String.append a (String x EmptyString)) b
= String.append a (String x b).
Proof.
induction a as [|c a IH]; [reflexivity|].
change (String c (String.append (String.append a (String x EmptyString)) b)
        = String c (String.append a (String x b))).
rewrite IH. reflexivity.
Qed.

Lemma star_inv (cls : ascii -> bool) (k : string -> cursor -> option outcome)
  (acc : string) (p : option ascii) (s : string) (r : outcome) :
star cls k acc p s = Some r ->
exists run c', all_chars cls run = true /\ k (String.append acc run) c' = Some r.
Proof.
revert acc p. induction s as [|x s IH]; intros acc p; simpl.
- intros H. exists EmptyString, (Cursor p EmptyString). split; [reflexivity|].
  rewrite append_empty. exact H.
- assert (k acc (Cursor p (String x s)) = Some r ->
          exists run c', all_chars cls run = true
                         /\ k (String.append acc run) c' = Some r) as Hstop.
  { intros H. exists EmptyString, (Cursor p (String x s)). split; [reflexivity|].
    rewrite append_empty. exact H. }
  destruct (cls x) eqn:Ex; [|exact Hstop].
  destruct (star cls k (String.append acc (String x "")) (Some x) s) as [r'|] eqn:E;
    [|exact Hstop].
  intros [= <-]. destruct (IH _ _ E) as (run & c' & Hrun & Hk).
  exists (String x run), c'. split.
  + simpl. rewrite Ex, Hrun. reflexivity.
  + rewrite <- append_snoc. exact Hk.
Qed.

Lemma plus_inv (cls : ascii -> bool) (k : string -> cursor -> option outcome)
  (c : cursor) (r : outcome) :
plus cls k c = Some r ->
exists g c', captured cls g /\ k g c' = Some r.
Proof.
unfold plus. destruct (rest c) as [|x s]; [discriminate|].
destruct (cls x) eqn:Ex; [|discriminate].
intros H. destruct (star_inv _ _ _ _ _ _ H) as (run & c' & Hrun & Hk).
exists (String x run), c'. split; [|exact Hk].
split; [discriminate|]. simpl. rewrite Ex, Hrun. reflexivity.
Qed.

(** The groups of a match are captured by the classes of the pattern. *)
Lemma match_here_captured (pat : pattern) (c : cursor) (gs : list string) (c' : cursor) :
match_here pat c = Some (gs, c') ->
Forall2 captured (group_classes pat) gs.
Proof.
revert c gs c'. induction pat as [|i pat IH]; intros c gs c'; simpl.
- intros [= <- _]. constructor.
- destruct i as [l|cls|cls|cls| |].
  + destruct (lit l c) as [c1|]; [apply IH|discriminate].
  + intros H. destruct (star_inv _ _ _ _ _ _ H) as (_ & c1 & _ & Hk).
    exact (IH _ _ _ Hk).
  + intros H. destruct (plus_inv _ _ _ _ H) as (_ & c1 & _ & Hk).
    exact (IH _ _ _ Hk).
  + intros H. destruct (plus_inv _ _ _ _ H) as (g & c1 & Hg & Hk).
    destruct (match_here pat c1) as [[gs1 c2]|] eqn:E; [|discriminate].
    injection Hk as <- <-. constructor; [exact Hg|exact (IH _ _ _ E)].
  + destruct (at_bol c); [apply IH|discriminate].
  + destruct (at_eol c); [apply IH|discriminate].
Qed.

Lemma search_from_captured (pat : pattern) (p : option ascii) (s : string)
  (gs : list string) (c' : cursor) :
search_from pat p s = Some (gs, c') ->
Forall2 captured (group_classes pat) gs.
Proof.
revert p. induction s as [|x s IH]; intros p; simpl.
- destruct (match_here pat (Cursor p "")) as [[gs1 c1]|] eqn:E; [|discriminate].
  intros [= <- <-]. exact (match_here_captured _ _ _ _ E).
- destruct (match_here pat (Cursor p (String x s))) as [[gs1 c1]|] eqn:E.
  + intros [= <- <-]. exact (match_here_captured _ _ _ _ E).
  + apply IH.
Qed.

Lemma search_captured (pat : pattern) (content : string) (gs : list string) :
search pat content = Some gs -> Forall2 captured (group_classes pat) gs.
Proof.
unfold search. destruct (search_from pat None content) as [[gs1 c1]|] eqn:E;
  [|discriminate].
intros [= <-]. exact (search_from_captured _ _ _ _ _ E).
Qed.

Lemma findall_from_captured (fuel : nat) (pat : pattern) (p : option ascii)
  (s : string) :
Forall (Forall2 captured (group_classes pat)) (findall_from fuel pat p s).
Proof.
revert p s. induction fuel as [|fuel IH]; intros p s; simpl; [constructor|].
destruct (search_from pat p s) as [[gs c]|] eqn:E; [|constructor].
constructor; [exact (search_from_captured _ _ _ _ _ E)|apply IH].
Qed.

End ReFacts.

(* ===================================================================== *)
(** ** The collector: where records come from *)
(* ===================================================================== *)

Module OriginFacts.
Import PyStr PyNum Re ReSpec ReFacts CompileResults Spec CollectorSpec CollectorFacts.

Lemma rmap_Forall2 {A B : Type} (f : A -> result B) (l : list A) (k : list B) :
rmap f l = Ok k -> Forall2 (fun x y => f x = Ok y) l k.
Proof.
revert k. induction l as [|x l IH]; intros k; simpl.
- intros [= <-]. constructor.
- intros H. apply rbind_ok in H as (y & Hy & H).
  apply rbind_ok in H as (ys & Hys & [= <-]).
  constructor; [exact Hy|exact (IH _ Hys)].
Qed.

Lemma Forall2_combine_In {A B : Type} (P : A -> B -> Prop) (l : list A) (k : list B) :
Forall2 P l k -> forall y x, In (y, x) (combine k l) -> P x y.
Proof.
induction 1 as [|x y l k Hxy _ IH]; simpl; [tauto|].
intros y' x' [[= <- <-]|Hin]; [exact Hxy|exact (IH _ _ Hin)].
Qed.

Lemma Forall2_map_snd_combine {A B : Type} (P : A -> B -> Prop) (l : list A) (k : list B) :
Forall2 P l k -> map snd (combine k l) = l.
Proof.
induction 1 as [|x y l k _ _ IH]; simpl; [reflexivity|]. rewrite IH. reflexivity.
Qed.

Lemma Forall2_In_l {A B : Type} (P : A -> B -> Prop) (l : list A) (k : list B) :
Forall2 P l k -> forall x, In x l -> exists y, P x y.
Proof.
induction 1 as [|x y l k Hxy _ IH]; simpl; [tauto|].
intros x' [<-|Hin]; [eauto|exact (IH _ Hin)].
Qed.

(** The sorted entries are the entries, and each has a sort key. *)
Lemma sorted_by_key_inv {A : Type} (key : A -> result Z) (l l' : list A) :
sorted_by_key key l = Ok l' ->
exists ks,
  Forall2 (fun x k => key x = Ok k) l ks
  /\ l' = map snd (py_sorted (fun a b => (fst a <? fst b)%Z) (combine ks l))
  /\ Permutation l' l.
Proof.
unfold sorted_by_key. intros H. apply rbind_ok in H as (ks & Hks & [= <-]).
apply rmap_Forall2 in Hks. exists ks. split; [exact Hks|]. split; [reflexivity|].
rewrite <- (Forall2_map_snd_combine _ _ _ Hks) at 2.
apply Permutation_map, py_sorted_perm.
Qed.

(** Every record of the collector comes from a job directory. *)
Lemma collect_results_origin (tool_name : string) (entries : list benchmark_dir)
  (rs : list record) (r : record) :
collect_results_for_tool tool_name (Some entries) = Ok rs -> In r rs ->
exists b d rs',
  origin entries r b d
  /\ collect_job tool_name (bd_name b) d = Ok rs' /\ In r rs'
  /\ is_Some (py_int (slurm_id r)).
Proof.
cbn [collect_results_for_tool]. intros H Hin.
destruct (collect_each_In _ _ _ _ H Hin) as (b & rs1 & Hb & Hcb & Hin1).
apply py_sorted_In in Hb.
unfold collect_benchmark in Hcb.
destruct (bd_is_dir b) eqn:Hdir; cbn [negb] in Hcb;
  [|injection Hcb as <-; destruct Hin1].
destruct (String.eqb_spec (bd_name b) "options") as [|Hname];
  [injection Hcb as <-; destruct Hin1|].
apply rbind_ok in Hcb as (jobs & Hjobs & Hcb).
destruct (sorted_by_key_inv _ _ _ Hjobs) as (ks & Hks & _ & Hperm).
destruct (collect_each_In _ _ _ _ Hcb Hin1) as (d & rs2 & Hd & Hjob & Hin2).
apply (Permutation_in _ Hperm) in Hd.
destruct (collect_job_inv _ _ _ _ _ Hjob Hin2)
  as (run_out & data & Hrun & _ & _ & Hbn & Hid & _).
assert (sd_is_dir d = true /\ startswith "slurm-" (sd_name d) = true) as [Hsd Hpre].
{ unfold collect_job in Hjob.
  destruct (sd_is_dir d); cbn [negb] in Hjob; [|injection Hjob as <-; destruct Hin2].
  destruct (startswith "slurm-" (sd_name d)); cbn [negb] in Hjob;
    [|injection Hjob as <-; destruct Hin2].
  split; reflexivity. }
exists b, d, rs2. split; [|split; [exact Hjob|split; [exact Hin2|]]].
- split; try assumption. rewrite Hrun. discriminate.
- destruct (Forall2_In_l _ _ _ Hks d Hd) as (k & Hk).
  unfold slurm_key in Hk. rewrite Hpre in Hk. rewrite Hid.
  destruct (py_int (second_component (sd_name d))) as [n|]; [eauto|discriminate].
Qed.

Lemma collect_each_complete {A : Type} (step : A -> result (list record)) (l : list A)
  (rs : list record) (x : A) :
collect_each step l = Ok rs -> In x l ->
exists rs', step x = Ok rs' /\ incl rs' rs.
Proof.
revert rs. induction l as [|y l IH]; intros rs; simpl; [tauto|].
intros H Hin. apply rbind_ok in H as (rs1 & H1 & H).
apply rbind_ok in H as (rs2 & H2 & [= <-]).
destruct Hin as [<-|Hin].
- exists rs1. split; [exact H1|]. apply incl_appl, incl_refl.
- destruct (IH _ H2 Hin) as (rs' & Hx & Hincl). exists rs'.
  split; [exact Hx|]. apply incl_appr. exact Hincl.
Qed.

(** What [collect_job] appends: nothing, or one record with the id of the
  directory. *)
Lemma collect_job_shape (tool_name benchmark_name : string) (d : slurm_dir)
  (rs : list record) :
collect_job tool_name benchmark_name d = Ok rs ->
rs = []
\/ exists r, rs = [r]
             /\ startswith "slurm-" (sd_name d) = true
             /\ benchmark r = benchmark_name
             /\ slurm_id r = second_component (sd_name d).
Proof.
unfold collect_job.
destruct (sd_is_dir d); cbn [negb]; [|intros [= <-]; auto].
destruct (startswith "slurm-" (sd_name d)); cbn [negb]; [|intros [= <-]; auto].
destruct (sd_run_out d) as [run_out|]; [|intros [= <-]; auto].
intros H. apply rbind_ok in H as (log & _ & H).
apply rbind_ok in H as (data & _ & [= <-]).
right. eexists. repeat split.
Qed.

Lemma collect_job_some (tool_name benchmark_name : string) (d : slurm_dir)
  (rs : list record) :
collect_job tool_name benchmark_name d = Ok rs ->
sd_is_dir d = true -> startswith "slurm-" (sd_name d) = true ->
sd_run_out d <> None ->
exists r, rs = [r] /\ benchmark r = benchmark_name
          /\ slurm_id r = second_component (sd_name d).
Proof.
unfold collect_job. intros H Hsd Hpre Hrun. rewrite Hsd, Hpre in H.
cbn [negb] in H.
destruct (sd_run_out d) as [run_out|]; [|contradiction].
apply rbind_ok in H as (log & _ & H).
apply rbind_ok in H as (data & _ & [= <-]).
eexists. repeat split.
Qed.

Lemma key_le_trans : Transitive key_le.
Proof.
intros a b c. unfold key_le. rewrite !Z.ltb_ge. lia.
Qed.

(** The records of job directories visited in the order of their keys. *)
Lemma collect_pairs_sorted (tool_name benchmark_name : string)
  (pairs : list (Z * slurm_dir)) (rs : list record) :
StronglySorted key_le pairs ->
Forall (fun p => slurm_key (snd p) = Ok (fst p)) pairs ->
collect_each (collect_job tool_name benchmark_name) (map snd pairs) = Ok rs ->
StronglySorted id_le rs
/\ Forall (fun r => exists p, In p pairs /\ py_int (slurm_id r) = Some (fst p)) rs.
Proof.
revert rs. induction pairs as [|[k d] ps IH]; intros rs Hs Hk; simpl.
- intros [= <-]. split; constructor.
- intros H. apply rbind_ok in H as (rs1 & H1 & H).
  apply rbind_ok in H as (rs2 & H2 & [= <-]).
  apply StronglySorted_inv in Hs as [Hs Hhd].
  apply List.Forall_cons_iff in Hk as [Hkd Hk].
  destruct (IH _ Hs Hk H2) as [Hsorted Hall].
  assert (Forall (fun r => exists p, In p ((k, d) :: ps)
                                   /\ py_int (slurm_id r) = Some (fst p)) rs2) as Hall'.
  { eapply List.Forall_impl; [|exact Hall].
    intros r (p & Hp & Hr). exists p. split; [right; exact Hp|exact Hr]. }
  destruct (collect_job_shape _ _ _ _ H1) as [->|(r & -> & Hpre & _ & Hid)].
  + split; assumption.
  + cbn [snd fst] in Hkd. unfold slurm_key in Hkd. rewrite Hpre in Hkd.
    assert (py_int (slurm_id r) = Some k) as Hr.
    { rewrite Hid. destruct (py_int (second_component (sd_name d)));
        [injection Hkd as ->; reflexivity|discriminate]. }
    split.
    * cbn [app]. constructor; [exact Hsorted|].
      rewrite List.Forall_forall in Hall, Hhd. apply List.Forall_forall. intros r2 Hr2.
      destruct (Hall _ Hr2) as (p & Hp & Hp2).
      exists k, (fst p). repeat split; [exact Hr|exact Hp2|].
      specialize (Hhd _ Hp). unfold key_le in Hhd. cbn [fst] in Hhd.
      apply Z.ltb_ge in Hhd. exact Hhd.
    * cbn [app]. constructor; [|exact Hall'].
      exists (k, d). split; [left; reflexivity|exact Hr].
Qed.

End OriginFacts.

Module CollectorProps.
Import PyStr PyNum Re CompileResults Spec CollectorSpec Samples CollectorFacts OriginFacts.

(** X4. Every record of the collector comes from a job directory: a
  directory whose name starts with [slurm-] and that has a [run.out], in
  a directory of the tool directory other than [options]. The record
  carries the name of the tool, the name of the benchmark directory and
  the second component of the name of the job directory, which [int]
  accepts. *)
Theorem record_has_origin (tool_name : string) (entries : list benchmark_dir)
  (rs : list record) (r : record) :
collect_results_for_tool tool_name (Some entries) = Ok rs -> In r rs ->
tool r = tool_name
/\ is_Some (py_int (slurm_id r))
/\ exists b d, origin entries r b d.
Proof.
intros H Hin.
destruct (collect_results_origin _ _ _ _ H Hin) as (b & d & rs' & Ho & Hjob & Hin' & Hint).
destruct (collect_job_inv _ _ _ _ _ Hjob Hin') as (_ & _ & _ & _ & Ht & _).
split; [exact Ht|]. split; [exact Hint|]. exists b, d. exact Ho.
Qed.

Lemma record_has_origin_witness :
tool good_record = "abcrown"
/\ is_Some (py_int (slurm_id good_record))
/\ exists b d, origin [BenchmarkDir "B1" true [job "slurm-1" abcrown_log]]
                 good_record b d.
Proof.
apply (record_has_origin "abcrown"
         [BenchmarkDir "B1" true [job "slurm-1" abcrown_log]] [good_record]).
- vm_compute. reflexivity.
- left. reflexivity.
Defined.

(** X5. When the collector returns, it has a record for every job
  directory: for every directory of a benchmark directory whose name
  starts with [slurm-] and that has a [run.out], also one that cannot be
  read. *)
Theorem job_with_run_out_has_record (tool_name : string)
  (entries : list benchmark_dir) (rs : list record)
  (b : benchmark_dir) (d : slurm_dir) :
collect_results_for_tool tool_name (Some entries) = Ok rs ->
In b entries -> bd_is_dir b = true -> bd_name b <> "options" ->
In d (bd_entries b) -> sd_is_dir d = true ->
startswith "slurm-" (sd_name d) = true -> sd_run_out d <> None ->
exists r, In r rs /\ benchmark r = bd_name b
          /\ slurm_id r = second_component (sd_name d).
Proof.
cbn [collect_results_for_tool]. intros H Hb Hdir Hname Hd Hsd Hpre Hrun.
assert (In b (py_sorted (fun a b => str_lt (bd_name a) (bd_name b)) entries)) as Hb'
  by (apply py_sorted_In; exact Hb).
destruct (collect_each_complete _ _ _ _ H Hb') as (rs1 & Hcb & Hincl1).
unfold collect_benchmark in Hcb. rewrite Hdir in Hcb. cbn [negb] in Hcb.
destruct (String.eqb_spec (bd_name b) "options"); [contradiction|].
apply rbind_ok in Hcb as (jobs & Hjobs & Hcb).
destruct (sorted_by_key_inv _ _ _ Hjobs) as (ks & _ & _ & Hperm).
assert (In d jobs) as Hd' by (apply (Permutation_in _ (Permutation_sym Hperm)); exact Hd).
destruct (collect_each_complete _ _ _ _ Hcb Hd') as (rs2 & Hjob & Hincl2).
destruct (collect_job_some _ _ _ _ Hjob Hsd Hpre Hrun) as (r & -> & Hbn & Hid).
exists r. split; [|split; assumption].
apply Hincl1, Hincl2. left. reflexivity.
Qed.

Lemma job_with_run_out_has_record_witness :
exists r, In r [good_record] /\ benchmark r = "B1" /\ slurm_id r = "1".
Proof.
apply (job_with_run_out_has_record "abcrown"
         [BenchmarkDir "B1" true [job "slurm-1" abcrown_log]] [good_record]
         (BenchmarkDir "B1" true [job "slurm-1" abcrown_log])
         (job "slurm-1" abcrown_log)).
- vm_compute. reflexivity.
- left. reflexivity.
- reflexivity.
- cbn. discriminate.
- left. reflexivity.
- reflexivity.
- reflexivity.
- cbn. discriminate.
Defined.

(** X6. The records of one benchmark directory are in the ascending order
  of their ids read as numbers, whatever the order in which [iterdir]
  lists the job directories. *)
Theorem records_in_id_order (tool_name : string) (b : benchmark_dir)
  (rs : list record) :
collect_benchmark tool_name b = Ok rs -> StronglySorted id_le rs.
Proof.
unfold collect_benchmark.
destruct (negb (bd_is_dir b)); [intros [= <-]; constructor|].
destruct (String.eqb (bd_name b) "options"); [intros [= <-]; constructor|].
intros H. apply rbind_ok in H as (jobs & Hjobs & H).
destruct (sorted_by_key_inv _ _ _ Hjobs) as (ks & Hks & -> & _).
refine (proj1 (collect_pairs_sorted tool_name (bd_name b) _ rs _ _ H)).
- apply Sorted_StronglySorted; [exact key_le_trans|].
  apply (py_sorted_sorted (fun a b : Z * slurm_dir => (fst a <? fst b)%Z)).
  intros x y. rewrite Z.ltb_lt, Z.ltb_ge. lia.
- apply List.Forall_forall. intros [k d] Hin. apply py_sorted_In in Hin.
  exact (Forall2_combine_In _ _ _ Hks _ _ Hin).
Qed.

Lemma records_in_id_order_witness :
StronglySorted id_le [with_id "2" good_record; with_id "10" mismatched_record].
Proof.
apply (records_in_id_order "abcrown" unordered_dir).
vm_compute. reflexivity.
Defined.

End CollectorProps.

(* ===================================================================== *)
(** ** The status of a record *)
(* ===================================================================== *)

Module StatusFacts.
Import PyStr PyNum Re ReSpec ReFacts CompileResults CollectorFacts.

Lemma lower_not_empty (s : string) : s <> EmptyString -> lower s <> EmptyString.
Proof. destruct s; [contradiction|discriminate]. Qed.

(** The token of a status line. *)
Lemma word_group (pat : pattern) (content : string) (gs : list string) :
group_classes pat = [is_word] -> search pat content = Some gs ->
group 1 gs <> EmptyString.
Proof.
intros Hpat H. apply search_captured in H. rewrite Hpat in H.
inversion H as [|cls g l k [Hne _] Hrest]; subst.
exact Hne.
Qed.

Lemma abcrown_status_values (content s : string) :
abcrown_status content = Some s -> s <> "" /\ s <> "unsat".
Proof.
unfold abcrown_status.
destruct (search result_re content) as [gs|] eqn:E; [|discriminate].
pose proof (word_group result_re content gs eq_refl E) as Hne.
destruct (String.eqb_spec (lower (group 1 gs)) "unsat") as [He|He].
- intros [= <-]. split; discriminate.
- intros [= <-]. split; [apply lower_not_empty; exact Hne|exact He].
Qed.

Lemma luna_status_values (content s : string) :
luna_status content = Some s -> s = "verified" \/ s = "unknown".
Proof.
unfold luna_status.
destruct (search result_re content) as [gs|].
- destruct (_ || _); intros [= <-]; auto.
- destruct (search property_status_re content) as [gs|]; [|discriminate].
  destruct (_ || _); intros [= <-]; auto.
Qed.

Lemma parse_abcrown_status (f : file) (d : run_data) :
parse_abcrown_run_out f = Ok d ->
rd_status d = None \/ exists content, rd_status d = abcrown_status content.
Proof.
destruct f as [|content]; cbn [parse_abcrown_run_out].
- intros [= <-]. left. reflexivity.
- destruct (parse_args_line content) as [o v].
  intros H. apply rbind_ok in H as (t & _ & [= <-]). right. exists content.
  reflexivity.
Qed.

Lemma parse_luna_status (f : file) (d : run_data) :
parse_luna_run_out f = Ok d ->
rd_status d = None \/ exists content, rd_status d = luna_status content.
Proof.
destruct f as [|content]; cbn [parse_luna_run_out].
- intros [= <-]. left. reflexivity.
- destruct (parse_args_line content) as [o v].
  intros H. apply rbind_ok in H as (t & _ & [= <-]). right. exists content.
  reflexivity.
Qed.

End StatusFacts.

Module StatusProps.
Import PyStr PyNum Re CompileResults Samples CollectorFacts StatusFacts.

(** X7. The status of a record of the collector is never the empty text,
  so the status column of the instance table is empty exactly for a
  record without status. An abcrown record never has the status
  [unsat]; the status of a record of another tool, when it has one, is
  [verified] or [unknown]. *)
Theorem status_of_record (tool_name : string)
  (tool_path : option (list benchmark_dir)) (rs : list record) (r : record) :
collect_results_for_tool tool_name tool_path = Ok rs -> In r rs ->
status r <> Some ""
/\ (forall str_of_floats,
      col_status (instance_row_of str_of_floats r) = "" <-> status r = None)
/\ (tool_name = "abcrown" -> status r <> Some "unsat")
/\ (tool_name <> "abcrown" ->
    status r = None \/ status r = Some "verified" \/ status r = Some "unknown").
Proof.
intros H Hin.
destruct (collect_results_In _ _ _ _ H Hin) as (b & d & rs' & Hjob & Hin').
destruct (collect_job_inv _ _ _ _ _ Hjob Hin')
  as (run_out & data & _ & Hparse & _ & _ & _ & _ & _ & Hst & _).
assert (status r <> Some ""
        /\ (tool_name = "abcrown" -> status r <> Some "unsat")
        /\ (tool_name <> "abcrown" ->
            status r = None \/ status r = Some "verified"
            \/ status r = Some "unknown")) as (H1 & H2 & H3).
{ rewrite Hst. destruct (String.eqb_spec tool_name "abcrown") as [Ht|Ht].
  - destruct (parse_abcrown_status _ _ Hparse) as [->|(content & ->)];
      [repeat split; intros; try discriminate; try congruence|].
    destruct (abcrown_status content) as [s|] eqn:E;
      [|repeat split; intros; try discriminate; try congruence].
    destruct (abcrown_status_values _ _ E) as [Hne Hun].
    repeat split; intros; try discriminate; try congruence.
  - destruct (parse_luna_status _ _ Hparse) as [->|(content & ->)];
      [repeat split; intros; try discriminate; try congruence; auto|].
    destruct (luna_status content) as [s|] eqn:E;
      [|repeat split; intros; try discriminate; try congruence; auto].
    destruct (luna_status_values _ _ E) as [->| ->];
      repeat split; intros; try discriminate; try congruence; auto. }
split; [exact H1|]. split; [|split; assumption].
intros str_of_floats. cbn. destruct (status r) as [[|c s]|]; cbn.
- contradiction H1. reflexivity.
- split; discriminate.
- split; reflexivity.
Qed.

Lemma status_of_record_witness :
status luna_record <> Some ""
/\ (forall str_of_floats,
      col_status (instance_row_of str_of_floats luna_record) = ""
      <-> status luna_record = None)
/\ ("luna" = "abcrown" -> status luna_record <> Some "unsat")
/\ ("luna" <> "abcrown" ->
    status luna_record = None \/ status luna_record = Some "verified"
    \/ status luna_record = Some "unknown").
Proof.
apply (status_of_record "luna" luna_tree [luna_record] luna_record).
- vm_compute. reflexivity.
- left. reflexivity.
Defined.

End StatusProps.



(* ===================================================================== *)
(** ** The common-instance filter: how it composes *)
(* ===================================================================== *)

Module FilterFacts.
Import CompileResults Spec CommonFacts.

Lemma filter_filter_same {A : Type} (p : A -> bool) (l : list A) :
List.filter p (List.filter p l) = List.filter p l.
Proof.
induction l as [|x l IH]; simpl; [reflexivity|].
destruct (p x) eqn:E; simpl; [rewrite E, IH; reflexivity|exact IH].
Qed.

(** The keys with a result in a list restricted to keys that have one. *)
Lemma keys_where_restrict (rs : list record) (common : gset (string * string)) :
common ⊆ keys_where has_result rs ->
keys_where has_result
  (List.filter (fun r => bool_decide (key r ∈ common)) rs) = common.
Proof.
intros Hsub. apply set_eq. intros k. rewrite elem_of_keys_where. split.
- intros (r & Hin & _ & <-). apply filter_In in Hin as [_ Hin].
  exact (proj1 (bool_decide_eq_true _) Hin).
- intros Hk. destruct (proj1 (elem_of_keys_where _ rs k) (Hsub _ Hk))
    as (r & Hin & Hres & <-).
  exists r. split; [|split; [exact Hres|reflexivity]].
  apply filter_In. split; [assumption|]. apply bool_decide_eq_true. assumption.
Qed.

Lemma NoDup_map_inj {A B : Type} (f : A -> B) (l : list A) (x y : A) :
List.NoDup (map f l) -> In x l -> In y l -> f x = f y -> x = y.
Proof.
induction l as [|z l IH]; simpl; [tauto|].
intros Hnd. apply List.NoDup_cons_iff in Hnd as [Hz Hnd].
intros [<-|Hx] [<-|Hy] Hf.
- reflexivity.
- exfalso. apply Hz. rewrite Hf. apply in_map. exact Hy.
- exfalso. apply Hz. rewrite <- Hf. apply in_map. exact Hx.
- exact (IH Hnd Hx Hy Hf).
Qed.

Lemma filter_common_In (a l : list record) (r : record) :
(In r (fst (filter_common_instances a l)) <->
 In r a /\ key r ∈ keys_where has_result a ∩ keys_where has_result l)
/\ (In r (snd (filter_common_instances a l)) <->
    In r l /\ key r ∈ keys_where has_result a ∩ keys_where has_result l).
Proof.
unfold filter_common_instances. cbn [fst snd].
rewrite !filter_In, !bool_decide_eq_true. tauto.
Qed.

End FilterFacts.

Module FilterProps.
Import PyStr PyNum CompileResults Spec Samples AggregateSamples FilterSamples.
Import CommonFacts FilterFacts.

(** X8. Filtering twice is filtering once: [filter_common_instances] on
  its own two results returns them unchanged. *)
Theorem filter_common_instances_idempotent (abcrown_results luna_results : list record) :
filter_common_instances
  (fst (filter_common_instances abcrown_results luna_results))
  (snd (filter_common_instances abcrown_results luna_results))
= filter_common_instances abcrown_results luna_results.
Proof.
unfold filter_common_instances. cbn [fst snd].
set (common := keys_where has_result abcrown_results
               ∩ keys_where has_result luna_results).
assert (common ⊆ keys_where has_result abcrown_results) as Ha
  by (intros k Hk; apply elem_of_intersection in Hk; tauto).
assert (common ⊆ keys_where has_result luna_results) as Hl
  by (intros k Hk; apply elem_of_intersection in Hk; tauto).
rewrite (keys_where_restrict _ _ Ha), (keys_where_restrict _ _ Hl).
replace (common ∩ common) with common
  by (apply set_eq; intros k; rewrite elem_of_intersection; tauto).
rewrite !filter_filter_same. reflexivity.
Qed.

(** X9. When no two records of a tool have the same key, every record
  the filter keeps has [has_result] true and has a record of the other
  tool with the same key and [has_result] true in the other filtered
  list. *)
Theorem kept_records_have_result (abcrown_results luna_results : list record)
  (r : record) :
List.NoDup (map key abcrown_results) ->
In r (fst (filter_common_instances abcrown_results luna_results)) ->
has_result r = true
/\ exists r', In r' (snd (filter_common_instances abcrown_results luna_results))
              /\ key r' = key r /\ has_result r' = true.
Proof.
intros Hnd Hin.
apply (proj1 (filter_common_In _ _ _)) in Hin as [Hin Hk].
pose proof Hk as Hk'. apply elem_of_intersection in Hk' as [Ha Hl].
apply elem_of_keys_where in Ha as (ra & Hra & Hres & Hkey).
apply elem_of_keys_where in Hl as (rl & Hrl & Hresl & Hkeyl).
split.
- rewrite <- (NoDup_map_inj key _ _ _ Hnd Hra Hin Hkey). exact Hres.
- exists rl. split; [|split; assumption].
  apply (proj2 (filter_common_In _ _ _)). split; [exact Hrl|].
  rewrite Hkeyl. exact Hk.
Qed.

Lemma kept_records_have_result_witness :
has_result good_record = true
/\ exists r', In r' (snd (filter_common_instances
                           [good_record; timed_out_record "2"] [luna_record]))
              /\ key r' = key good_record /\ has_result r' = true.
Proof.
apply (kept_records_have_result [good_record; timed_out_record "2"] [luna_record]).
- vm_compute. constructor; [intros [H|[]]; discriminate H|].
  constructor; [intros []|constructor].
- vm_compute. left. reflexivity.
Defined.

(** Without that condition the filter may keep a record without result:
  one that shares its key with a record of the same tool that has one. *)
Example record_without_result_kept :
filter_common_instances [empty_record; good_record] [luna_record]
= ([empty_record; good_record], [luna_record])
/\ has_result empty_record = false.
Proof. vm_compute. split; reflexivity. Qed.

(** X10. When every record with a defined [bound_width] has [has_result]
  true, as the records of the collector do, filtering loses no instance
  both tools have bounds for: the common instances with bounds of the
  filtered lists are those of the unfiltered lists. *)
Theorem common_bounds_survive_filter (abcrown_results luna_results : list record) :
(forall r, In r abcrown_results \/ In r luna_results ->
           is_some_width r = true -> has_result r = true) ->
get_common_bounds_instances
  (fst (filter_common_instances abcrown_results luna_results))
  (snd (filter_common_instances abcrown_results luna_results))
= get_common_bounds_instances abcrown_results luna_results.
Proof.
intros Hres. apply set_eq. intros k. unfold get_common_bounds_instances.
rewrite !elem_of_intersection, !elem_of_keys_where. split.
- intros [(ra & Hra & Hwa & Hka) (rl & Hrl & Hwl & Hkl)].
  apply (proj1 (filter_common_In _ _ _)) in Hra as [Hra _].
  apply (proj2 (filter_common_In _ _ _)) in Hrl as [Hrl _].
  split; eauto.
- intros [(ra & Hra & Hwa & Hka) (rl & Hrl & Hwl & Hkl)].
  assert (k ∈ keys_where has_result abcrown_results
              ∩ keys_where has_result luna_results) as Hk.
  { apply elem_of_intersection. split; apply elem_of_keys_where.
    - exists ra. auto.
    - exists rl. auto. }
  split.
  + exists ra. split; [|auto].
    apply (proj1 (filter_common_In _ _ _)). rewrite Hka. auto.
  + exists rl. split; [|auto].
    apply (proj2 (filter_common_In _ _ _)). rewrite Hkl. auto.
Qed.

Lemma common_bounds_survive_filter_witness :
get_common_bounds_instances
  (fst (filter_common_instances [good_record; timed_out_record "2"] [luna_record]))
  (snd (filter_common_instances [good_record; timed_out_record "2"] [luna_record]))
= get_common_bounds_instances [good_record; timed_out_record "2"] [luna_record].
Proof.
apply (common_bounds_survive_filter [good_record; timed_out_record "2"] [luna_record]).
intros r [[<-|[<-|[]]]|[<-|[]]]; vm_compute; intros; congruence.
Defined.

End FilterProps.

(* ===================================================================== *)
(** ** Aggregates: the rows as a whole *)
(* ===================================================================== *)

Module RowFacts.
Import PyStr PyNum CompileResults Spec RowSpec AggregateFacts.

Lemma total_size_insert (m : gmap string (list record)) (k : string)
  (v : list record) :
total_size (<[k := v]> m) + length (default [] (m !! k)) = total_size m + length v.
Proof.
unfold total_size. destruct (m !! k) as [old|] eqn:E; cbn [default from_option id].
- rewrite <- (insert_delete_eq m k v).
  rewrite (map_to_list_insert (delete k m) k v) by apply lookup_delete_eq.
  rewrite <- (map_to_list_delete m k old E). simpl. lia.
- rewrite (map_to_list_insert m k v E). simpl. lia.
Qed.

Lemma total_size_fold (results : list record) (m : gmap string (list record)) :
total_size
  (fold_left
     (fun by_benchmark r =>
        <[benchmark r := default [] (by_benchmark !! benchmark r) ++ [r]]> by_benchmark)
     results m)
= total_size m + length results.
Proof.
revert m. induction results as [|r results IH]; intros m; cbn [fold_left length];
  [lia|].
rewrite IH.
pose proof (total_size_insert m (benchmark r)
              (default [] (m !! benchmark r) ++ [r])) as H.
rewrite length_app in H. cbn [length] in H. lia.
Qed.

Lemma total_size_group (results : list record) :
total_size (group_by_benchmark results) = length results.
Proof.
unfold group_by_benchmark. rewrite total_size_fold.
unfold total_size. rewrite map_to_list_empty. reflexivity.
Qed.

(** Sorting by a key and taking the keys is sorting the keys. *)
Lemma insert_by_map {A B : Type} (f : A -> B) (lt : B -> B -> bool) (x : A) (l : list A) :
map f (insert_by (fun a b => lt (f a) (f b)) x l) = insert_by lt (f x) (map f l).
Proof.
induction l as [|y l IH]; simpl; [reflexivity|].
destruct (lt (f y) (f x)); simpl; [rewrite IH|]; reflexivity.
Qed.

Lemma py_sorted_map {A B : Type} (f : A -> B) (lt : B -> B -> bool) (l : list A) :
map f (py_sorted (fun a b => lt (f a) (f b)) l) = py_sorted lt (map f l).
Proof.
induction l as [|x l IH]; simpl; [reflexivity|].
rewrite insert_by_map. f_equal. exact IH.
Qed.

Lemma compute_aggregates_names (results : list record)
  (cb cf : option (gset (string * string))) :
map agg_benchmark (compute_aggregates results cb cf)
= py_sorted str_lt (map fst (map_to_list (group_by_benchmark results))).
Proof.
unfold compute_aggregates. rewrite <- (py_sorted_map fst str_lt).
rewrite List.map_map. apply map_ext. intros [name instances]. reflexivity.
Qed.

Lemma compute_aggregates_totals (results : list record)
  (cb cf : option (gset (string * string))) :
map total_instances (compute_aggregates results cb cf)
= map (fun p : string * list record => length (snd p))
    (py_sorted (fun a b => str_lt (fst a) (fst b))
       (map_to_list (group_by_benchmark results))).
Proof.
unfold compute_aggregates. rewrite List.map_map. apply map_ext.
intros [name instances]. reflexivity.
Qed.

Lemma group_has_benchmark (results : list record) (name : string) :
In name (map fst (map_to_list (group_by_benchmark results)))
<-> exists r, In r results /\ benchmark r = name.
Proof.
rewrite in_map_iff. split.
- intros ([name' instances] & <- & Hin).
  apply list_elem_of_In, elem_of_map_to_list in Hin.
  destruct (group_by_benchmark_lookup _ _ _ Hin) as [-> Hne].
  cbn [fst]. destruct (of_benchmark name' results) as [|r rs] eqn:E; [contradiction|].
  assert (In r (of_benchmark name' results)) as Hr by (rewrite E; left; reflexivity).
  apply filter_In in Hr as [Hr Hb]. exists r. split; [exact Hr|].
  exact (proj1 (String.eqb_eq _ _) Hb).
- intros (r & Hr & Hb).
  assert (In r (of_benchmark name results)) as Hin.
  { apply filter_In. split; [exact Hr|]. apply String.eqb_eq. exact Hb. }
  destruct (group_by_benchmark results !! name) as [instances|] eqn:E.
  + exists (name, instances). split; [reflexivity|].
    apply list_elem_of_In, elem_of_map_to_list. exact E.
  + unfold group_by_benchmark in E. rewrite group_step_lookup in E.
    destruct (of_benchmark name results); [destruct Hin|discriminate].
Qed.

Lemma mean_none (xs : list float) : mean xs = None <-> xs = [].
Proof. destruct xs; simpl; split; intros; congruence. Qed.

Lemma omap_nil {A B : Type} (f : A -> option B) (l : list A) :
omap f l = [] <-> forall x, In x l -> f x = None.
Proof.
induction l as [|x l IH]; cbn.
- split; [intros _ y []|reflexivity].
- destruct (f x) eqn:E; cbn.
  + split; [discriminate|]. intros H. specialize (H x (or_introl eq_refl)). congruence.
  + rewrite IH. split.
    * intros H y [<-|Hy]; [exact E|exact (H y Hy)].
    * intros H y Hy. apply H. right. exact Hy.
Qed.

End RowFacts.

Module RowProps.
Import PyStr PyNum CompileResults Spec RowSpec Samples AggregateSamples.
Import AggregateFacts RowFacts.

(** X11. [compute_aggregates] returns one row per benchmark that has a
  record, and no other row, in the strictly ascending order of the
  benchmark names. *)
Theorem one_row_per_benchmark (results : list record)
  (common_bounds_instances common_finished_instances : option (gset (string * string))) :
Sorted (fun x y => str_lt x y = true)
  (map agg_benchmark
     (compute_aggregates results common_bounds_instances common_finished_instances))
/\ List.NoDup
     (map agg_benchmark
        (compute_aggregates results common_bounds_instances common_finished_instances))
/\ forall name,
     In name (map agg_benchmark
                (compute_aggregates results common_bounds_instances
                   common_finished_instances))
     <-> exists r, In r results /\ benchmark r = name.
Proof.
rewrite compute_aggregates_names.
assert (List.NoDup (map fst (map_to_list (group_by_benchmark results)))) as Hnd.
{ apply NoDup_ListNoDup.
  replace (map fst (map_to_list (group_by_benchmark results)))
    with ((map_to_list (group_by_benchmark results)).*1).
  - apply NoDup_fst_map_to_list.
  - generalize (map_to_list (group_by_benchmark results)).
    intros l. induction l as [|x l IH]; [reflexivity|]. cbn. rewrite IH. reflexivity. }
destruct (py_sorted_strict str_lt str_lt_asym str_lt_total _ Hnd) as [Hs Hnd'].
split; [exact Hs|]. split; [exact Hnd'|].
intros name. rewrite py_sorted_In. apply group_has_benchmark.
Qed.

(** X12. Every record is counted in exactly one row: the
  [total_instances] of the rows add up to the number of records. *)
Theorem totals_add_up (results : list record)
  (common_bounds_instances common_finished_instances : option (gset (string * string))) :
list_sum
  (map total_instances
     (compute_aggregates results common_bounds_instances common_finished_instances))
= length results.
Proof.
rewrite compute_aggregates_totals.
rewrite (Permutation_list_sum
           (Permutation_map _ (py_sorted_perm _ (map_to_list (group_by_benchmark results))))).
exact (total_size_group results).
Qed.

(** X13. With the two sets of common instances given, the
  [avg_bound_width] of a row is absent exactly when no record of its
  benchmark with a key in the first set has a [bound_width], and its
  [avg_runtime] is absent exactly when no record of its benchmark with a
  key in the second set has a [wall_time], a wall time of 0.0 included. *)
Theorem averages_absent_iff (results : list record)
  (cb cf : gset (string * string)) (row : aggregate) :
In row (compute_aggregates results (Some cb) (Some cf)) ->
(avg_bound_width row = None <->
 forall r, In r results -> benchmark r = agg_benchmark row -> key r ∈ cb ->
           bound_width r = None)
/\ (avg_runtime row = None <->
    forall r, In r results -> benchmark r = agg_benchmark row -> key r ∈ cf ->
              wall_time r = None).
Proof.
intros Hin. destruct (compute_aggregates_In _ _ _ _ Hin) as (name & -> & _).
cbn [aggregate_of avg_bound_width avg_runtime agg_benchmark].
rewrite !mean_none, !omap_nil.
assert (forall (s : gset (string * string)) r,
          In r (List.filter (fun i => bool_decide (key i ∈ s)) (of_benchmark name results))
          <-> In r results /\ benchmark r = name /\ key r ∈ s) as Hf.
{ intros s r. unfold of_benchmark.
  rewrite !filter_In, bool_decide_eq_true, String.eqb_eq. tauto. }
split; split.
- intros H r Hr Hb Hk. apply H, Hf. auto.
- intros H r Hr. apply Hf in Hr as (Hr & Hb & Hk). auto.
- intros H r Hr Hb Hk. apply H, Hf. auto.
- intros H r Hr. apply Hf in Hr as (Hr & Hb & Hk). auto.
Qed.

Lemma averages_absent_iff_witness :
(avg_bound_width three_jobs_row = None <->
 forall r, In r three_jobs -> benchmark r = agg_benchmark three_jobs_row ->
           key r ∈ get_common_bounds_instances three_jobs three_jobs ->
           bound_width r = None)
/\ (avg_runtime three_jobs_row = None <->
    forall r, In r three_jobs -> benchmark r = agg_benchmark three_jobs_row ->
              key r ∈ get_common_finished_instances three_jobs three_jobs ->
              wall_time r = None).
Proof.
apply (averages_absent_iff three_jobs
         (get_common_bounds_instances three_jobs three_jobs)
         (get_common_finished_instances three_jobs three_jobs) three_jobs_row).
vm_compute. left. reflexivity.
Defined.

End RowProps.

(* ===================================================================== *)
(** ** From the instance tables to the joined tables *)
(* ===================================================================== *)

Module TableFacts.
Import PyStr PyNum CompileResults CreateExactResults Spec TableSpec JoinSpec.
Import CommonFacts JoinFacts FilterFacts.

Lemma parse_step_lookup (rows : list instance_row)
  (m : gmap (string * string * string) instance) (k : string * string * string) :
fold_left
  (fun instances row =>
     let key := (col_benchmark row, col_onnx_file row, col_vnnlib_file row) in
     <[key := {| i_bound_width := col_bound_width row;
                 i_wall_time := col_wall_time row;
                 i_status := col_status row;
                 i_timed_out := col_timed_out row |}]> instances)
  rows m !! k
= match last (rows_with_key k rows) with
  | Some row => Some (instance_of row)
  | None => m !! k
  end.
Proof.
revert m. induction rows as [|row rows IH]; intros m; [reflexivity|].
cbn [fold_left]. rewrite IH. unfold rows_with_key. cbn [List.filter].
fold (rows_with_key k rows).
destruct (decide (row_key3 row = k)) as [Hk|Hk].
- rewrite (bool_decide_eq_true_2 _ Hk), last_cons.
  destruct (last (rows_with_key k rows)); [reflexivity|].
  unfold row_key3 in Hk. rewrite Hk, lookup_insert_eq. reflexivity.
- rewrite (bool_decide_eq_false_2 _ Hk).
  destruct (last (rows_with_key k rows)); [reflexivity|].
  apply lookup_insert_ne. exact Hk.
Qed.

Lemma parse_instances_lookup (rows : list instance_row) (k : string * string * string) :
parse_instances rows !! k = instance_of <$> last (rows_with_key k rows).
Proof.
unfold parse_instances. rewrite parse_step_lookup, lookup_empty.
destruct (last (rows_with_key k rows)); reflexivity.
Qed.

Lemma row_keys_write (str_of_floats : list float -> string) (rs : list record) :
row_keys (write_instance_csv str_of_floats rs) = key_set rs.
Proof.
unfold row_keys, key_set, write_instance_csv. rewrite List.map_map. reflexivity.
Qed.

Lemma key_set_nil_iff (rs : list record) : key_set rs = ∅ <-> rs = [].
Proof.
split; [|intros ->; reflexivity].
destruct rs as [|r rs]; [reflexivity|]. intros H. exfalso.
assert (key r ∈ key_set (r :: rs)) as Hin
  by (apply elem_of_key_set; exists r; split; [left|]; reflexivity).
rewrite H in Hin. exact (not_elem_of_empty _ Hin).
Qed.

Lemma filter_common_key_sets (a l : list record) :
key_set (fst (filter_common_instances a l))
= key_set (snd (filter_common_instances a l)).
Proof.
unfold filter_common_instances. cbn [fst snd].
rewrite (key_set_restrict a), (key_set_restrict l); [reflexivity| |].
- intros k Hk. apply elem_of_intersection in Hk as [_ Hk].
  exact (keys_where_subseteq _ _ _ Hk).
- intros k Hk. apply elem_of_intersection in Hk as [Hk _].
  exact (keys_where_subseteq _ _ _ Hk).
Qed.

End TableFacts.

Module TableProps.
Import PyStr PyNum CompileResults Spec TableSpec JoinSpec Samples.
Import CommonFacts JoinFacts FilterFacts TableFacts.

(** X14. [parse_instances] keeps, for each key, the values of the last
  row of the table with that key, and has no entry for a key no row
  has: a later row replaces an earlier one with the same benchmark and
  file names. *)
Theorem last_row_wins (rows : list instance_row) (k : string * string * string) :
CreateExactResults.parse_instances rows !! k
= instance_of <$> last (rows_with_key k rows).
Proof. apply parse_instances_lookup. Qed.

(** X16. A run of [main] that does not raise writes either nothing or the
  tables of both tools, abcrown first, and the two instance tables then
  have the same set of (benchmark, slurm_id) pairs. *)
Theorem main_writes_both_or_none (str_of_floats : list float -> string)
  (luna_results_dir abcrown_results_dir : option (list benchmark_dir))
  (outs : list tool_output) :
main str_of_floats luna_results_dir abcrown_results_dir = Ok outs ->
outs = []
\/ exists a l,
     outs = [a; l]
     /\ out_tool a = "abcrown" /\ out_tool l = "luna"
     /\ out_instances a <> [] /\ out_instances l <> []
     /\ row_keys (out_instances a) = row_keys (out_instances l).
Proof.
unfold main. intros H. apply rbind_ok in H as (ra & _ & H).
apply rbind_ok in H as (rl & _ & H).
pose proof (filter_common_key_sets ra rl) as Hkeys.
destruct (filter_common_instances ra rl) as [fa fl]. cbn [fst snd] in Hkeys.
injection H as <-. cbn [flat_map app].
destruct fa as [|a fa], fl as [|l fl].
- left. reflexivity.
- exfalso. symmetry in Hkeys. apply key_set_nil_iff in Hkeys. discriminate.
- exfalso. apply key_set_nil_iff in Hkeys. discriminate.
- right. eexists _, _. split; [reflexivity|]. cbn [out_tool out_instances].
  repeat split; try discriminate.
  rewrite !row_keys_write. exact Hkeys.
Qed.

Lemma main_writes_both_or_none_witness :
both_outputs = []
\/ exists a l,
     both_outputs = [a; l]
     /\ out_tool a = "abcrown" /\ out_tool l = "luna"
     /\ out_instances a <> [] /\ out_instances l <> []
     /\ row_keys (out_instances a) = row_keys (out_instances l).
Proof.
apply (main_writes_both_or_none (fun _ => "[..]") luna_tree good_tree both_outputs).
vm_compute. reflexivity.
Defined.

(** X18. When the directory of either tool does not exist, a run of
  [main] that does not raise writes nothing, for either tool. *)
Theorem missing_directory_writes_nothing (str_of_floats : list float -> string)
  (other : option (list benchmark_dir)) (outs : list tool_output) :
main str_of_floats None other = Ok outs \/ main str_of_floats other None = Ok outs ->
outs = [].
Proof.
assert (forall rs : list record,
          List.filter (fun r => bool_decide (key r ∈ (∅ : gset (string * string)))) rs = [])
  as Hnone.
{ intros rs. induction rs as [|r rs IH]; [reflexivity|]. cbn [List.filter].
  rewrite bool_decide_eq_false_2; [exact IH|apply not_elem_of_empty]. }
unfold main. intros [H|H].
- apply rbind_ok in H as (ra & _ & H). cbn [collect_results_for_tool rbind] in H.
  unfold filter_common_instances in H.
  replace (keys_where has_result ra ∩ keys_where has_result [])
    with (∅ : gset (string * string)) in H
    by (symmetry; apply (right_absorb_L ∅ (∩))).
  rewrite !Hnone in H. cbn in H. injection H as <-. reflexivity.
- cbn [collect_results_for_tool rbind] in H. apply rbind_ok in H as (rl & _ & H).
  unfold filter_common_instances in H.
  replace (keys_where has_result [] ∩ keys_where has_result rl)
    with (∅ : gset (string * string)) in H
    by (symmetry; apply (left_absorb_L ∅ (∩))).
  rewrite !Hnone in H. cbn in H. injection H as <-. reflexivity.
Qed.

Lemma missing_directory_writes_nothing_witness :
match main (fun _ => "[..]") None good_tree with
| Ok outs => outs
| Raise _ => []
end = [].
Proof.
apply (missing_directory_writes_nothing (fun _ => "[..]") good_tree).
left. vm_compute. reflexivity.
Defined.

(** X17. Every table the joiner writes has at least one row. *)
Theorem joined_table_not_empty
  (abcrown_instances luna_instances
   : gmap (string * string * string) CreateExactResults.instance)
  (b : string) (rows : list CreateExactResults.joined_row) :
In (b, rows) (CreateExactResults.main abcrown_instances luna_instances) ->
exists row, In row rows.
Proof.
unfold CreateExactResults.main. intros Hin.
apply in_map_iff in Hin as (b' & [= -> <-] & Hb).
apply py_sorted_In, list_elem_of_In, elem_of_elements in Hb.
apply elem_of_benchmarks_of in Hb as (o & v & Hk).
apply elem_of_instance_keys_of in Hk.
apply elem_of_elements, list_elem_of_In, (py_sorted_In CreateExactResults.pair_lt) in Hk.
unfold CreateExactResults.benchmark_data.
eexists. apply in_map_iff. exists (o, v). split; [reflexivity|exact Hk].
Qed.

Lemma joined_table_not_empty_witness :
exists row, In row [CreateExactResults.JoinedRow "m.onnx" "p.vnnlib" "" "--" "" ""].
Proof.
apply (joined_table_not_empty abcrown_table luna_table "A0").
vm_compute. left. reflexivity.
Defined.

End TableProps.

(* ===================================================================== *)
(** ** The file names of the arguments line *)
(* ===================================================================== *)

Module ArgsFacts.
Import PyStr PyNum Re ReSpec CompileResults ArgsSpec.

Lemma substring_full (s : string) : String.substring 0 (String.length s) s = s.
Proof.
induction s as [|c s IH]; [reflexivity|].
change (String c (String.substring 0 (String.length s) s) = String c s).
rewrite IH. reflexivity.
Qed.

Lemma endswith_refl (p : string) : endswith p p = true.
Proof.
unfold endswith. rewrite Nat.leb_refl, Nat.sub_diag, substring_full.
apply String.eqb_refl.
Qed.

Lemma endswith_cons_r (p s : string) (c : ascii) :
endswith p s = true -> endswith p (String c s) = true.
Proof.
unfold endswith. intros H. apply andb_true_iff in H as [Hle Heq].
apply Nat.leb_le in Hle.
change (String.length (String c s)) with (S (String.length s)).
replace (S (String.length s) - String.length p)
  with (S (String.length s - String.length p)) by lia.
change (String.substring (S (String.length s - String.length p))
          (String.length p) (String c s))
  with (String.substring (String.length s - String.length p) (String.length p) s).
rewrite Heq, andb_true_r. apply Nat.leb_le. lia.
Qed.

Lemma endswith_cons (p s : string) (c : ascii) :
endswith p (String c s) = true -> p = String c s \/ endswith p s = true.
Proof.
unfold endswith. intros H. apply andb_true_iff in H as [Hle Heq].
apply Nat.leb_le in Hle.
change (String.length (String c s)) with (S (String.length s)) in Hle, Heq.
destruct (Nat.le_gt_cases (String.length p) (String.length s)) as [Hk|Hk].
- right.
  replace (S (String.length s) - String.length p)
    with (S (String.length s - String.length p)) in Heq by lia.
  change (String.substring (S (String.length s - String.length p))
            (String.length p) (String c s))
    with (String.substring (String.length s - String.length p) (String.length p) s)
    in Heq.
  rewrite Heq, andb_true_r. apply Nat.leb_le. exact Hk.
- left. assert (String.length p = S (String.length s)) as Hp by lia.
  rewrite Hp, Nat.sub_diag in Heq.
  change (S (String.length s)) with (String.length (String c s)) in Heq.
  rewrite substring_full in Heq. symmetry. exact (proj1 (String.eqb_eq _ _) Heq).
Qed.

Lemma last_or_cons_cons {A : Type} (d x y : A) (l : list A) :
last_or d (x :: y :: l) = last_or d (y :: l).
Proof.
unfold last_or. cbn [rev].
destruct (rev l) as [|w ws]; reflexivity.
Qed.

Lemma split_on_single (s : string) :
all_chars not_slash s = true -> split_on "/" s = [s].
Proof.
induction s as [|c s IH]; [reflexivity|]. cbn [all_chars split_on].
intros H. apply andb_true_iff in H as [Hc Hs]. unfold not_slash in Hc.
destruct (Ascii.eqb c "/"); [discriminate|]. rewrite (IH Hs). reflexivity.
Qed.

Lemma split_on_many (s : string) :
all_chars not_slash s = false ->
exists w x ws, split_on "/" s = w :: x :: ws.
Proof.
induction s as [|c s IH]; [discriminate|]. cbn [all_chars split_on].
unfold not_slash at 1. destruct (Ascii.eqb c "/"); cbn [negb andb].
- intros _. destruct (split_on "/" s) as [|x ws] eqn:E.
  + destruct (CollectorFacts.split_on_not_nil _ _ E).
  + eauto.
- intros H. destruct (IH H) as (w & x & ws & ->). eauto.
Qed.

Lemma path_name_last (s : string) : path_name s = last_or s (split_on "/" s).
Proof. reflexivity. Qed.

(** The name of a path, by its first character. *)
Lemma path_name_cons (c : ascii) (s : string) :
path_name (String c s)
= if Ascii.eqb c "/" then path_name s
  else if all_chars not_slash s then String c s else path_name s.
Proof.
rewrite !path_name_last. cbn [split_on].
destruct (Ascii.eqb c "/") eqn:Ec.
- destruct (split_on "/" s) as [|x ws] eqn:E;
    [destruct (CollectorFacts.split_on_not_nil _ _ E)|].
  rewrite last_or_cons_cons. unfold last_or.
  destruct (rev (x :: ws)) eqn:Er; [|reflexivity].
  apply (f_equal (@length _)) in Er. rewrite length_rev in Er. discriminate.
- destruct (all_chars not_slash s) eqn:Es.
  + rewrite (split_on_single _ Es). reflexivity.
  + destruct (split_on_many _ Es) as (w & x & ws & ->).
    rewrite !last_or_cons_cons. unfold last_or.
    destruct (rev (x :: ws)) eqn:Er; [|reflexivity].
    apply (f_equal (@length _)) in Er. rewrite length_rev in Er. discriminate.
Qed.

Lemma path_name_no_slash (s : string) : all_chars not_slash (path_name s) = true.
Proof.
induction s as [|c s IH]; [reflexivity|]. rewrite path_name_cons.
destruct (Ascii.eqb c "/") eqn:Ec; [exact IH|].
destruct (all_chars not_slash s) eqn:Es; [|exact IH].
cbn [all_chars]. unfold not_slash at 1. rewrite Ec, Es. reflexivity.
Qed.

(** The name of a path that ends in an extension ends in it. *)
Lemma path_name_endswith (ext s : string) :
all_chars not_slash ext = true -> endswith ext s = true ->
endswith ext (path_name s) = true.
Proof.
intros Hext. induction s as [|c s IH]; [intros H; exact H|].
intros H. rewrite path_name_cons.
destruct (endswith_cons _ _ _ H) as [->|Hs].
- cbn [all_chars] in Hext. apply andb_true_iff in Hext as [Hc Hs].
  unfold not_slash in Hc. destruct (Ascii.eqb c "/"); [discriminate|].
  rewrite Hs. apply endswith_refl.
- destruct (Ascii.eqb c "/"); [exact (IH Hs)|].
  destruct (all_chars not_slash s); [exact H|exact (IH Hs)].
Qed.

Lemma path_name_base (ext s : string) :
all_chars not_slash ext = true -> endswith ext s = true ->
base_name ext (path_name s).
Proof.
intros Hext H. split; [exact (path_name_endswith _ _ Hext H)|apply path_name_no_slash].
Qed.

(** The two names the loop over the arguments leaves. *)
Lemma args_fold_base (args : list string) (o v o' v' : option string) :
(forall n, o = Some n -> base_name ".onnx" n) ->
(forall n, v = Some n -> base_name ".vnnlib" n) ->
fold_left
  (fun '(onnx_file, vnnlib_file) arg =>
     if endswith ".onnx" arg then (Some (path_name arg), vnnlib_file)
     else if endswith ".vnnlib" arg then (onnx_file, Some (path_name arg))
     else (onnx_file, vnnlib_file))
  args (o, v) = (o', v') ->
(forall n, o' = Some n -> base_name ".onnx" n)
/\ (forall n, v' = Some n -> base_name ".vnnlib" n).
Proof.
revert o v. induction args as [|arg args IH]; intros o v Ho Hv; cbn [fold_left].
- intros [= <- <-]. split; assumption.
- destruct (endswith ".onnx" arg) eqn:E1; [|destruct (endswith ".vnnlib" arg) eqn:E2].
  + apply IH; [|exact Hv]. intros n [= <-]. apply path_name_base; [reflexivity|exact E1].
  + apply IH; [exact Ho|]. intros n [= <-]. apply path_name_base; [reflexivity|exact E2].
  + apply IH; assumption.
Qed.

End ArgsFacts.

Module ArgsProps.
Import PyStr PyNum Re ReSpec CompileResults ArgsSpec ArgsFacts.

(** X19. The file names [parse_args_line] returns are base names: the
  model file, when there is one, ends in [.onnx], the property file in
  [.vnnlib], and neither contains a slash (nor is empty). *)
Theorem args_are_base_names (content : string) :
(forall n, fst (parse_args_line content) = Some n ->
           base_name ".onnx" n /\ 0 < String.length n)
/\ (forall n, snd (parse_args_line content) = Some n ->
              base_name ".vnnlib" n /\ 0 < String.length n).
Proof.
assert (forall ext n, base_name ext n -> 0 < String.length ext ->
                      0 < String.length n) as Hlen.
{ intros ext n [He _] Hpos. unfold endswith in He.
  apply andb_true_iff in He as [Hle _]. apply Nat.leb_le in Hle. lia. }
unfold parse_args_line. destruct (search args_re content) as [gs|].
- destruct (fold_left _ _ (None, None)) as [o v] eqn:E.
  destruct (args_fold_base (split_ws (strip (group 1 gs))) None None o v)
    as [Ho Hv]; [discriminate|discriminate|exact E|].
  cbn [fst snd]. split; intros n Hn.
  + split; [exact (Ho n Hn)|]. apply (Hlen _ _ (Ho n Hn)). cbn. lia.
  + split; [exact (Hv n Hn)|]. apply (Hlen _ _ (Hv n Hn)). cbn. lia.
- cbn [fst snd]. split; discriminate.
Qed.

Lemma args_are_base_names_witness :
parse_args_line args_log = (Some "a.onnx", Some "p.vnnlib")
/\ base_name ".onnx" "a.onnx" /\ base_name ".vnnlib" "p.vnnlib".
Proof.
assert (parse_args_line args_log = (Some "a.onnx", Some "p.vnnlib")) as E
  by (vm_compute; reflexivity).
destruct (args_are_base_names args_log) as [Ho Hv]. rewrite E in Ho, Hv.
exact (conj E (conj (proj1 (Ho _ eq_refl)) (proj1 (Hv _ eq_refl)))).
Defined.

End ArgsProps.

(* ===================================================================== *)
(** ** The bound columns of a collected record *)
(* ===================================================================== *)

Module BoundColumnProps.
Import PyStr PyNum CompileResults Spec Samples CollectorFacts.

(** X20. A bound list of a record of the collector is never empty, so the
  instance table renders every present list with [str] and uses the
  placeholder only for a missing one. *)
Theorem present_bounds_are_rendered (tool_name : string)
  (tool_path : option (list benchmark_dir)) (rs : list record) (r : record)
  (str_of_floats : list float -> string) :
collect_results_for_tool tool_name tool_path = Ok rs -> In r rs ->
(forall l, lower_bounds r = Some l ->
           0 < length l
           /\ col_lower_bounds (instance_row_of str_of_floats r) = str_of_floats l)
/\ (forall l, upper_bounds r = Some l ->
              0 < length l
              /\ col_upper_bounds (instance_row_of str_of_floats r) = str_of_floats l).
Proof.
intros H Hin.
destruct (collect_results_collected _ _ _ _ H Hin) as [_ _ _ Hl Hu].
split; intros l E; cbn; rewrite E in *; (destruct l as [|x l]; [contradiction|]);
  (split; [cbn; lia|reflexivity]).
Qed.

Lemma present_bounds_are_rendered_witness :
(forall l, lower_bounds good_record = Some l ->
           0 < length l
           /\ col_lower_bounds (instance_row_of (fun _ => "[..]") good_record) = "[..]")
/\ (forall l, upper_bounds good_record = Some l ->
              0 < length l
              /\ col_upper_bounds (instance_row_of (fun _ => "[..]") good_record) = "[..]").
Proof.
apply (present_bounds_are_rendered "abcrown" good_tree [good_record] good_record
         (fun _ => "[..]")).
- vm_compute. reflexivity.
- left. reflexivity.
Defined.

End BoundColumnProps.
